(** * Rack layout reconciliation: a shallow embedding of [fetch_rack_match.py]

    The script reconciles a planned rack layout (CSV rows of well position and
    sample ID) with the scan reported by a rack reader (a JSON document) and
    writes an annotated CSV.  This development embeds the reconciliation logic
    of the script ([normalize_position], [read_layout], [iter_decode_items],
    [extract_scanner_results], [build_output_rows], [write_output], [main] and
    the [__main__] block) and proves properties about it.

    Modelling conventions.
    - A Python [str] is a [string] and stands for ASCII text: [PyStr] and
      [Regex] treat a character above 127 as an opaque symbol that is neither
      space, letter nor digit.  Module [Unicode] has the position normalizer
      on all text, with the white space, upper-case forms and digits of
      Unicode; on ASCII text the two normalizers agree
      ([AsciiFacts.normalize_position_ascii]).
    - A Python [dict] built from JSON is an association list in insertion
      order; a dict used only as a finite map is a [gmap].
    - An exception is a value of type [exn]; a function that can raise
      returns [result A], and calls are sequenced with [x <~ e ;; k]. *)

From Stdlib Require Import ZArith Ascii String SpecFloat.
From stdpp Require Import base option list strings gmap pretty sorting.

Local Open Scope Z_scope.

(** ** Python string primitives (ASCII) *)

Module PyStr.

Definition code (c : ascii) : N := N_of_ascii c.

(** [str.isspace] on one character: TAB, LF, VT, FF, CR, the four
    separators FS, GS, RS, US and the space. *)
Definition is_space (c : ascii) : bool :=
  let n := code c in
  ((9 <=? n) && (n <=? 13) || (28 <=? n) && (n <=? 32))%N.

Definition is_lower (c : ascii) : bool :=
  let n := code c in ((97 <=? n) && (n <=? 122))%N.

(** The character class [[A-Z]]. *)
Definition is_upper (c : ascii) : bool :=
  let n := code c in ((65 <=? n) && (n <=? 90))%N.

(** The character class [\d]. *)
Definition is_digit (c : ascii) : bool :=
  let n := code c in ((48 <=? n) && (n <=? 57))%N.

Definition is_zero (c : ascii) : bool := (code c =? 48)%N.

Definition is_sign (c : ascii) : bool :=
  ((code c =? 43) || (code c =? 45))%N.

Definition to_upper (c : ascii) : ascii :=
  if is_lower c then ascii_of_N (code c - 32) else c.

(** [s.upper()] *)
Fixpoint upper (s : string) : string :=
  match s with
  | EmptyString => EmptyString
  | String c s' => String (to_upper c) (upper s')
  end.

(** [s.lstrip()], [s.rstrip()] and [s.strip()] without arguments. *)
Fixpoint lstrip (s : string) : string :=
  match s with
  | EmptyString => EmptyString
  | String c s' => if is_space c then lstrip s' else s
  end.

Fixpoint rstrip (s : string) : string :=
  match s with
  | EmptyString => EmptyString
  | String c s' =>
      match rstrip s' with
      | EmptyString => if is_space c then EmptyString else String c EmptyString
      | r => String c r
      end
  end.

Definition strip (s : string) : string := rstrip (lstrip s).

Fixpoint all (p : ascii → bool) (s : string) : bool :=
  match s with
  | EmptyString => true
  | String c s' => p c && all p s'
  end.

Definition is_empty (s : string) : bool :=
  match s with EmptyString => true | _ => false end.

(** [s.isascii()] *)
Definition isascii (s : string) : bool := all (λ c, (code c <? 128)%N) s.

Fixpoint zeros (n : nat) : string :=
  match n with
  | O => EmptyString
  | S n' => String "0" (zeros n')
  end.

(** [s.zfill(width)]: pad with zeros on the left up to [width]; a leading
    sign stays in front of the padding. *)
Definition zfill (width : nat) (s : string) : string :=
  let n := String.length s in
  if (width <=? n)%nat then s
  else
    let pad := zeros (width - n) in
    match s with
    | String c rest => if is_sign c then String c (pad +:+ rest) else pad +:+ s
    | EmptyString => pad
    end.

End PyStr.

(** ** The pattern [([A-Z]+)0*(\d+)]

    [re.fullmatch] is a backtracking matcher with greedy quantifiers.  For a
    quantified character class the candidate splits of the remaining input
    are tried from the longest repetition down to the shortest. *)

Module Regex.
Import PyStr.

(** All ways to split [s] into a prefix of characters in [p] and the rest,
    longest prefix first. *)
Fixpoint greedy_splits (p : ascii → bool) (s : string) : list (string * string) :=
  match s with
  | EmptyString => [(EmptyString, EmptyString)]
  | String c s' =>
      if p c
      then (prod_map (String c) id <$> greedy_splits p s') ++ [(EmptyString, s)]
      else [(EmptyString, s)]
  end.

(** The first candidate on which the continuation succeeds. *)
Fixpoint first_match {A B} (k : A → option B) (l : list A) : option B :=
  match l with
  | [] => None
  | x :: l' => match k x with Some y => Some y | None => first_match k l' end
  end.

(** [(\d+)] followed by the end of the input; yields the group. *)
Definition match_digits (s : string) : option string :=
  first_match
    (λ '(digits, rest),
       if is_empty digits then None
       else if is_empty rest then Some digits else None)
    (greedy_splits is_digit s).

(** [0*(\d+)] followed by the end of the input. *)
Definition match_zeros_digits (s : string) : option string :=
  first_match (λ '(_, rest), match_digits rest) (greedy_splits is_zero s).

(** [re.fullmatch(r"([A-Z]+)0*(\d+)", token)] with [match.groups()]. *)
Definition fullmatch_position (token : string) : option (string * string) :=
  first_match
    (λ '(letters, rest),
       if is_empty letters then None
       else digits ← match_zeros_digits rest; Some (letters, digits))
    (greedy_splits is_upper token).

End Regex.

(** ** Position normalizer *)

(** [normalize_position(raw)] for a [str] argument. *)
Definition normalize_position (raw : string) : string :=
  let token := PyStr.upper (PyStr.strip raw) in
  match Regex.fullmatch_position token with
  | None => token
  | Some (row_letters, column_digits) =>
      row_letters +:+ PyStr.zfill 2 column_digits
  end.

(** ** The position normalizer on Unicode text

    [PyStr] and [Regex] read a character as ASCII.  This module has the
    functions of [normalize_position] on all text: a [str] is the list of
    its code points, and white space, the upper-case forms and the class
    [\d] are those of Unicode 14.0.0, the version that CPython 3.11 ships. *)

Module Unicode.
Local Open Scope N_scope.

Abbreviation ustring := (list N).

(** The characters for which [str.isspace] holds; [str.strip] removes them. *)
Definition whitespace : list N :=
  [9; 10; 11; 12; 13; 28; 29; 30; 31; 32; 133; 160; 5760; 8192; 8193; 8194;
   8195; 8196; 8197; 8198; 8199; 8200; 8201; 8202; 8232; 8233; 8239; 8287;
   12288].

Definition is_space (c : N) : bool := existsb (N.eqb c) whitespace.

(** The decimal digits come in runs of ten, from zero to nine; these are the
    zeros of the runs. *)
Definition decimal_zeros : list N :=
  [48; 1632; 1776; 1984; 2406; 2534; 2662; 2790; 2918; 3046; 3174; 3302;
   3430; 3558; 3664; 3792; 3872; 4160; 4240; 6112; 6160; 6470; 6608; 6784;
   6800; 6992; 7088; 7232; 7248; 42528; 43216; 43264; 43472; 43504; 43600;
   44016; 65296; 66720; 68912; 69734; 69872; 69942; 70096; 70384; 70736;
   70864; 71248; 71360; 71472; 71904; 72016; 72784; 73040; 73120; 92768;
   92864; 93008; 120782; 120792; 120802; 120812; 120822; 123200; 123632;
   125264; 130032].

(** The character class [\d] of a [str] pattern: any decimal digit. *)
Definition is_digit (c : N) : bool :=
  existsb (λ zero, (zero <=? c) && (c <=? zero + 9)) decimal_zeros.

(** The character class [[A-Z]]. *)
Definition is_upper (c : N) : bool := (65 <=? c) && (c <=? 90).

(** The character [0] of the pattern and of [zfill]. *)
Definition is_zero (c : N) : bool := c =? 48.

Definition is_sign (c : N) : bool := (c =? 43) || (c =? 45).

(** The characters that [str.upper] changes, each with its upper-case form;
    the form of some characters is several characters long. *)
Definition uppercase_1 : list (N * ustring) :=
  [(97, [65]); (98, [66]); (99, [67]); (100, [68]); (101, [69]); (102, [70]);
   (103, [71]); (104, [72]); (105, [73]); (106, [74]); (107, [75]);
   (108, [76]); (109, [77]); (110, [78]); (111, [79]); (112, [80]);
   (113, [81]); (114, [82]); (115, [83]); (116, [84]); (117, [85]);
   (118, [86]); (119, [87]); (120, [88]); (121, [89]); (122, [90]);
   (181, [924]); (223, [83; 83]); (224, [192]); (225, [193]); (226, [194]);
   (227, [195]); (228, [196]); (229, [197]); (230, [198]); (231, [199]);
   (232, [200]); (233, [201]); (234, [202]); (235, [203]); (236, [204]);
   (237, [205]); (238, [206]); (239, [207]); (240, [208]); (241, [209]);
   (242, [210]); (243, [211]); (244, [212]); (245, [213]); (246, [214]);
   (248, [216]); (249, [217]); (250, [218]); (251, [219]); (252, [220]);
   (253, [221]); (254, [222]); (255, [376]); (257, [256]); (259, [258]);
   (261, [260]); (263, [262]); (265, [264]); (267, [266]); (269, [268]);
   (271, [270]); (273, [272]); (275, [274]); (277, [276]); (279, [278]);
   (281, [280]); (283, [282]); (285, [284]); (287, [286]); (289, [288]);
   (291, [290]); (293, [292]); (295, [294]); (297, [296]); (299, [298]);
   (301, [300]); (303, [302]); (305, [73]); (307, [306]); (309, [308]);
   (311, [310]); (314, [313]); (316, [315]); (318, [317]); (320, [319]);
   (322, [321]); (324, [323]); (326, [325]); (328, [327]); (329, [700; 78]);
   (331, [330]); (333, [332]); (335, [334]); (337, [336]); (339, [338]);
   (341, [340]); (343, [342]); (345, [344]); (347, [346]); (349, [348]);
   (351, [350]); (353, [352]); (355, [354]); (357, [356]); (359, [358]);
   (361, [360]); (363, [362]); (365, [364]); (367, [366]); (369, [368]);
   (371, [370]); (373, [372]); (375, [374]); (378, [377]); (380, [379]);
   (382, [381]); (383, [83]); (384, [579]); (387, [386]); (389, [388]);
   (392, [391]); (396, [395])].

Definition uppercase_2 : list (N * ustring) :=
  [(402, [401]); (405, [502]); (409, [408]); (410, [573]); (414, [544]);
   (417, [416]); (419, [418]); (421, [420]); (424, [423]); (429, [428]);
   (432, [431]); (436, [435]); (438, [437]); (441, [440]); (445, [444]);
   (447, [503]); (453, [452]); (454, [452]); (456, [455]); (457, [455]);
   (459, [458]); (460, [458]); (462, [461]); (464, [463]); (466, [465]);
   (468, [467]); (470, [469]); (472, [471]); (474, [473]); (476, [475]);
   (477, [398]); (479, [478]); (481, [480]); (483, [482]); (485, [484]);
   (487, [486]); (489, [488]); (491, [490]); (493, [492]); (495, [494]);
   (496, [74; 780]); (498, [497]); (499, [497]); (501, [500]); (505, [504]);
   (507, [506]); (509, [508]); (511, [510]); (513, [512]); (515, [514]);
   (517, [516]); (519, [518]); (521, [520]); (523, [522]); (525, [524]);
   (527, [526]); (529, [528]); (531, [530]); (533, [532]); (535, [534]);
   (537, [536]); (539, [538]); (541, [540]); (543, [542]); (547, [546]);
   (549, [548]); (551, [550]); (553, [552]); (555, [554]); (557, [556]);
   (559, [558]); (561, [560]); (563, [562]); (572, [571]); (575, [11390]);
   (576, [11391]); (578, [577]); (583, [582]); (585, [584]); (587, [586]);
   (589, [588]); (591, [590]); (592, [11375]); (593, [11373]);
   (594, [11376]); (595, [385]); (596, [390]); (598, [393]); (599, [394]);
   (601, [399]); (603, [400]); (604, [42923]); (608, [403]); (609, [42924]);
   (611, [404]); (613, [42893]); (614, [42922]); (616, [407]); (617, [406]);
   (618, [42926]); (619, [11362]); (620, [42925]); (623, [412]);
   (625, [11374]); (626, [413]); (629, [415]); (637, [11364]); (640, [422]);
   (642, [42949]); (643, [425]); (647, [42929]); (648, [430]); (649, [580]);
   (650, [433]); (651, [434]); (652, [581]); (658, [439]); (669, [42930]);
   (670, [42928]); (837, [921]); (881, [880]); (883, [882]); (887, [886]);
   (891, [1021]); (892, [1022]); (893, [1023]); (912, [921; 776; 769]);
   (940, [902])].

Definition uppercase_3 : list (N * ustring) :=
  [(941, [904]); (942, [905]); (943, [906]); (944, [933; 776; 769]);
   (945, [913]); (946, [914]); (947, [915]); (948, [916]); (949, [917]);
   (950, [918]); (951, [919]); (952, [920]); (953, [921]); (954, [922]);
   (955, [923]); (956, [924]); (957, [925]); (958, [926]); (959, [927]);
   (960, [928]); (961, [929]); (962, [931]); (963, [931]); (964, [932]);
   (965, [933]); (966, [934]); (967, [935]); (968, [936]); (969, [937]);
   (970, [938]); (971, [939]); (972, [908]); (973, [910]); (974, [911]);
   (976, [914]); (977, [920]); (981, [934]); (982, [928]); (983, [975]);
   (985, [984]); (987, [986]); (989, [988]); (991, [990]); (993, [992]);
   (995, [994]); (997, [996]); (999, [998]); (1001, [1000]); (1003, [1002]);
   (1005, [1004]); (1007, [1006]); (1008, [922]); (1009, [929]);
   (1010, [1017]); (1011, [895]); (1013, [917]); (1016, [1015]);
   (1019, [1018]); (1072, [1040]); (1073, [1041]); (1074, [1042]);
   (1075, [1043]); (1076, [1044]); (1077, [1045]); (1078, [1046]);
   (1079, [1047]); (1080, [1048]); (1081, [1049]); (1082, [1050]);
   (1083, [1051]); (1084, [1052]); (1085, [1053]); (1086, [1054]);
   (1087, [1055]); (1088, [1056]); (1089, [1057]); (1090, [1058]);
   (1091, [1059]); (1092, [1060]); (1093, [1061]); (1094, [1062]);
   (1095, [1063]); (1096, [1064]); (1097, [1065]); (1098, [1066]);
   (1099, [1067]); (1100, [1068]); (1101, [1069]); (1102, [1070]);
   (1103, [1071]); (1104, [1024]); (1105, [1025]); (1106, [1026]);
   (1107, [1027]); (1108, [1028]); (1109, [1029]); (1110, [1030]);
   (1111, [1031]); (1112, [1032]); (1113, [1033]); (1114, [1034]);
   (1115, [1035]); (1116, [1036]); (1117, [1037]); (1118, [1038]);
   (1119, [1039]); (1121, [1120]); (1123, [1122]); (1125, [1124]);
   (1127, [1126]); (1129, [1128]); (1131, [1130]); (1133, [1132]);
   (1135, [1134]); (1137, [1136]); (1139, [1138]); (1141, [1140]);
   (1143, [1142]); (1145, [1144]); (1147, [1146]); (1149, [1148]);
   (1151, [1150]); (1153, [1152]); (1163, [1162]); (1165, [1164]);
   (1167, [1166]); (1169, [1168]); (1171, [1170])].

Definition uppercase_4 : list (N * ustring) :=
  [(1173, [1172]); (1175, [1174]); (1177, [1176]); (1179, [1178]);
   (1181, [1180]); (1183, [1182]); (1185, [1184]); (1187, [1186]);
   (1189, [1188]); (1191, [1190]); (1193, [1192]); (1195, [1194]);
   (1197, [1196]); (1199, [1198]); (1201, [1200]); (1203, [1202]);
   (1205, [1204]); (1207, [1206]); (1209, [1208]); (1211, [1210]);
   (1213, [1212]); (1215, [1214]); (1218, [1217]); (1220, [1219]);
   (1222, [1221]); (1224, [1223]); (1226, [1225]); (1228, [1227]);
   (1230, [1229]); (1231, [1216]); (1233, [1232]); (1235, [1234]);
   (1237, [1236]); (1239, [1238]); (1241, [1240]); (1243, [1242]);
   (1245, [1244]); (1247, [1246]); (1249, [1248]); (1251, [1250]);
   (1253, [1252]); (1255, [1254]); (1257, [1256]); (1259, [1258]);
   (1261, [1260]); (1263, [1262]); (1265, [1264]); (1267, [1266]);
   (1269, [1268]); (1271, [1270]); (1273, [1272]); (1275, [1274]);
   (1277, [1276]); (1279, [1278]); (1281, [1280]); (1283, [1282]);
   (1285, [1284]); (1287, [1286]); (1289, [1288]); (1291, [1290]);
   (1293, [1292]); (1295, [1294]); (1297, [1296]); (1299, [1298]);
   (1301, [1300]); (1303, [1302]); (1305, [1304]); (1307, [1306]);
   (1309, [1308]); (1311, [1310]); (1313, [1312]); (1315, [1314]);
   (1317, [1316]); (1319, [1318]); (1321, [1320]); (1323, [1322]);
   (1325, [1324]); (1327, [1326]); (1377, [1329]); (1378, [1330]);
   (1379, [1331]); (1380, [1332]); (1381, [1333]); (1382, [1334]);
   (1383, [1335]); (1384, [1336]); (1385, [1337]); (1386, [1338]);
   (1387, [1339]); (1388, [1340]); (1389, [1341]); (1390, [1342]);
   (1391, [1343]); (1392, [1344]); (1393, [1345]); (1394, [1346]);
   (1395, [1347]); (1396, [1348]); (1397, [1349]); (1398, [1350]);
   (1399, [1351]); (1400, [1352]); (1401, [1353]); (1402, [1354]);
   (1403, [1355]); (1404, [1356]); (1405, [1357]); (1406, [1358]);
   (1407, [1359]); (1408, [1360]); (1409, [1361]); (1410, [1362]);
   (1411, [1363]); (1412, [1364]); (1413, [1365]); (1414, [1366]);
   (1415, [1333; 1362]); (4304, [7312]); (4305, [7313]); (4306, [7314]);
   (4307, [7315]); (4308, [7316]); (4309, [7317]); (4310, [7318]);
   (4311, [7319]); (4312, [7320]); (4313, [7321]); (4314, [7322])].

Definition uppercase_5 : list (N * ustring) :=
  [(4315, [7323]); (4316, [7324]); (4317, [7325]); (4318, [7326]);
   (4319, [7327]); (4320, [7328]); (4321, [7329]); (4322, [7330]);
   (4323, [7331]); (4324, [7332]); (4325, [7333]); (4326, [7334]);
   (4327, [7335]); (4328, [7336]); (4329, [7337]); (4330, [7338]);
   (4331, [7339]); (4332, [7340]); (4333, [7341]); (4334, [7342]);
   (4335, [7343]); (4336, [7344]); (4337, [7345]); (4338, [7346]);
   (4339, [7347]); (4340, [7348]); (4341, [7349]); (4342, [7350]);
   (4343, [7351]); (4344, [7352]); (4345, [7353]); (4346, [7354]);
   (4349, [7357]); (4350, [7358]); (4351, [7359]); (5112, [5104]);
   (5113, [5105]); (5114, [5106]); (5115, [5107]); (5116, [5108]);
   (5117, [5109]); (7296, [1042]); (7297, [1044]); (7298, [1054]);
   (7299, [1057]); (7300, [1058]); (7301, [1058]); (7302, [1066]);
   (7303, [1122]); (7304, [42570]); (7545, [42877]); (7549, [11363]);
   (7566, [42950]); (7681, [7680]); (7683, [7682]); (7685, [7684]);
   (7687, [7686]); (7689, [7688]); (7691, [7690]); (7693, [7692]);
   (7695, [7694]); (7697, [7696]); (7699, [7698]); (7701, [7700]);
   (7703, [7702]); (7705, [7704]); (7707, [7706]); (7709, [7708]);
   (7711, [7710]); (7713, [7712]); (7715, [7714]); (7717, [7716]);
   (7719, [7718]); (7721, [7720]); (7723, [7722]); (7725, [7724]);
   (7727, [7726]); (7729, [7728]); (7731, [7730]); (7733, [7732]);
   (7735, [7734]); (7737, [7736]); (7739, [7738]); (7741, [7740]);
   (7743, [7742]); (7745, [7744]); (7747, [7746]); (7749, [7748]);
   (7751, [7750]); (7753, [7752]); (7755, [7754]); (7757, [7756]);
   (7759, [7758]); (7761, [7760]); (7763, [7762]); (7765, [7764]);
   (7767, [7766]); (7769, [7768]); (7771, [7770]); (7773, [7772]);
   (7775, [7774]); (7777, [7776]); (7779, [7778]); (7781, [7780]);
   (7783, [7782]); (7785, [7784]); (7787, [7786]); (7789, [7788]);
   (7791, [7790]); (7793, [7792]); (7795, [7794]); (7797, [7796]);
   (7799, [7798]); (7801, [7800]); (7803, [7802]); (7805, [7804]);
   (7807, [7806]); (7809, [7808]); (7811, [7810]); (7813, [7812]);
   (7815, [7814]); (7817, [7816]); (7819, [7818]); (7821, [7820]);
   (7823, [7822]); (7825, [7824]); (7827, [7826]); (7829, [7828])].

Definition uppercase_6 : list (N * ustring) :=
  [(7830, [72; 817]); (7831, [84; 776]); (7832, [87; 778]);
   (7833, [89; 778]); (7834, [65; 702]); (7835, [7776]); (7841, [7840]);
   (7843, [7842]); (7845, [7844]); (7847, [7846]); (7849, [7848]);
   (7851, [7850]); (7853, [7852]); (7855, [7854]); (7857, [7856]);
   (7859, [7858]); (7861, [7860]); (7863, [7862]); (7865, [7864]);
   (7867, [7866]); (7869, [7868]); (7871, [7870]); (7873, [7872]);
   (7875, [7874]); (7877, [7876]); (7879, [7878]); (7881, [7880]);
   (7883, [7882]); (7885, [7884]); (7887, [7886]); (7889, [7888]);
   (7891, [7890]); (7893, [7892]); (7895, [7894]); (7897, [7896]);
   (7899, [7898]); (7901, [7900]); (7903, [7902]); (7905, [7904]);
   (7907, [7906]); (7909, [7908]); (7911, [7910]); (7913, [7912]);
   (7915, [7914]); (7917, [7916]); (7919, [7918]); (7921, [7920]);
   (7923, [7922]); (7925, [7924]); (7927, [7926]); (7929, [7928]);
   (7931, [7930]); (7933, [7932]); (7935, [7934]); (7936, [7944]);
   (7937, [7945]); (7938, [7946]); (7939, [7947]); (7940, [7948]);
   (7941, [7949]); (7942, [7950]); (7943, [7951]); (7952, [7960]);
   (7953, [7961]); (7954, [7962]); (7955, [7963]); (7956, [7964]);
   (7957, [7965]); (7968, [7976]); (7969, [7977]); (7970, [7978]);
   (7971, [7979]); (7972, [7980]); (7973, [7981]); (7974, [7982]);
   (7975, [7983]); (7984, [7992]); (7985, [7993]); (7986, [7994]);
   (7987, [7995]); (7988, [7996]); (7989, [7997]); (7990, [7998]);
   (7991, [7999]); (8000, [8008]); (8001, [8009]); (8002, [8010]);
   (8003, [8011]); (8004, [8012]); (8005, [8013]); (8016, [933; 787]);
   (8017, [8025]); (8018, [933; 787; 768]); (8019, [8027]);
   (8020, [933; 787; 769]); (8021, [8029]); (8022, [933; 787; 834]);
   (8023, [8031]); (8032, [8040]); (8033, [8041]); (8034, [8042]);
   (8035, [8043]); (8036, [8044]); (8037, [8045]); (8038, [8046]);
   (8039, [8047]); (8048, [8122]); (8049, [8123]); (8050, [8136]);
   (8051, [8137]); (8052, [8138]); (8053, [8139]); (8054, [8154]);
   (8055, [8155]); (8056, [8184]); (8057, [8185]); (8058, [8170]);
   (8059, [8171]); (8060, [8186]); (8061, [8187]); (8064, [7944; 921]);
   (8065, [7945; 921]); (8066, [7946; 921]); (8067, [7947; 921]);
   (8068, [7948; 921]); (8069, [7949; 921]); (8070, [7950; 921]);
   (8071, [7951; 921])].

Definition uppercase_7 : list (N * ustring) :=
  [(8072, [7944; 921]); (8073, [7945; 921]); (8074, [7946; 921]);
   (8075, [7947; 921]); (8076, [7948; 921]); (8077, [7949; 921]);
   (8078, [7950; 921]); (8079, [7951; 921]); (8080, [7976; 921]);
   (8081, [7977; 921]); (8082, [7978; 921]); (8083, [7979; 921]);
   (8084, [7980; 921]); (8085, [7981; 921]); (8086, [7982; 921]);
   (8087, [7983; 921]); (8088, [7976; 921]); (8089, [7977; 921]);
   (8090, [7978; 921]); (8091, [7979; 921]); (8092, [7980; 921]);
   (8093, [7981; 921]); (8094, [7982; 921]); (8095, [7983; 921]);
   (8096, [8040; 921]); (8097, [8041; 921]); (8098, [8042; 921]);
   (8099, [8043; 921]); (8100, [8044; 921]); (8101, [8045; 921]);
   (8102, [8046; 921]); (8103, [8047; 921]); (8104, [8040; 921]);
   (8105, [8041; 921]); (8106, [8042; 921]); (8107, [8043; 921]);
   (8108, [8044; 921]); (8109, [8045; 921]); (8110, [8046; 921]);
   (8111, [8047; 921]); (8112, [8120]); (8113, [8121]); (8114, [8122; 921]);
   (8115, [913; 921]); (8116, [902; 921]); (8118, [913; 834]);
   (8119, [913; 834; 921]); (8124, [913; 921]); (8126, [921]);
   (8130, [8138; 921]); (8131, [919; 921]); (8132, [905; 921]);
   (8134, [919; 834]); (8135, [919; 834; 921]); (8140, [919; 921]);
   (8144, [8152]); (8145, [8153]); (8146, [921; 776; 768]);
   (8147, [921; 776; 769]); (8150, [921; 834]); (8151, [921; 776; 834]);
   (8160, [8168]); (8161, [8169]); (8162, [933; 776; 768]);
   (8163, [933; 776; 769]); (8164, [929; 787]); (8165, [8172]);
   (8166, [933; 834]); (8167, [933; 776; 834]); (8178, [8186; 921]);
   (8179, [937; 921]); (8180, [911; 921]); (8182, [937; 834]);
   (8183, [937; 834; 921]); (8188, [937; 921]); (8526, [8498]);
   (8560, [8544]); (8561, [8545]); (8562, [8546]); (8563, [8547]);
   (8564, [8548]); (8565, [8549]); (8566, [8550]); (8567, [8551]);
   (8568, [8552]); (8569, [8553]); (8570, [8554]); (8571, [8555]);
   (8572, [8556]); (8573, [8557]); (8574, [8558]); (8575, [8559]);
   (8580, [8579]); (9424, [9398]); (9425, [9399]); (9426, [9400]);
   (9427, [9401]); (9428, [9402]); (9429, [9403]); (9430, [9404]);
   (9431, [9405]); (9432, [9406]); (9433, [9407]); (9434, [9408]);
   (9435, [9409]); (9436, [9410]); (9437, [9411]); (9438, [9412]);
   (9439, [9413]); (9440, [9414]); (9441, [9415]); (9442, [9416]);
   (9443, [9417]); (9444, [9418]); (9445, [9419]); (9446, [9420]);
   (9447, [9421]); (9448, [9422]); (9449, [9423]); (11312, [11264]);
   (11313, [11265]); (11314, [11266]); (11315, [11267]); (11316, [11268]);
   (11317, [11269]); (11318, [11270]); (11319, [11271]); (11320, [11272])].

Definition uppercase_8 : list (N * ustring) :=
  [(11321, [11273]); (11322, [11274]); (11323, [11275]); (11324, [11276]);
   (11325, [11277]); (11326, [11278]); (11327, [11279]); (11328, [11280]);
   (11329, [11281]); (11330, [11282]); (11331, [11283]); (11332, [11284]);
   (11333, [11285]); (11334, [11286]); (11335, [11287]); (11336, [11288]);
   (11337, [11289]); (11338, [11290]); (11339, [11291]); (11340, [11292]);
   (11341, [11293]); (11342, [11294]); (11343, [11295]); (11344, [11296]);
   (11345, [11297]); (11346, [11298]); (11347, [11299]); (11348, [11300]);
   (11349, [11301]); (11350, [11302]); (11351, [11303]); (11352, [11304]);
   (11353, [11305]); (11354, [11306]); (11355, [11307]); (11356, [11308]);
   (11357, [11309]); (11358, [11310]); (11359, [11311]); (11361, [11360]);
   (11365, [570]); (11366, [574]); (11368, [11367]); (11370, [11369]);
   (11372, [11371]); (11379, [11378]); (11382, [11381]); (11393, [11392]);
   (11395, [11394]); (11397, [11396]); (11399, [11398]); (11401, [11400]);
   (11403, [11402]); (11405, [11404]); (11407, [11406]); (11409, [11408]);
   (11411, [11410]); (11413, [11412]); (11415, [11414]); (11417, [11416]);
   (11419, [11418]); (11421, [11420]); (11423, [11422]); (11425, [11424]);
   (11427, [11426]); (11429, [11428]); (11431, [11430]); (11433, [11432]);
   (11435, [11434]); (11437, [11436]); (11439, [11438]); (11441, [11440]);
   (11443, [11442]); (11445, [11444]); (11447, [11446]); (11449, [11448]);
   (11451, [11450]); (11453, [11452]); (11455, [11454]); (11457, [11456]);
   (11459, [11458]); (11461, [11460]); (11463, [11462]); (11465, [11464]);
   (11467, [11466]); (11469, [11468]); (11471, [11470]); (11473, [11472]);
   (11475, [11474]); (11477, [11476]); (11479, [11478]); (11481, [11480]);
   (11483, [11482]); (11485, [11484]); (11487, [11486]); (11489, [11488]);
   (11491, [11490]); (11500, [11499]); (11502, [11501]); (11507, [11506]);
   (11520, [4256]); (11521, [4257]); (11522, [4258]); (11523, [4259]);
   (11524, [4260]); (11525, [4261]); (11526, [4262]); (11527, [4263]);
   (11528, [4264]); (11529, [4265]); (11530, [4266]); (11531, [4267]);
   (11532, [4268]); (11533, [4269]); (11534, [4270]); (11535, [4271]);
   (11536, [4272]); (11537, [4273]); (11538, [4274]); (11539, [4275]);
   (11540, [4276]); (11541, [4277]); (11542, [4278]); (11543, [4279]);
   (11544, [4280]); (11545, [4281]); (11546, [4282]); (11547, [4283])].

Definition uppercase_9 : list (N * ustring) :=
  [(11548, [4284]); (11549, [4285]); (11550, [4286]); (11551, [4287]);
   (11552, [4288]); (11553, [4289]); (11554, [4290]); (11555, [4291]);
   (11556, [4292]); (11557, [4293]); (11559, [4295]); (11565, [4301]);
   (42561, [42560]); (42563, [42562]); (42565, [42564]); (42567, [42566]);
   (42569, [42568]); (42571, [42570]); (42573, [42572]); (42575, [42574]);
   (42577, [42576]); (42579, [42578]); (42581, [42580]); (42583, [42582]);
   (42585, [42584]); (42587, [42586]); (42589, [42588]); (42591, [42590]);
   (42593, [42592]); (42595, [42594]); (42597, [42596]); (42599, [42598]);
   (42601, [42600]); (42603, [42602]); (42605, [42604]); (42625, [42624]);
   (42627, [42626]); (42629, [42628]); (42631, [42630]); (42633, [42632]);
   (42635, [42634]); (42637, [42636]); (42639, [42638]); (42641, [42640]);
   (42643, [42642]); (42645, [42644]); (42647, [42646]); (42649, [42648]);
   (42651, [42650]); (42787, [42786]); (42789, [42788]); (42791, [42790]);
   (42793, [42792]); (42795, [42794]); (42797, [42796]); (42799, [42798]);
   (42803, [42802]); (42805, [42804]); (42807, [42806]); (42809, [42808]);
   (42811, [42810]); (42813, [42812]); (42815, [42814]); (42817, [42816]);
   (42819, [42818]); (42821, [42820]); (42823, [42822]); (42825, [42824]);
   (42827, [42826]); (42829, [42828]); (42831, [42830]); (42833, [42832]);
   (42835, [42834]); (42837, [42836]); (42839, [42838]); (42841, [42840]);
   (42843, [42842]); (42845, [42844]); (42847, [42846]); (42849, [42848]);
   (42851, [42850]); (42853, [42852]); (42855, [42854]); (42857, [42856]);
   (42859, [42858]); (42861, [42860]); (42863, [42862]); (42874, [42873]);
   (42876, [42875]); (42879, [42878]); (42881, [42880]); (42883, [42882]);
   (42885, [42884]); (42887, [42886]); (42892, [42891]); (42897, [42896]);
   (42899, [42898]); (42900, [42948]); (42903, [42902]); (42905, [42904]);
   (42907, [42906]); (42909, [42908]); (42911, [42910]); (42913, [42912]);
   (42915, [42914]); (42917, [42916]); (42919, [42918]); (42921, [42920]);
   (42933, [42932]); (42935, [42934]); (42937, [42936]); (42939, [42938]);
   (42941, [42940]); (42943, [42942]); (42945, [42944]); (42947, [42946]);
   (42952, [42951]); (42954, [42953]); (42961, [42960]); (42967, [42966]);
   (42969, [42968]); (42998, [42997]); (43859, [42931]); (43888, [5024]);
   (43889, [5025]); (43890, [5026]); (43891, [5027]); (43892, [5028])].

Definition uppercase_10 : list (N * ustring) :=
  [(43893, [5029]); (43894, [5030]); (43895, [5031]); (43896, [5032]);
   (43897, [5033]); (43898, [5034]); (43899, [5035]); (43900, [5036]);
   (43901, [5037]); (43902, [5038]); (43903, [5039]); (43904, [5040]);
   (43905, [5041]); (43906, [5042]); (43907, [5043]); (43908, [5044]);
   (43909, [5045]); (43910, [5046]); (43911, [5047]); (43912, [5048]);
   (43913, [5049]); (43914, [5050]); (43915, [5051]); (43916, [5052]);
   (43917, [5053]); (43918, [5054]); (43919, [5055]); (43920, [5056]);
   (43921, [5057]); (43922, [5058]); (43923, [5059]); (43924, [5060]);
   (43925, [5061]); (43926, [5062]); (43927, [5063]); (43928, [5064]);
   (43929, [5065]); (43930, [5066]); (43931, [5067]); (43932, [5068]);
   (43933, [5069]); (43934, [5070]); (43935, [5071]); (43936, [5072]);
   (43937, [5073]); (43938, [5074]); (43939, [5075]); (43940, [5076]);
   (43941, [5077]); (43942, [5078]); (43943, [5079]); (43944, [5080]);
   (43945, [5081]); (43946, [5082]); (43947, [5083]); (43948, [5084]);
   (43949, [5085]); (43950, [5086]); (43951, [5087]); (43952, [5088]);
   (43953, [5089]); (43954, [5090]); (43955, [5091]); (43956, [5092]);
   (43957, [5093]); (43958, [5094]); (43959, [5095]); (43960, [5096]);
   (43961, [5097]); (43962, [5098]); (43963, [5099]); (43964, [5100]);
   (43965, [5101]); (43966, [5102]); (43967, [5103]); (64256, [70; 70]);
   (64257, [70; 73]); (64258, [70; 76]); (64259, [70; 70; 73]);
   (64260, [70; 70; 76]); (64261, [83; 84]); (64262, [83; 84]);
   (64275, [1348; 1350]); (64276, [1348; 1333]); (64277, [1348; 1339]);
   (64278, [1358; 1350]); (64279, [1348; 1341]); (65345, [65313]);
   (65346, [65314]); (65347, [65315]); (65348, [65316]); (65349, [65317]);
   (65350, [65318]); (65351, [65319]); (65352, [65320]); (65353, [65321]);
   (65354, [65322]); (65355, [65323]); (65356, [65324]); (65357, [65325]);
   (65358, [65326]); (65359, [65327]); (65360, [65328]); (65361, [65329]);
   (65362, [65330]); (65363, [65331]); (65364, [65332]); (65365, [65333]);
   (65366, [65334]); (65367, [65335]); (65368, [65336]); (65369, [65337]);
   (65370, [65338]); (66600, [66560]); (66601, [66561]); (66602, [66562]);
   (66603, [66563]); (66604, [66564]); (66605, [66565]); (66606, [66566]);
   (66607, [66567]); (66608, [66568]); (66609, [66569]); (66610, [66570]);
   (66611, [66571]); (66612, [66572]); (66613, [66573]); (66614, [66574])].

Definition uppercase_11 : list (N * ustring) :=
  [(66615, [66575]); (66616, [66576]); (66617, [66577]); (66618, [66578]);
   (66619, [66579]); (66620, [66580]); (66621, [66581]); (66622, [66582]);
   (66623, [66583]); (66624, [66584]); (66625, [66585]); (66626, [66586]);
   (66627, [66587]); (66628, [66588]); (66629, [66589]); (66630, [66590]);
   (66631, [66591]); (66632, [66592]); (66633, [66593]); (66634, [66594]);
   (66635, [66595]); (66636, [66596]); (66637, [66597]); (66638, [66598]);
   (66639, [66599]); (66776, [66736]); (66777, [66737]); (66778, [66738]);
   (66779, [66739]); (66780, [66740]); (66781, [66741]); (66782, [66742]);
   (66783, [66743]); (66784, [66744]); (66785, [66745]); (66786, [66746]);
   (66787, [66747]); (66788, [66748]); (66789, [66749]); (66790, [66750]);
   (66791, [66751]); (66792, [66752]); (66793, [66753]); (66794, [66754]);
   (66795, [66755]); (66796, [66756]); (66797, [66757]); (66798, [66758]);
   (66799, [66759]); (66800, [66760]); (66801, [66761]); (66802, [66762]);
   (66803, [66763]); (66804, [66764]); (66805, [66765]); (66806, [66766]);
   (66807, [66767]); (66808, [66768]); (66809, [66769]); (66810, [66770]);
   (66811, [66771]); (66967, [66928]); (66968, [66929]); (66969, [66930]);
   (66970, [66931]); (66971, [66932]); (66972, [66933]); (66973, [66934]);
   (66974, [66935]); (66975, [66936]); (66976, [66937]); (66977, [66938]);
   (66979, [66940]); (66980, [66941]); (66981, [66942]); (66982, [66943]);
   (66983, [66944]); (66984, [66945]); (66985, [66946]); (66986, [66947]);
   (66987, [66948]); (66988, [66949]); (66989, [66950]); (66990, [66951]);
   (66991, [66952]); (66992, [66953]); (66993, [66954]); (66995, [66956]);
   (66996, [66957]); (66997, [66958]); (66998, [66959]); (66999, [66960]);
   (67000, [66961]); (67001, [66962]); (67003, [66964]); (67004, [66965]);
   (68800, [68736]); (68801, [68737]); (68802, [68738]); (68803, [68739]);
   (68804, [68740]); (68805, [68741]); (68806, [68742]); (68807, [68743]);
   (68808, [68744]); (68809, [68745]); (68810, [68746]); (68811, [68747]);
   (68812, [68748]); (68813, [68749]); (68814, [68750]); (68815, [68751]);
   (68816, [68752]); (68817, [68753]); (68818, [68754]); (68819, [68755]);
   (68820, [68756]); (68821, [68757]); (68822, [68758]); (68823, [68759]);
   (68824, [68760]); (68825, [68761]); (68826, [68762]); (68827, [68763]);
   (68828, [68764]); (68829, [68765]); (68830, [68766]); (68831, [68767])].

Definition uppercase_12 : list (N * ustring) :=
  [(68832, [68768]); (68833, [68769]); (68834, [68770]); (68835, [68771]);
   (68836, [68772]); (68837, [68773]); (68838, [68774]); (68839, [68775]);
   (68840, [68776]); (68841, [68777]); (68842, [68778]); (68843, [68779]);
   (68844, [68780]); (68845, [68781]); (68846, [68782]); (68847, [68783]);
   (68848, [68784]); (68849, [68785]); (68850, [68786]); (71872, [71840]);
   (71873, [71841]); (71874, [71842]); (71875, [71843]); (71876, [71844]);
   (71877, [71845]); (71878, [71846]); (71879, [71847]); (71880, [71848]);
   (71881, [71849]); (71882, [71850]); (71883, [71851]); (71884, [71852]);
   (71885, [71853]); (71886, [71854]); (71887, [71855]); (71888, [71856]);
   (71889, [71857]); (71890, [71858]); (71891, [71859]); (71892, [71860]);
   (71893, [71861]); (71894, [71862]); (71895, [71863]); (71896, [71864]);
   (71897, [71865]); (71898, [71866]); (71899, [71867]); (71900, [71868]);
   (71901, [71869]); (71902, [71870]); (71903, [71871]); (93792, [93760]);
   (93793, [93761]); (93794, [93762]); (93795, [93763]); (93796, [93764]);
   (93797, [93765]); (93798, [93766]); (93799, [93767]); (93800, [93768]);
   (93801, [93769]); (93802, [93770]); (93803, [93771]); (93804, [93772]);
   (93805, [93773]); (93806, [93774]); (93807, [93775]); (93808, [93776]);
   (93809, [93777]); (93810, [93778]); (93811, [93779]); (93812, [93780]);
   (93813, [93781]); (93814, [93782]); (93815, [93783]); (93816, [93784]);
   (93817, [93785]); (93818, [93786]); (93819, [93787]); (93820, [93788]);
   (93821, [93789]); (93822, [93790]); (93823, [93791]); (125218, [125184]);
   (125219, [125185]); (125220, [125186]); (125221, [125187]);
   (125222, [125188]); (125223, [125189]); (125224, [125190]);
   (125225, [125191]); (125226, [125192]); (125227, [125193]);
   (125228, [125194]); (125229, [125195]); (125230, [125196]);
   (125231, [125197]); (125232, [125198]); (125233, [125199]);
   (125234, [125200]); (125235, [125201]); (125236, [125202]);
   (125237, [125203]); (125238, [125204]); (125239, [125205]);
   (125240, [125206]); (125241, [125207]); (125242, [125208]);
   (125243, [125209]); (125244, [125210]); (125245, [125211]);
   (125246, [125212]); (125247, [125213]); (125248, [125214]);
   (125249, [125215]); (125250, [125216]); (125251, [125217])].

Definition uppercase : list (N * ustring) :=
  uppercase_1 ++ uppercase_2 ++ uppercase_3 ++ uppercase_4 ++ uppercase_5 ++
  uppercase_6 ++ uppercase_7 ++ uppercase_8 ++ uppercase_9 ++ uppercase_10 ++
  uppercase_11 ++ uppercase_12.

Fixpoint assoc (c : N) (table : list (N * ustring)) : option ustring :=
  match table with
  | [] => None
  | (k, v) :: table' => if k =? c then Some v else assoc c table'
  end.

Definition to_upper (c : N) : ustring := default [c] (assoc c uppercase).

(** [s.upper()] *)
Fixpoint upper (s : ustring) : ustring :=
  match s with
  | [] => []
  | c :: s' => to_upper c ++ upper s'
  end.

(** [s.lstrip()], [s.rstrip()] and [s.strip()] without arguments. *)
Fixpoint lstrip (s : ustring) : ustring :=
  match s with
  | [] => []
  | c :: s' => if is_space c then lstrip s' else s
  end.

Fixpoint rstrip (s : ustring) : ustring :=
  match s with
  | [] => []
  | c :: s' =>
      match rstrip s' with
      | [] => if is_space c then [] else [c]
      | r => c :: r
      end
  end.

Definition strip (s : ustring) : ustring := rstrip (lstrip s).

Definition is_empty (s : ustring) : bool :=
  match s with [] => true | _ => false end.

(** [s.zfill(width)]: the width counts characters. *)
Definition zfill (width : nat) (s : ustring) : ustring :=
  let n := length s in
  if (width <=? n)%nat then s
  else
    let pad := replicate (width - n) 48 in
    match s with
    | c :: rest => if is_sign c then c :: pad ++ rest else pad ++ s
    | [] => pad
    end.

(** The backtracking matcher of [Regex], on code points. *)
Fixpoint greedy_splits (p : N → bool) (s : ustring) : list (ustring * ustring) :=
  match s with
  | [] => [([], [])]
  | c :: s' =>
      if p c
      then (prod_map (cons c) id <$> greedy_splits p s') ++ [([], s)]
      else [([], s)]
  end.

Definition match_digits (s : ustring) : option ustring :=
  Regex.first_match
    (λ '(digits, rest),
       if is_empty digits then None
       else if is_empty rest then Some digits else None)
    (greedy_splits is_digit s).

Definition match_zeros_digits (s : ustring) : option ustring :=
  Regex.first_match (λ '(_, rest), match_digits rest) (greedy_splits is_zero s).

(** [re.fullmatch(r"([A-Z]+)0*(\d+)", token)] with [match.groups()]. *)
Definition fullmatch_position (token : ustring) : option (ustring * ustring) :=
  Regex.first_match
    (λ '(letters, rest),
       if is_empty letters then None
       else digits ← match_zeros_digits rest; Some (letters, digits))
    (greedy_splits is_upper token).

(** [normalize_position(raw)] for a [str] argument. *)
Definition normalize_position (raw : ustring) : ustring :=
  let token := upper (strip raw) in
  match fullmatch_position token with
  | None => token
  | Some (row_letters, column_digits) => row_letters ++ zfill 2 column_digits
  end.

(** The code points of a string of the ASCII model. *)
Fixpoint of_string (s : string) : ustring :=
  match s with
  | EmptyString => []
  | String c s' => PyStr.code c :: of_string s'
  end.

End Unicode.

(** ** JSON values as Python objects *)

(** What [json.loads] builds: [None], [bool], [int], [float], [str], [list]
    and [dict] (string keys, insertion order). *)
#[warnings="-register-all"]
Inductive json : Type :=
| JNull
| JBool (b : bool)
| JInt (n : Z)
| JFloat (f : spec_float)
| JStr (s : string)
| JList (items : list json)
| JDict (fields : list (string * json)).

Abbreviation pydict := (list (string * json)).

(** [d[k]] as an option ([None] when [k not in d]). *)
Fixpoint dict_get (k : string) (d : pydict) : option json :=
  match d with
  | [] => None
  | (k', v) :: d' => if decide (k' = k) then Some v else dict_get k d'
  end.

(** [d.get(k, dflt)] and [d.get(k)]. *)
Definition py_get_default (k : string) (dflt : json) (d : pydict) : json :=
  default dflt (dict_get k d).
Definition py_get (k : string) (d : pydict) : json := py_get_default k JNull d.

(** [d.values()] *)
Definition dict_values (d : pydict) : list json := d.*2.

(** Truth value testing, [bool(v)]. *)
Definition py_truthy (v : json) : bool :=
  match v with
  | JNull => false
  | JBool b => b
  | JInt n => negb (n =? 0)
  | JFloat (S754_zero _) => false
  | JFloat _ => true
  | JStr s => negb (PyStr.is_empty s)
  | JList items => match items with [] => false | _ => true end
  | JDict fields => match fields with [] => false | _ => true end
  end.

(** [f == n] for a float and an integer: exact comparison of the values. *)
Definition float_eq_int (f : spec_float) (n : Z) : bool :=
  match f with
  | S754_zero _ => n =? 0
  | S754_finite s m e =>
      let v := if s then Z.neg m else Z.pos m in
      if 0 <=? e then v * 2 ^ e =? n else v =? n * 2 ^ (- e)
  | _ => false
  end.

(** [v == n] for an integer literal [n]; [True == 1] and [2.0 == 2] hold. *)
Definition py_eq_int (v : json) (n : Z) : bool :=
  match v with
  | JBool b => (if b then 1 else 0) =? n
  | JInt m => m =? n
  | JFloat f => float_eq_int f n
  | _ => false
  end.

(** [a or b] *)
Definition py_or (a b : json) : json := if py_truthy a then a else b.

(** [str(v)].  Strings, [None], booleans and integers are printed here; the
    text of a float, list or dict is left to [repr]. *)
Definition py_str (repr : json → string) (v : json) : string :=
  match v with
  | JStr s => s
  | JNull => "None"
  | JBool true => "True"
  | JBool false => "False"
  | JInt n => pretty n
  | _ => repr v
  end.

Fixpoint json_size (v : json) : nat :=
  match v with
  | JList items => S (sum_list_with json_size items)
  | JDict fields => S (sum_list_with (λ kv, json_size kv.2) fields)
  | _ => 1%nat
  end.

(** ** Exceptions *)

Inductive failure : Type :=
| PositionIsNone
| FewerThanTwoColumns (idx : nat) (row : list string)
| MissingPosition (idx : nat)
| DuplicatePosition (position old new : string)
| NoUsableData
| NoRackId
| NoWellEntries
| InvalidCurlJson
| BadHelpText.

(** Exceptions other than the script's own class. *)
Inductive builtin_exn : Type :=
| ValueError (why : failure)
| RuntimeError (msg : string)
| ConnectionError (msg : string)
| AttributeError
| OtherException (class : string).

(** [RackMismatchError] is the one exception class the script declares. *)
Inductive exn : Type :=
| Builtin (e : builtin_exn)
| RackMismatchError (scanned expected : string).

Definition result (A : Type) : Type := exn + A.
Definition Ok {A} (x : A) : result A := inr x.
Definition Raise {A} (e : exn) : result A := inl e.
Definition raise_builtin {A} (e : builtin_exn) : result A := inl (Builtin e).

Definition bind {A B} (r : result A) (k : A → result B) : result B :=
  match r with
  | inl e => inl e
  | inr x => k x
  end.

Notation "x <~ e ;; k" := (bind e (λ x, k))
  (at level 100, e at next level, k at level 200, right associativity).

Definition raised {A} (r : result A) : Prop := ∃ e, r = inl e.

(** ** Layout loader *)

(** What opening the CSV and iterating [csv.reader] delivers: the open may
    fail; otherwise rows arrive one by one, possibly ended by an error of the
    reader. *)
Inductive csv_file : Type :=
| CsvUnreadable (e : builtin_exn)
| CsvRows (rows : list (list string)) (broken : option builtin_exn).

Abbreviation layout_t := (list (string * string)).

(** The [for idx, row in enumerate(reader, start=1)] loop with its two
    variables [seen] and [entries]. *)
Fixpoint layout_loop (idx : nat) (rows : list (list string))
    (seen : gmap string string) (entries : layout_t)
    : result (gmap string string * layout_t) :=
  match rows with
  | [] => Ok (seen, entries)
  | row :: rest =>
      match row with
      | [] => layout_loop (S idx) rest seen entries
      | [_] => raise_builtin (ValueError (FewerThanTwoColumns idx row))
      | c0 :: c1 :: _ =>
          let position_raw := PyStr.strip c0 in
          let sample_id := PyStr.strip c1 in
          if PyStr.is_empty position_raw
          then raise_builtin (ValueError (MissingPosition idx))
          else
            let normalized := normalize_position position_raw in
            match seen !! normalized with
            | Some old =>
                if decide (old ≠ sample_id)
                then raise_builtin
                       (ValueError (DuplicatePosition normalized old sample_id))
                else layout_loop (S idx) rest (<[normalized := sample_id]> seen)
                       (entries ++ [(normalized, sample_id)])
            | None =>
                layout_loop (S idx) rest (<[normalized := sample_id]> seen)
                  (entries ++ [(normalized, sample_id)])
            end
      end
  end.

Definition read_layout (file : csv_file) : result layout_t :=
  match file with
  | CsvUnreadable e => raise_builtin e
  | CsvRows rows broken =>
      final <~ layout_loop 1 rows ∅ [] ;;
      let entries := final.2 in
      match broken with
      | Some e => raise_builtin e
      | None =>
          match entries with
          | [] => raise_builtin (ValueError NoUsableData)
          | _ => Ok entries
          end
      end
  end.

(** ** Payload tree walker *)

(** ["decode" in current and isinstance(current["decode"], dict)] *)
Definition has_decode (fields : pydict) : bool :=
  match dict_get "decode" fields with
  | Some (JDict _) => true
  | _ => false
  end.

(** The [while stack] loop.  The Python list [stack] is kept with its last
    element first, so [stack.pop()] takes the head and [stack.extend(xs)]
    puts the reversed [xs] in front.  [fuel] bounds the iterations. *)
Fixpoint walk (fuel : nat) (stack : list json) : list json :=
  match fuel, stack with
  | S fuel', current :: rest =>
      match current with
      | JDict fields =>
          if has_decode fields
          then current :: walk fuel' (reverse (dict_values fields) ++ rest)
          else walk fuel' (reverse (dict_values fields) ++ rest)
      | JList items => walk fuel' (reverse items ++ rest)
      | _ => walk fuel' rest
      end
  | _, _ => []
  end.

(** [list(iter_decode_items(node))]: every node is popped once, so
    [json_size node] iterations empty the stack. *)
Definition iter_decode_items (node : json) : list json :=
  walk (json_size node) [node].

(** ** Scanner result extractor *)

(** The record stored per well: a dict with the keys ["result"], ["hasTube"]
    and ["passed"]. *)
Definition well_entry (result : string) (hasTube passed : bool) : pydict :=
  [("result", JStr result); ("hasTube", JBool hasTube); ("passed", JBool passed)].

Abbreviation wells_t := (gmap string pydict).

Section Extractor.
(** [str] of a float, list or dict; see [py_str]. *)
Variable repr : json → string.

(** One iteration of [for item in iter_decode_items(payload)] on the
    variables [rack_id] and [wells].  Calling [.get] on a value that is not
    a dict raises [AttributeError]. *)
Definition extract_step (st : option string * wells_t) (item : json)
    : result (option string * wells_t) :=
  let '(rack_id, wells) := st in
  match item with
  | JDict fields =>
      let item_type := py_get "itemType" fields in
      match py_or (py_get "decode" fields) (JDict []) with
      | JDict decode =>
          let result := py_get "result" decode in
          if negb (py_truthy result) then Ok st
          else if py_eq_int item_type 2 && bool_decide (rack_id = None)
          then Ok (Some (PyStr.strip (py_str repr result)), wells)
          else if py_eq_int item_type 1 then
            let position_raw :=
              PyStr.strip (py_str repr (py_or (py_get "id" fields) (JStr ""))) in
            if PyStr.is_empty position_raw then Ok st
            else
              let normalized := normalize_position position_raw in
              Ok (rack_id,
                  <[normalized :=
                      well_entry
                        (PyStr.strip (py_str repr result))
                        (py_truthy (py_get_default "hasTube" (JBool false) decode))
                        (py_truthy (py_get_default "passed" (JBool false) decode))]>
                    wells)
          else Ok st
      | _ => raise_builtin AttributeError
      end
  | _ => raise_builtin AttributeError
  end.

Fixpoint extract_loop (items : list json) (st : option string * wells_t)
    : result (option string * wells_t) :=
  match items with
  | [] => Ok st
  | item :: rest => st' <~ extract_step st item ;; extract_loop rest st'
  end.

Definition extract_scanner_results (payload : json) : result (string * wells_t) :=
  st <~ extract_loop (iter_decode_items payload) (None, ∅) ;;
  match st.1 with
  | None => raise_builtin (ValueError NoRackId)
  | Some rack_id =>
      if decide (size st.2 = 0%nat)
      then raise_builtin (ValueError NoWellEntries)
      else Ok (rack_id, st.2)
  end.

End Extractor.

(** ** Reconciler *)

(** [sep.join(l)] *)
Fixpoint join (sep : string) (l : list string) : string :=
  match l with
  | [] => ""
  | [x] => x
  | x :: l' => x +:+ sep +:+ join sep l'
  end.

(** An output row: (Position, SampleID, ScannerResult, Status). *)
Abbreviation row_t := (string * string * json * string)%type.

Definition status_flags (scanner_entry : pydict) : list string :=
  (if py_truthy (py_get_default "hasTube" (JBool false) scanner_entry)
   then [] else ["empty"])
  ++ (if py_truthy (py_get_default "passed" (JBool false) scanner_entry)
      then [] else ["decode_failed"]).

Definition output_row (scanner_data : wells_t) (entry : string * string) : row_t :=
  let '(position, sample_id) := entry in
  match scanner_data !! position with
  | None => (position, sample_id, JStr "", "no_scan")
  | Some [] => (position, sample_id, JStr "", "no_scan")
  | Some scanner_entry =>
      let flags := status_flags scanner_entry in
      let status := match flags with [] => "ok" | _ => join "," flags end in
      (position, sample_id, py_get_default "result" (JStr "") scanner_entry, status)
  end.

Definition build_output_rows (layout : layout_t) (scanner_data : wells_t)
    : list row_t :=
  output_row scanner_data <$> layout.

Definition row_status (r : row_t) : string := r.2.
Definition row_position (r : row_t) : string := r.1.1.1.

(** ** Files, command line and the run *)

(** A [pathlib.Path], split into the directory, the stem and the suffix of
    its last component. *)
Record path : Type := Path { parent : string; stem : string; suffix : string }.

Global Instance path_eq_dec : EqDecision path.
Proof. solve_decision. Defined.
Global Instance path_countable : Countable path.
Proof.
  apply (inj_countable' (λ p, (parent p, stem p, suffix p))
                        (λ t, Path t.1.1 t.1.2 t.2)).
  by intros [].
Defined.

(** [p.with_name(f"{p.stem}_paired.csv")] *)
Definition paired_path (p : path) : path :=
  {| parent := parent p; stem := stem p +:+ "_paired"; suffix := ".csv" |}.

(** The namespace built by [parse_args]. *)
Record args : Type := Args {
  csv_path : path;
  output : option path;
  url : string;
  json_file : option path;
  trust_env_proxies : bool;
  backend : string
}.

(** [ArgumentParser.parse_args] returns the namespace, or leaves through
    [SystemExit] with status 2 after a usage error (for instance when the
    positional [csv_path] is missing), or is asked for the help.  Formatting
    the help %-expands the help text of [--url], which holds the default URL
    with its "%2096)": that raises [ValueError], so the help is never
    printed. *)
Inductive cli : Type :=
| Parsed (a : args)
| HelpRequested
| UsageError.

(** The content of a CSV file written by [csv.writer]: rows of cells. *)
Abbreviation files := (gmap path (list (list json))).

(** How writing the output goes: fine, the open fails, or an error occurs
    after [written] rows. *)
Inductive write_fault : Type :=
| NoFault
| OpenFails (e : builtin_exn)
| WriteFails (written : nat) (e : builtin_exn).

(** Everything a run takes from outside.  [warning_print] and
    [report_print] say how the two [print] calls at the end of [main] go:
    [None] when the text is printed, [Some e] when the call raises [e] (a
    closed or broken stream). *)
Record world : Type := World {
  command_line : cli;
  open_csv : path → csv_file;
  load_json_file : path → builtin_exn + json;
  transport : string → builtin_exn + json;
  output_fault : write_fault;
  warning_print : option builtin_exn;
  report_print : option builtin_exn
}.

(** Exceptions as seen by the [__main__] block: [SystemExit] is not an
    [Exception]. *)
Inductive signal : Type :=
| Exn (e : exn)
| SystemExit (code : Z).

(** Computations on the files that may leave through a signal. *)
Definition prog (A : Type) : Type := files → (signal + A) * files.

Definition ret {A} (x : A) : prog A := λ fs, (inr x, fs).
Definition throw {A} (s : signal) : prog A := λ fs, (inl s, fs).
Definition lift {A} (r : result A) : prog A :=
  match r with
  | inl e => throw (Exn e)
  | inr x => ret x
  end.
Definition prog_bind {A B} (m : prog A) (k : A → prog B) : prog B :=
  λ fs, match m fs with
        | (inl s, fs') => (inl s, fs')
        | (inr x, fs') => k x fs'
        end.

Notation "x <- e ;; k" := (prog_bind e (λ x, k))
  (at level 100, e at next level, k at level 200, right associativity).

Definition parse_args (w : world) : prog args :=
  match command_line w with
  | Parsed a => ret a
  | HelpRequested => throw (Exn (Builtin (ValueError BadHelpText)))
  | UsageError => throw (SystemExit 2)
  end.

Definition _resolve_backends (backend : string) : list string :=
  if decide (backend = "auto") then ["requests"; "urllib"; "curl"] else [backend].

(** The loop of [fetch_payload]; [transport w method] is the outcome of
    [_fetch_via_<method>] for the url, timeout and proxy setting of the run. *)
Fixpoint fetch_loop (w : world) (methods : list string) (errors : list builtin_exn)
    : result json :=
  match methods with
  | [] =>
      match last errors with
      | Some e => raise_builtin e
      | None => raise_builtin (RuntimeError "No HTTP backend is configured")
      end
  | method :: rest =>
      if bool_decide (method = "requests" ∨ method = "urllib" ∨ method = "curl")
      then match transport w method with
           | inr payload => Ok payload
           | inl e => fetch_loop w rest (errors ++ [e])
           end
      else fetch_loop w rest errors
  end.

Definition fetch_payload (w : world) (backend : string) : result json :=
  fetch_loop w (_resolve_backends backend) [].

Definition csv_header : list json :=
  [JStr "Position"; JStr "SampleID"; JStr "ScannerResult"; JStr "Status"].

Definition row_cells (r : row_t) : list json :=
  let '(position, sample_id, scanner_result, status) := r in
  [JStr position; JStr sample_id; scanner_result; JStr status].

(** [write_output]: opening with mode ["w"] truncates the file, then the
    header and the rows are written.  A file is identified by its path:
    links between paths are not modelled, so nothing here says which other
    paths show the new content. *)
Definition write_output (w : world) (rows : list row_t) (output_path : path)
    : prog unit :=
  λ fs,
    let content := csv_header :: (row_cells <$> rows) in
    match output_fault w with
    | NoFault => (inr (), <[output_path := content]> fs)
    | OpenFails e => (inl (Exn (Builtin e)), fs)
    | WriteFails written e =>
        (inl (Exn (Builtin e)), <[output_path := take written content]> fs)
    end.

(** A [print] call at the end of [main]. *)
Definition print (outcome : option builtin_exn) : prog unit :=
  match outcome with
  | None => ret ()
  | Some e => throw (Exn (Builtin e))
  end.

(** The positions listed in the warning of [main]:
    [sorted(set(scanner_wells.keys()) - {pos for pos, _ in layout})]. *)
Definition extra_positions (layout : layout_t) (scanner_wells : wells_t)
    : list string :=
  merge_sort String.le
    (elements (dom scanner_wells ∖ (list_to_set layout.*1 : gset string))).

Section Main.
Variable repr : json → string.

(** The payload: from [--json-file] when given, from the reader otherwise. *)
Definition load_payload (w : world) (a : args) : result json :=
  match json_file a with
  | Some f =>
      match load_json_file w f with
      | inl e => raise_builtin e
      | inr payload => Ok payload
      end
  | None => fetch_payload w (backend a)
  end.

(** [main()].  The text of the messages is not modelled, only whether the
    two [print] calls after [write_output] raise; the warning is printed
    when there are extra positions. *)
Definition main (w : world) : prog Z :=
  a <- parse_args w ;;
  layout <- lift (read_layout (open_csv w (csv_path a))) ;;
  payload <- lift (load_payload w a) ;;
  scan <- lift (extract_scanner_results repr payload) ;;
  let rack_id := scan.1 in
  let scanner_wells := scan.2 in
  let expected_rack := stem (csv_path a) in
  if decide (rack_id ≠ expected_rack)
  then throw (Exn (RackMismatchError rack_id expected_rack))
  else
    let rows := build_output_rows layout scanner_wells in
    let output_path := default (paired_path (csv_path a)) (output a) in
    _ <- write_output w rows output_path ;;
    let extra := extra_positions layout scanner_wells in
    _ <- match extra with
         | [] => ret ()
         | _ => print (warning_print w)
         end ;;
    _ <- print (report_print w) ;;
    ret 0.

(** The [__main__] block: the exit status of the process and the files it
    leaves.  The "ERROR" line printed by the two [except] clauses is not
    modelled. *)
Definition script (w : world) (fs : files) : Z * files :=
  match main w fs with
  | (inr code, fs') => (code, fs')
  | (inl (Exn (RackMismatchError _ _)), fs') => (2, fs')
  | (inl (Exn (Builtin _)), fs') => (1, fs')
  | (inl (SystemExit code), fs') => (code, fs')
  end.

End Main.

(** * Vocabulary of the properties *)

(** ** Strings and the pattern in closed form *)

Module StrShape.
Import PyStr.

(** No white space in front. *)
Definition tight_front (s : string) : Prop :=
  match s with
  | "" => True
  | String c _ => is_space c = false
  end.

Definition is_plain (c : ascii) : bool := is_upper c || is_digit c.

End StrShape.

Module Pattern.
Import PyStr.

(** The longest prefix of characters in [p], and the rest. *)
Fixpoint span (p : ascii → bool) (s : string) : string * string :=
  match s with
  | "" => ("", "")
  | String c s' =>
      if p c then (String c (span p s').1, (span p s').2) else ("", s)
  end.

Fixpoint drop_zeros (s : string) : string :=
  match s with
  | "" => ""
  | String c s' => if is_zero c then drop_zeros s' else s
  end.

(** The digits group: leading zeros go to [0*], except that the last
    character always stays in the group. *)
Definition norm_digits (s : string) : string :=
  match drop_zeros s with
  | "" => "0"
  | d => d
  end.

Definition match_position (token : string) : option (string * string) :=
  let '(letters, rest) := span is_upper token in
  if is_empty letters then None
  else if negb (is_empty rest) && all is_digit rest
       then Some (letters, norm_digits rest)
       else None.

(** A digit group as the pattern delivers it: ["0"], or no zero in front. *)
Definition normal (d : string) : Prop :=
  d = "0" ∨ match d with "" => False | String c _ => is_zero c = false end.

End Pattern.

(** ** Unicode strings and the pattern in closed form *)

Module UnicodeShape.
Import Unicode.
Local Open Scope N_scope.

(** What the properties need from an entry of [uppercase]: its character is
    neither white space, nor a digit, nor in [[A-Z]]; its upper-case form is
    not empty and consists of characters that are not white space and that
    [str.upper] leaves alone. *)
Definition entry_ok (e : N * ustring) : bool :=
  negb (is_space e.1) && negb (is_digit e.1) && negb (is_upper e.1)
  && negb (is_empty e.2)
  && forallb (λ c, negb (is_space c) && bool_decide (assoc c uppercase = None)) e.2.

(** No white space in front. *)
Definition tight_front (s : ustring) : Prop :=
  match s with
  | [] => True
  | c :: _ => is_space c = false
  end.

(** Characters of a matched position: [[A-Z]] or a digit. *)
Definition is_plain (c : N) : bool := is_upper c || is_digit c.

(** The longest prefix of characters in [p], and the rest. *)
Fixpoint span (p : N → bool) (s : ustring) : ustring * ustring :=
  match s with
  | [] => ([], [])
  | c :: s' => if p c then (c :: (span p s').1, (span p s').2) else ([], s)
  end.

Fixpoint drop_zeros (s : ustring) : ustring :=
  match s with
  | [] => []
  | c :: s' => if is_zero c then drop_zeros s' else s
  end.

(** The digits group: the zeros in front go to [0*], except that the last
    character always stays in the group. *)
Definition norm_digits (s : ustring) : ustring :=
  match drop_zeros s with
  | [] => [48]
  | d => d
  end.

Definition match_position (token : ustring) : option (ustring * ustring) :=
  let '(letters, rest) := span is_upper token in
  if is_empty letters then None
  else if negb (is_empty rest) && forallb is_digit rest
       then Some (letters, norm_digits rest)
       else None.

(** A digit group as the pattern delivers it: a single [0], or no [0] in
    front. *)
Definition normal (d : ustring) : Prop :=
  d = [48] ∨ match d with [] => False | c :: _ => is_zero c = false end.

End UnicodeShape.

(** ** Nodes of a JSON value *)

Module Walk.

(** The nodes of a value: the value, the elements of its lists and the
    values of its dicts, at any depth. *)
Inductive subnode (x : json) : json → Prop :=
| subnode_here : subnode x x
| subnode_item y items : y ∈ items → subnode x y → subnode x (JList items)
| subnode_field k y fields : (k, y) ∈ fields → subnode x y → subnode x (JDict fields).

(** A mapping with a ["decode"] key whose value is a mapping. *)
Definition is_decode_node (v : json) : bool :=
  match v with
  | JDict fields => has_decode fields
  | _ => false
  end.

(** What one stack entry contributes to the output, in the order of the
    loop: the node itself first, then its children from the last one to the
    first. *)
Fixpoint yields (v : json) : list json :=
  match v with
  | JList items =>
      (fix go (l : list json) : list json :=
         match l with [] => [] | x :: l' => go l' ++ yields x end) items
  | JDict fields =>
      (if has_decode fields then [v] else [])
      ++ (fix go (l : pydict) : list json :=
            match l with [] => [] | kv :: l' => go l' ++ yields kv.2 end) fields
  | _ => []
  end.

Definition stack_size (stack : list json) : nat := sum_list_with json_size stack.

End Walk.

(** ** The extractor, one variable at a time *)

Module Extract.

(** The value of [item.get("decode") or {}], of [decode.get("result")] and
    of [item.get("itemType")] for a yielded item. *)
Definition decode_of (item : json) : pydict :=
match item with
| JDict fields =>
    match py_or (py_get "decode" fields) (JDict []) with
    | JDict decode => decode
    | _ => []
    end
| _ => []
end.

Definition result_of (item : json) : json := py_get "result" (decode_of item).

Definition item_type_of (item : json) : json :=
match item with
| JDict fields => py_get "itemType" fields
| _ => JNull
end.

Section WithRepr.
Variable repr : json → string.

(** [str(result).strip()] *)
Definition result_text (item : json) : string :=
PyStr.strip (py_str repr (result_of item)).

(** [str(item.get("id") or "").strip()] *)
Definition position_raw_of (item : json) : string :=
match item with
| JDict fields => PyStr.strip (py_str repr (py_or (py_get "id" fields) (JStr "")))
| _ => ""
end.

(** A node that can supply the rack ID: type 2 with a truthy result. *)
Definition rack_node (item : json) : bool :=
py_truthy (result_of item) && py_eq_int (item_type_of item) 2.

(** A node that supplies a well: type 1 with a truthy result and an id
    that is not blank. *)
Definition well_node (item : json) : bool :=
py_truthy (result_of item) && py_eq_int (item_type_of item) 1
&& negb (PyStr.is_empty (position_raw_of item)).

Definition well_key (item : json) : string :=
normalize_position (position_raw_of item).

Definition well_value (item : json) : pydict :=
well_entry (result_text item)
  (py_truthy (py_get_default "hasTube" (JBool false) (decode_of item)))
  (py_truthy (py_get_default "passed" (JBool false) (decode_of item))).

Definition rack_step (rack_id : option string) (item : json) : option string :=
if rack_node item && bool_decide (rack_id = None)
then Some (result_text item) else rack_id.

Definition wells_step (wells : wells_t) (item : json) : wells_t :=
if well_node item then <[well_key item := well_value item]> wells else wells.

End WithRepr.
End Extract.

(** ** Statuses *)

(** The status of a scanned well, from its two flags: the comma-join of
    "empty" (no tube) and "decode_failed" (decode did not pass), or "ok". *)
Definition flag_status (hasTube passed : bool) : string :=
  match hasTube, passed with
  | true, true => "ok"
  | false, true => "empty"
  | true, false => "decode_failed"
  | false, false => "empty,decode_failed"
  end.

Definition entry_hasTube (scanner_entry : pydict) : bool :=
  py_truthy (py_get_default "hasTube" (JBool false) scanner_entry).

Definition entry_passed (scanner_entry : pydict) : bool :=
  py_truthy (py_get_default "passed" (JBool false) scanner_entry).

Definition statuses : list string :=
  ["ok"; "no_scan"; "empty"; "decode_failed"; "empty,decode_failed"].

(** ** Runs *)

(** The error of the first [print] call of [main] that raises, if any. *)
Definition print_fault (w : world) (extra : list string) : option builtin_exn :=
  match extra with
  | [] => report_print w
  | _ =>
      match warning_print w with
      | Some e => Some e
      | None => report_print w
      end
  end.

(** Everything [main] does after [parse_args] and before [write_output]:
    the rows, the output path and the extra positions. *)
Definition prepare (repr : json → string) (w : world) (a : args)
    : result (list row_t * path * list string) :=
  layout <~ read_layout (open_csv w (csv_path a)) ;;
  payload <~ load_payload w a ;;
  scan <~ extract_scanner_results repr payload ;;
  if decide (scan.1 ≠ stem (csv_path a))
  then Raise (RackMismatchError scan.1 (stem (csv_path a)))
  else Ok (build_output_rows layout scan.2,
           default (paired_path (csv_path a)) (output a),
           extra_positions layout scan.2).

(** The run gets as far as comparing the rack IDs, and they differ. *)
Definition rack_mismatch (repr : json → string) (w : world) : Prop :=
  ∃ a layout payload rack_id wells,
    command_line w = Parsed a ∧
    read_layout (open_csv w (csv_path a)) = Ok layout ∧
    load_payload w a = Ok payload ∧
    extract_scanner_results repr payload = Ok (rack_id, wells) ∧
    rack_id ≠ stem (csv_path a).

(** The failures the run can meet before it writes: a CSV that does not
    load, a payload that cannot be obtained, a payload without rack ID or
    wells, and a rack ID that differs from the stem of the CSV file name. *)
Definition fails_before_writing (repr : json → string) (w : world) : Prop :=
  ∃ a, command_line w = Parsed a ∧
       (raised (read_layout (open_csv w (csv_path a))) ∨
        raised (load_payload w a) ∨
        (∃ payload, load_payload w a = Ok payload ∧
                    raised (extract_scanner_results repr payload)) ∨
        rack_mismatch repr w).

(** A decode node as the reader reports it. *)
Definition scan_node (item_type : Z) (id result : string) : json :=
  JDict [("itemType", JInt item_type); ("id", JStr id);
         ("decode", JDict [("result", JStr result); ("hasTube", JBool true);
                           ("passed", JBool true)])].

(** A payload in which the first type-2 node met by the walker (the last
    element of the list) has an empty result. *)
Definition skipped_rack_payload : json :=
  JList [scan_node 2 "" "RACK7"; scan_node 1 "A1" "T1"; scan_node 2 "" ""].

(** A world whose command line the argument parser rejects. *)
Definition usage_error_world : world :=
  {| command_line := UsageError;
     open_csv := λ _, CsvRows [] None;
     load_json_file := λ _, inr JNull;
     transport := λ _, inr JNull;
     output_fault := NoFault;
     warning_print := None; report_print := None |}.

(** A world in which the scanned rack is not the rack of the CSV file. *)
Definition mismatch_world : world :=
  {| command_line :=
       Parsed {| csv_path := Path "racks" "RACK1" ".csv"; output := None;
                 url := ""; json_file := Some (Path "" "scan" ".json");
                 trust_env_proxies := false; backend := "auto" |};
     open_csv := λ _, CsvRows [["A1"; "S1"]] None;
     load_json_file := λ _, inr skipped_rack_payload;
     transport := λ _, inl (ConnectionError "unreachable");
     output_fault := NoFault;
     warning_print := None; report_print := None |}.

(** A world in which the rack matches and the report cannot be printed:
    standard output does not take the text. *)
Definition unprintable_report_world : world :=
  {| command_line :=
       Parsed {| csv_path := Path "racks" "RACK7" ".csv"; output := None;
                 url := ""; json_file := Some (Path "" "scan" ".json");
                 trust_env_proxies := false; backend := "auto" |};
     open_csv := λ _, CsvRows [["A1"; "S1"]; []; ["a02"; "S2"]] None;
     load_json_file := λ _, inr skipped_rack_payload;
     transport := λ _, inl (ConnectionError "unreachable");
     output_fault := NoFault;
     warning_print := None;
     report_print := Some (OtherException "OSError") |}.

(** ** Further vocabulary and parts of the script *)

(** The layout entry that a CSV row with at least two columns stands for. *)
Definition row_entry (row : list string) : string * string :=
  match row with
  | c0 :: c1 :: _ => (normalize_position (PyStr.strip c0), PyStr.strip c1)
  | _ => ("", "")
  end.

(** A row that [read_layout] does not skip. *)
Definition nonblank (row : list string) : Prop := row ≠ [].

Global Instance nonblank_dec (row : list string) : Decision (nonblank row).
Proof. unfold nonblank. apply _. Defined.

(** All nodes of a value in document order: the value, then the nodes of
    its elements or field values from the first to the last. *)
Fixpoint nodes (v : json) : list json :=
  v ::
  match v with
  | JList items =>
      (fix go (l : list json) : list json :=
         match l with [] => [] | x :: l' => nodes x ++ go l' end) items
  | JDict fields =>
      (fix go (l : pydict) : list json :=
         match l with [] => [] | kv :: l' => nodes kv.2 ++ go l' end) fields
  | _ => []
  end.

(** What [subprocess.run] on the curl command line gives: the executable is
    missing, the run raises something else, curl exits with a status other
    than 0 ([check=True] raises [CalledProcessError]), or curl prints the
    response. *)
Inductive curl_run : Type :=
| CurlMissing
| CurlRaises (class : string)
| CurlExit (returncode : Z) (stderr : string)
| CurlOutput (stdout : string).

(** [_fetch_via_curl] after the command line is built; [json_loads] is
    [json.loads] with [None] for a [JSONDecodeError]. *)
Definition _fetch_via_curl (json_loads : string → option json) (run : curl_run)
    : builtin_exn + json :=
  match run with
  | CurlMissing => inl (RuntimeError "curl command not found on PATH")
  | CurlRaises class => inl (OtherException class)
  | CurlExit returncode stderr =>
      let stderr := PyStr.strip stderr in
      let message :=
        if PyStr.is_empty stderr
        then "curl failed with exit code " +:+ pretty returncode
        else stderr in
      inl (ConnectionError message)
  | CurlOutput stdout =>
      match json_loads stdout with
      | Some payload => inr payload
      | None => inl (ValueError InvalidCurlJson)
      end
  end.

(** The world with another transport. *)
Definition with_transport (w : world) (t : string → builtin_exn + json) : world :=
  {| command_line := command_line w; open_csv := open_csv w;
     load_json_file := load_json_file w; transport := t;
     output_fault := output_fault w;
     warning_print := warning_print w; report_print := report_print w |}.

(** The path [main] writes to. *)
Definition output_path_of (a : args) : path :=
  default (paired_path (csv_path a)) (output a).


(** * Properties *)

(** ** Evaluation on samples *)

Example normalize_A1 : normalize_position "A1" = "A01".
Proof. reflexivity. Qed.
Example normalize_a01 : normalize_position " a01 " = "A01".
Proof. reflexivity. Qed.
Example normalize_A000 : normalize_position "A000" = "A00".
Proof. reflexivity. Qed.
Example normalize_H12 : normalize_position "h0012" = "H12".
Proof. reflexivity. Qed.
Example normalize_odd : normalize_position " a-1 " = "A-1".
Proof. reflexivity. Qed.
Example normalize_A123 : normalize_position "AB0123" = "AB123".
Proof. reflexivity. Qed.
Example unicode_normalize_a01 :
  Unicode.normalize_position (Unicode.of_string " a01 ") = Unicode.of_string "A01".
Proof. by vm_compute. Qed.
(** An Arabic-Indic digit one is a digit of the pattern. *)
Example unicode_normalize_arabic_digit :
  Unicode.normalize_position [65; 1633]%N = [65; 48; 1633]%N.
Proof. by vm_compute. Qed.
(** The upper-case form of the sharp s is "SS". *)
Example unicode_normalize_sharp_s :
  Unicode.normalize_position [223; 49]%N = Unicode.of_string "SS01".
Proof. by vm_compute. Qed.
(** A no-break space is white space. *)
Example unicode_normalize_no_break_space :
  Unicode.normalize_position [65; 49; 160]%N = Unicode.of_string "A01".
Proof. by vm_compute. Qed.
(** Full-width zeros are digits, but not the [0] of the pattern. *)
Example unicode_normalize_fullwidth :
  Unicode.normalize_position [97; 65296; 65297]%N = [65; 65296; 65297]%N.
Proof. by vm_compute. Qed.
Example walker_example :
  iter_decode_items
    (JDict [("a", JList [JDict [("decode", JDict [("result", JStr "X")]);
                                ("itemType", JInt 1); ("id", JStr "B2")];
                         JDict [("foo", JInt 1)]])])
  = [JDict [("decode", JDict [("result", JStr "X")]);
            ("itemType", JInt 1); ("id", JStr "B2")]].
Proof. reflexivity. Qed.

Example extract_example :
  extract_scanner_results (λ _, "") skipped_rack_payload
  = Ok ("RACK7", {["A01" := well_entry "T1" true true]}).
Proof. reflexivity. Qed.

(** ** Characters and strings *)

Module PyStrFacts.
Import PyStr StrShape.

Ltac by_cases_on c :=
  destruct c as [[] [] [] [] [] [] [] []]; vm_compute; try reflexivity;
  try congruence; try tauto.

Lemma to_upper_idem c : to_upper (to_upper c) = to_upper c.
Proof. by_cases_on c. Qed.

Lemma is_space_to_upper c : is_space (to_upper c) = is_space c.
Proof. by_cases_on c. Qed.

Lemma to_upper_upper c : is_upper c = true → to_upper c = c.
Proof. by_cases_on c. Qed.

Lemma to_upper_digit c : is_digit c = true → to_upper c = c.
Proof. by_cases_on c. Qed.

Lemma upper_not_space c : is_upper c = true → is_space c = false.
Proof. by_cases_on c. Qed.

Lemma digit_not_space c : is_digit c = true → is_space c = false.
Proof. by_cases_on c. Qed.

Lemma digit_not_upper c : is_digit c = true → is_upper c = false.
Proof. by_cases_on c. Qed.

Lemma digit_not_sign c : is_digit c = true → is_sign c = false.
Proof. by_cases_on c. Qed.

Lemma zero_is_digit c : is_zero c = true → is_digit c = true.
Proof. by_cases_on c. Qed.

Lemma is_zero_spec c : is_zero c = true ↔ c = "0"%char.
Proof. split; [by_cases_on c | by intros ->]. Qed.

Lemma app_cons c s t : String c s +:+ t = String c (s +:+ t).
Proof. reflexivity. Qed.

Lemma app_empty_l t : "" +:+ t = t.
Proof. reflexivity. Qed.

Lemma is_empty_true s : is_empty s = true ↔ s = "".
Proof. by destruct s. Qed.

Lemma is_empty_false s : is_empty s = false ↔ s ≠ "".
Proof. by destruct s. Qed.

Lemma upper_idem s : upper (upper s) = upper s.
Proof. induction s as [|c s IH]; simpl; [done|]. by rewrite to_upper_idem, IH. Qed.

Lemma lstrip_upper s : lstrip (upper s) = upper (lstrip s).
Proof.
  induction s as [|c s IH]; simpl; [done|].
  rewrite is_space_to_upper. by destruct (is_space c).
Qed.

Lemma rstrip_upper s : rstrip (upper s) = upper (rstrip s).
Proof.
  induction s as [|c s IH]; simpl; [done|].
  rewrite IH, is_space_to_upper.
  destruct (rstrip s); simpl; [by destruct (is_space c)|done].
Qed.

Lemma strip_upper s : strip (upper s) = upper (strip s).
Proof. unfold strip. by rewrite lstrip_upper, rstrip_upper. Qed.

Lemma lstrip_tight s : tight_front (lstrip s).
Proof.
  induction s as [|c s IH]; simpl; [done|].
  destruct (is_space c) eqn:E; [done|]. simpl. done.
Qed.

Lemma lstrip_of_tight s : tight_front s → lstrip s = s.
Proof. destruct s as [|c s]; simpl; [done|]. by intros ->. Qed.

Lemma rstrip_tight s : tight_front s → tight_front (rstrip s).
Proof.
  destruct s as [|c s]; simpl; [done|]. intros E.
  destruct (rstrip s); simpl; [by rewrite E|done].
Qed.

Lemma rstrip_idem s : rstrip (rstrip s) = rstrip s.
Proof.
  induction s as [|c s IH]; simpl; [done|].
  destruct (rstrip s) as [|d r] eqn:E.
  - destruct (is_space c) eqn:Ec; simpl; [done|]. by rewrite Ec.
  - remember (String d r) as t. simpl. rewrite IH. by subst t.
Qed.

Lemma strip_idem s : strip (strip s) = strip s.
Proof.
  unfold strip.
  rewrite (lstrip_of_tight (rstrip (lstrip s))).
  - apply rstrip_idem.
  - apply rstrip_tight, lstrip_tight.
Qed.

(** The token computed by [normalize_position] is a fixed point of
    stripping followed by upper-casing. *)
Lemma token_fixed s : upper (strip (upper (strip s))) = upper (strip s).
Proof. by rewrite strip_upper, strip_idem, upper_idem. Qed.

Lemma all_app p s t : all p (s +:+ t) = all p s && all p t.
Proof.
  induction s as [|c s IH]; [done|].
  rewrite app_cons. simpl. by rewrite IH, andb_assoc.
Qed.

Lemma all_impl (p q : ascii → bool) s :
  (∀ c, p c = true → q c = true) → all p s = true → all q s = true.
Proof.
  intros Hpq. induction s as [|c s IH]; simpl; [done|].
  intros [? ?]%andb_true_iff. apply andb_true_iff. auto.
Qed.

Lemma upper_plain s : all is_plain s = true → upper s = s.
Proof.
  induction s as [|c s IH]; simpl; [done|].
  intros [Hc Hs]%andb_true_iff. rewrite IH by done. f_equal.
  apply orb_true_iff in Hc as [?|?]; auto using to_upper_upper, to_upper_digit.
Qed.

Lemma plain_not_space c : is_plain c = true → is_space c = false.
Proof.
  intros [?|?]%orb_true_iff; auto using upper_not_space, digit_not_space.
Qed.

Lemma rstrip_plain s : all is_plain s = true → rstrip s = s.
Proof.
  induction s as [|c s IH]; simpl; [done|].
  intros [Hc Hs]%andb_true_iff. rewrite IH by done.
  destruct s; [by rewrite (plain_not_space c)|done].
Qed.

Lemma strip_plain s : all is_plain s = true → strip s = s.
Proof.
  intros H. unfold strip. rewrite lstrip_of_tight; [by apply rstrip_plain|].
  destruct s as [|c s]; simpl in *; [done|].
  apply andb_true_iff in H as [Hc _]. by apply plain_not_space.
Qed.

Lemma all_zeros n : all is_digit (zeros n) = true.
Proof. induction n; simpl; [done|]. by rewrite IHn. Qed.

(** On digits [zfill] only pads. *)
Lemma zfill_digits w s :
  all is_digit s = true →
  zfill w s = zeros (w - String.length s) +:+ s.
Proof.
  intros Hs. unfold zfill.
  destruct (Nat.leb_spec w (String.length s)) as [Hle|Hlt].
  - by replace (w - String.length s)%nat with 0%nat by lia.
  - destruct s as [|c s]; simpl in *.
    + rewrite Nat.sub_0_r. clear. induction w as [|w IH]; [done|].
      simpl. rewrite app_cons. by f_equal.
    + apply andb_true_iff in Hs as [Hc _]. by rewrite (digit_not_sign c).
Qed.

End PyStrFacts.

(** ** The pattern match, in closed form *)

Module RegexFacts.
Import PyStr StrShape Pattern PyStrFacts Regex.

Lemma first_match_app {A B} (k : A → option B) l1 l2 :
  first_match k (l1 ++ l2) =
  match first_match k l1 with Some y => Some y | None => first_match k l2 end.
Proof.
  induction l1 as [|x l1 IH]; simpl; [done|]. by destruct (k x).
Qed.

Lemma first_match_fmap {A B C} (f : A → B) (k : B → option C) l :
  first_match k (f <$> l) = first_match (k ∘ f) l.
Proof.
  induction l as [|x l IH]; simpl; [done|].
  destruct (k (f x)); [done|]. apply IH.
Qed.

Lemma first_match_ext {A B} (k1 k2 : A → option B) l :
  (∀ x, k1 x = k2 x) → first_match k1 l = first_match k2 l.
Proof.
  intros H. induction l as [|x l IH]; simpl; [done|]. by rewrite H, IH.
Qed.

(** A continuation that needs the rest to be empty succeeds exactly on the
    inputs made of [p] only. *)
Lemma first_match_whole {B} (p : ascii → bool) (g : string → B) s :
  first_match (λ '(a, b), if is_empty b then Some (g a) else None)
    (greedy_splits p s)
  = if all p s then Some (g s) else None.
Proof.
  revert g. induction s as [|c s IH]; intros g; [done|].
  cbn [greedy_splits all]. destruct (p c); [|done].
  rewrite first_match_app, first_match_fmap.
  rewrite (first_match_ext _
    (λ '(a, b), if is_empty b then Some (g (String c a)) else None))
    by (by intros [a b]).
  rewrite (IH (λ a, g (String c a))). by destruct (all p s).
Qed.

Lemma match_digits_spec s :
  match_digits s =
  if negb (is_empty s) && all is_digit s then Some s else None.
Proof.
  unfold match_digits. destruct s as [|c s]; [done|].
  cbn [greedy_splits all is_empty negb andb]. destruct (is_digit c); [|done].
  rewrite first_match_app, first_match_fmap.
  rewrite (first_match_ext _
    (λ '(a, b), if is_empty b then Some (String c a) else None))
    by (by intros [a b]).
  rewrite (first_match_whole is_digit (String c)). by destruct (all is_digit s).
Qed.

Lemma norm_digits_zero c s :
  is_zero c = true → s ≠ "" → norm_digits (String c s) = norm_digits s.
Proof. intros Hc _. unfold norm_digits. simpl. by rewrite Hc. Qed.

Lemma norm_digits_nonzero c s :
  is_zero c = false → norm_digits (String c s) = String c s.
Proof. intros Hc. unfold norm_digits. simpl. by rewrite Hc. Qed.

Lemma match_zeros_digits_spec s :
  match_zeros_digits s =
  if negb (is_empty s) && all is_digit s then Some (norm_digits s) else None.
Proof.
  unfold match_zeros_digits. induction s as [|c s IH]; [done|].
  cbn [greedy_splits all is_empty negb andb]. destruct (is_zero c) eqn:Hz.
  - rewrite first_match_app, first_match_fmap.
    rewrite (first_match_ext _ (λ '(_, rest), match_digits rest))
      by (by intros [a b]).
    rewrite IH. simpl. rewrite match_digits_spec. simpl.
    rewrite (zero_is_digit c Hz). simpl.
    destruct s as [|d s]; simpl.
    + apply is_zero_spec in Hz as ->. done.
    + destruct (is_digit d && all is_digit s) eqn:E; [|done].
      by rewrite (norm_digits_zero c).
  - cbn [first_match]. rewrite match_digits_spec. simpl.
    destruct (is_digit c && all is_digit s); [|done].
    by rewrite norm_digits_nonzero.
Qed.

Lemma match_zeros_digits_upper c s :
  is_upper c = true → match_zeros_digits (String c s) = None.
Proof.
  intros Hc. rewrite match_zeros_digits_spec. simpl.
  destruct (is_digit c) eqn:E; [|done].
  apply digit_not_upper in E. congruence.
Qed.

Lemma fullmatch_letters (g : string → string) s :
  first_match
    (λ '(letters, rest),
       if is_empty (g letters) then None
       else digits ← match_zeros_digits rest; Some (g letters, digits))
    (greedy_splits is_upper s)
  = if is_empty (g (span is_upper s).1) then None
    else digits ← match_zeros_digits (span is_upper s).2;
         Some (g (span is_upper s).1, digits).
Proof.
  revert g. induction s as [|c s IH]; intros g.
  - simpl. by destruct (is_empty (g "")).
  - cbn [greedy_splits span]. destruct (is_upper c) eqn:Hc.
    + rewrite first_match_app, first_match_fmap.
      rewrite (first_match_ext _
        (λ '(letters, rest),
           if is_empty (g (String c letters)) then None
           else digits ← match_zeros_digits rest;
                Some (g (String c letters), digits)))
        by (by intros [a b]).
      rewrite (IH (λ a, g (String c a))). clear IH.
      cbn [first_match fst snd]. rewrite (match_zeros_digits_upper c s Hc).
      by destruct (is_empty (g (String c (span is_upper s).1))),
           (match_zeros_digits (span is_upper s).2), (is_empty (g "")).
    + cbn [first_match fst snd]. by destruct (is_empty (g "")), (match_zeros_digits (String c s)).
Qed.

(** [re.fullmatch] on the pattern is [match_position]. *)
Lemma fullmatch_position_spec token :
  fullmatch_position token = match_position token.
Proof.
  unfold fullmatch_position, match_position.
  rewrite (first_match_ext _
    (λ '(letters, rest),
       if is_empty (id letters) then None
       else digits ← match_zeros_digits rest; Some (id letters, digits)))
    by (by intros [a b]).
  rewrite (fullmatch_letters id). simpl.
  destruct (span is_upper token) as [letters rest]. simpl.
  destruct (is_empty letters); [done|].
  rewrite match_zeros_digits_spec.
  by destruct (negb (is_empty rest) && all is_digit rest).
Qed.

End RegexFacts.

(** ** Position normalizer *)

Module NormalizeFacts.
Import PyStr StrShape Pattern PyStrFacts Regex RegexFacts.

Lemma span_all p s : all p (span p s).1 = true.
Proof.
  induction s as [|c s IH]; simpl; [done|].
  destruct (p c) eqn:E; simpl; [|done]. by rewrite E, IH.
Qed.

Lemma span_app p a b :
  all p a = true →
  match b with "" => True | String c _ => p c = false end →
  span p (a +:+ b) = (a, b).
Proof.
  intros Ha Hb. induction a as [|c a IH].
  - rewrite app_empty_l. destruct b as [|c b]; simpl; [done|]. by rewrite Hb.
  - rewrite app_cons. simpl in *. apply andb_true_iff in Ha as [Hc Ha].
    rewrite Hc, IH by done. done.
Qed.

Lemma drop_zeros_digits s : all is_digit s = true → all is_digit (drop_zeros s) = true.
Proof.
  induction s as [|c s IH]; simpl; [done|].
  intros [Hc Hs]%andb_true_iff. destruct (is_zero c); [auto|].
  simpl. by rewrite Hc, Hs.
Qed.

Lemma drop_zeros_front s :
  match drop_zeros s with "" => True | String c _ => is_zero c = false end.
Proof.
  induction s as [|c s IH]; simpl; [done|].
  destruct (is_zero c) eqn:E; [done|]. simpl. done.
Qed.

Lemma norm_digits_normal s : normal (norm_digits s).
Proof.
  unfold norm_digits, normal. pose proof (drop_zeros_front s) as H.
  destruct (drop_zeros s); [by left|by right].
Qed.

Lemma norm_digits_all s : all is_digit s = true → all is_digit (norm_digits s) = true.
Proof.
  intros H%drop_zeros_digits. unfold norm_digits. by destruct (drop_zeros s).
Qed.

Lemma norm_digits_nonempty s : norm_digits s ≠ "".
Proof. unfold norm_digits. by destruct (drop_zeros s). Qed.

Lemma drop_zeros_pad n d : drop_zeros (zeros n +:+ d) = drop_zeros d.
Proof. induction n as [|n IH]; [done|]. simpl. exact IH. Qed.

Lemma norm_digits_pad n d : normal d → norm_digits (zeros n +:+ d) = d.
Proof.
  intros Hd. unfold norm_digits. rewrite drop_zeros_pad.
  destruct Hd as [->|Hd]; [done|].
  destruct d as [|c d]; [done|]. simpl. by rewrite Hd.
Qed.

Lemma normalize_position_unfold raw :
  normalize_position raw =
  match match_position (upper (strip raw)) with
  | None => upper (strip raw)
  | Some (row_letters, column_digits) => row_letters +:+ zfill 2 column_digits
  end.
Proof. unfold normalize_position. by rewrite fullmatch_position_spec. Qed.

(** The shape of a normalized position that matched the pattern. *)
Lemma match_position_Some token letters digits :
  match_position token = Some (letters, digits) →
  letters ≠ "" ∧ all is_upper letters = true ∧
  all is_digit digits = true ∧ digits ≠ "" ∧ normal digits.
Proof.
  unfold match_position.
  pose proof (span_all is_upper token) as Hall.
  destruct (span is_upper token) as [l r]. simpl in Hall.
  destruct (is_empty l) eqn:El; [done|].
  destruct (negb (is_empty r) && all is_digit r) eqn:Er; [|done].
  intros [= <- <-]. apply andb_true_iff in Er as [_ Hr].
  split_and!; auto using norm_digits_all, norm_digits_nonempty, norm_digits_normal.
  by apply is_empty_false.
Qed.

Lemma match_position_rebuilt letters digits :
  letters ≠ "" → all is_upper letters = true →
  all is_digit digits = true → digits ≠ "" → normal digits →
  match_position (letters +:+ zfill 2 digits) = Some (letters, digits).
Proof.
  intros Hl Hup Hd Hne Hn. unfold match_position.
  rewrite zfill_digits by done.
  set (pad := zeros (2 - String.length digits)).
  assert (all is_digit (pad +:+ digits) = true) as Hpd.
  { rewrite all_app. unfold pad. by rewrite all_zeros, Hd. }
  assert (pad +:+ digits ≠ "") as Hpne.
  { destruct pad; [by rewrite app_empty_l|by rewrite app_cons]. }
  rewrite span_app; [|done|].
  - apply is_empty_false in Hl as ->. apply is_empty_false in Hpne as Hpne'.
    rewrite Hpne', Hpd. simpl. unfold pad. by rewrite norm_digits_pad.
  - destruct (pad +:+ digits) as [|c t]; [done|]. simpl in Hpd.
    apply andb_true_iff in Hpd as [Hc _]. by apply digit_not_upper.
Qed.

Lemma rebuilt_plain letters digits :
  all is_upper letters = true → all is_digit digits = true →
  all is_plain (letters +:+ zfill 2 digits) = true.
Proof.
  intros Hup Hd. rewrite zfill_digits, !all_app by done.
  rewrite (all_impl is_upper is_plain letters), (all_impl is_digit is_plain digits),
    (all_impl is_digit is_plain (zeros _)); auto using all_zeros.
  all: intros c Hc; unfold is_plain; rewrite Hc; auto using orb_true_r.
Qed.

End NormalizeFacts.

(** ** The normalizer on Unicode text *)

Module UnicodeFacts.
Import Unicode UnicodeShape.
Local Open Scope N_scope.

#[local] Arguments to_upper : simpl never.
#[local] Arguments is_space : simpl never.
#[local] Arguments is_digit : simpl never.
#[local] Arguments is_upper : simpl never.
#[local] Arguments is_zero : simpl never.
#[local] Arguments is_sign : simpl never.

(** *** The tables *)

Lemma assoc_Some c table v : assoc c table = Some v → (c, v) ∈ table.
Proof.
  induction table as [|[k w] table IH]; simpl; [done|].
  destruct (N.eqb_spec k c) as [->|_].
  - intros [= ->]. apply list_elem_of_here.
  - intros H. apply list_elem_of_further. auto.
Qed.

Lemma is_space_table c : is_space c = true → c ∈ whitespace.
Proof.
  unfold is_space. intros (x & Hx & ->%N.eqb_eq)%existsb_exists.
  by apply list_elem_of_In.
Qed.

Lemma uppercase_ok : forallb entry_ok uppercase = true.
Proof. vm_compute. reflexivity. Qed.

Lemma whitespace_ok :
  forallb (λ c, negb (is_digit c) && negb (is_upper c)) whitespace = true.
Proof. vm_compute. reflexivity. Qed.

Lemma decimal_zeros_ok :
  forallb (λ zero, (zero =? 48) || (90 <? zero)) decimal_zeros = true.
Proof. vm_compute. reflexivity. Qed.

Lemma entry_of c v :
  assoc c uppercase = Some v →
  is_space c = false ∧ is_digit c = false ∧ is_upper c = false ∧ v ≠ [] ∧
  Forall (λ d, is_space d = false ∧ assoc d uppercase = None) v.
Proof.
  intros Hin%assoc_Some. pose proof uppercase_ok as Hok.
  rewrite forallb_forall in Hok. apply list_elem_of_In, Hok in Hin.
  unfold entry_ok in Hin. simpl in Hin.
  repeat (apply andb_true_iff in Hin as [Hin ?]).
  repeat match goal with H : negb _ = true |- _ => apply negb_true_iff in H end.
  split_and!; try done.
  - by destruct v.
  - apply Forall_forall. intros d Hd.
    match goal with H : forallb _ v = true |- _ => rewrite forallb_forall in H;
      apply list_elem_of_In, H in Hd end.
    apply andb_true_iff in Hd as [Hs Ha]. apply negb_true_iff in Hs.
    by apply bool_decide_eq_true in Ha.
Qed.

Lemma to_upper_None c : assoc c uppercase = None → to_upper c = [c].
Proof. unfold to_upper. by intros ->. Qed.

Lemma to_upper_space c : is_space c = true → to_upper c = [c].
Proof.
  intros Hc. apply to_upper_None.
  destruct (assoc c uppercase) as [v|] eqn:E; [|done].
  apply entry_of in E as (? & _). congruence.
Qed.

Lemma uni_to_upper_digit c : is_digit c = true → to_upper c = [c].
Proof.
  intros Hc. apply to_upper_None.
  destruct (assoc c uppercase) as [v|] eqn:E; [|done].
  apply entry_of in E as (_ & ? & _). congruence.
Qed.

Lemma uni_to_upper_upper c : is_upper c = true → to_upper c = [c].
Proof.
  intros Hc. apply to_upper_None.
  destruct (assoc c uppercase) as [v|] eqn:E; [|done].
  apply entry_of in E as (_ & _ & ? & _). congruence.
Qed.

(** A character that is not white space has an upper-case form that is not
    empty and holds no white space. *)
Lemma to_upper_not_space c :
  is_space c = false →
  to_upper c ≠ [] ∧ Forall (λ d, is_space d = false) (to_upper c).
Proof.
  intros Hc. unfold to_upper. destruct (assoc c uppercase) as [v|] eqn:E; simpl.
  - apply entry_of in E as (_ & _ & _ & Hne & Hall). split; [done|].
    eapply Forall_impl; [exact Hall|]. by intros d [? _].
  - split; [done|]. by constructor.
Qed.

Lemma to_upper_nonempty c : to_upper c ≠ [].
Proof.
  destruct (is_space c) eqn:E; [by rewrite to_upper_space|].
  by apply to_upper_not_space.
Qed.

Lemma upper_unchanged s :
  Forall (λ d, assoc d uppercase = None) s → upper s = s.
Proof.
  induction 1 as [|d s Hd _ IH]; simpl; [done|].
  by rewrite (to_upper_None d Hd), IH.
Qed.

Lemma upper_to_upper c : upper (to_upper c) = to_upper c.
Proof.
  destruct (assoc c uppercase) as [v|] eqn:E.
  - assert (to_upper c = v) as -> by (unfold to_upper; by rewrite E).
    apply entry_of in E as (_ & _ & _ & _ & Hall). apply upper_unchanged.
    eapply Forall_impl; [exact Hall|]. by intros d [_ ?].
  - rewrite (to_upper_None c E). simpl. by rewrite (to_upper_None c E).
Qed.

Lemma uni_upper_not_space c : is_upper c = true → is_space c = false.
Proof.
  intros Hc. destruct (is_space c) eqn:E; [|done].
  apply is_space_table in E. pose proof whitespace_ok as Hok.
  rewrite forallb_forall in Hok. apply list_elem_of_In, Hok in E.
  apply andb_true_iff in E as [_ E]. apply negb_true_iff in E. congruence.
Qed.

Lemma uni_digit_not_space c : is_digit c = true → is_space c = false.
Proof.
  intros Hc. destruct (is_space c) eqn:E; [|done].
  apply is_space_table in E. pose proof whitespace_ok as Hok.
  rewrite forallb_forall in Hok. apply list_elem_of_In, Hok in E.
  apply andb_true_iff in E as [E _]. apply negb_true_iff in E. congruence.
Qed.

(** The digits below 128 are the ASCII digits. *)
Lemma is_digit_low c : c ≤ 90 → is_digit c = (48 <=? c) && (c <=? 57).
Proof.
  intros Hc. destruct ((48 <=? c) && (c <=? 57)) eqn:E.
  - unfold is_digit. apply existsb_exists. exists 48. split; [by left|exact E].
  - destruct (is_digit c) eqn:Hd; [|done]. exfalso.
    unfold is_digit in Hd. apply existsb_exists in Hd as (zero & Hin & Hz).
    pose proof decimal_zeros_ok as Hok. rewrite forallb_forall in Hok.
    apply Hok in Hin. apply andb_true_iff in Hz as [H1 H2].
    apply N.leb_le in H1, H2.
    apply orb_true_iff in Hin as [->%N.eqb_eq|Hbig%N.ltb_lt].
    + apply andb_false_iff in E as [E|E]; apply N.leb_gt in E; simpl in H2; lia.
    + lia.
Qed.

Lemma uni_digit_not_upper c : is_digit c = true → is_upper c = false.
Proof.
  intros Hd. destruct (is_upper c) eqn:Hu; [|done].
  unfold is_upper in Hu. apply andb_true_iff in Hu as [H1 H2].
  apply N.leb_le in H1, H2. rewrite is_digit_low in Hd by done.
  apply andb_true_iff in Hd as [_ H3]. apply N.leb_le in H3. lia.
Qed.

Lemma uni_digit_not_sign c : is_digit c = true → is_sign c = false.
Proof.
  intros Hd. destruct (is_sign c) eqn:Hs; [|done].
  unfold is_sign in Hs.
  apply orb_true_iff in Hs as [->%N.eqb_eq| ->%N.eqb_eq]; by vm_compute in Hd.
Qed.

Lemma uni_is_zero_spec c : is_zero c = true ↔ c = 48.
Proof. unfold is_zero. apply N.eqb_eq. Qed.

Lemma uni_zero_is_digit c : is_zero c = true → is_digit c = true.
Proof. intros ->%uni_is_zero_spec. by vm_compute. Qed.

(** *** Strings *)

Lemma uni_is_empty_true s : is_empty s = true ↔ s = [].
Proof. by destruct s. Qed.

Lemma uni_is_empty_false s : is_empty s = false ↔ s ≠ [].
Proof. by destruct s. Qed.

Lemma upper_app s t : upper (s ++ t) = upper s ++ upper t.
Proof. induction s as [|c s IH]; simpl; [done|]. by rewrite IH, app_assoc. Qed.

Lemma uni_upper_idem s : upper (upper s) = upper s.
Proof.
  induction s as [|c s IH]; simpl; [done|].
  by rewrite upper_app, upper_to_upper, IH.
Qed.

Lemma uni_upper_nonempty s : s ≠ [] → upper s ≠ [].
Proof.
  destruct s as [|c s]; [done|]. intros _. simpl.
  pose proof (to_upper_nonempty c). by destruct (to_upper c).
Qed.

Lemma uni_lstrip_of_tight s : tight_front s → lstrip s = s.
Proof. destruct s as [|c s]; simpl; [done|]. by intros ->. Qed.

Lemma uni_lstrip_tight s : tight_front (lstrip s).
Proof.
  induction s as [|c s IH]; simpl; [done|].
  destruct (is_space c) eqn:E; [done|]. simpl. done.
Qed.

Lemma uni_lstrip_upper s : lstrip (upper s) = upper (lstrip s).
Proof.
  induction s as [|c s IH]; simpl; [done|].
  destruct (is_space c) eqn:E.
  - rewrite (to_upper_space c E). simpl. by rewrite E.
  - simpl. apply uni_lstrip_of_tight.
    destruct (to_upper_not_space c E) as [Hne Hall].
    destruct (to_upper c) as [|d ds]; [done|]. simpl.
    by apply Forall_cons in Hall as [? _].
Qed.

(** [rstrip] on a concatenation. *)
Lemma rstrip_app s t :
  rstrip (s ++ t) = match rstrip t with [] => rstrip s | r => s ++ r end.
Proof.
  induction s as [|c s IH]; simpl.
  - by destruct (rstrip t).
  - rewrite IH. destruct (rstrip t) as [|d r]; [done|].
    by destruct s.
Qed.

Lemma rstrip_no_space s : Forall (λ d, is_space d = false) s → rstrip s = s.
Proof.
  induction 1 as [|d s Hd _ IH]; simpl; [done|].
  rewrite IH. destruct s; [by rewrite Hd|done].
Qed.

Lemma uni_rstrip_upper s : rstrip (upper s) = upper (rstrip s).
Proof.
  induction s as [|c s IH]; simpl; [done|].
  rewrite rstrip_app, IH. destruct (rstrip s) as [|d r] eqn:Hr.
  - simpl. destruct (is_space c) eqn:E.
    + rewrite (to_upper_space c E). simpl. by rewrite E.
    + simpl. rewrite app_nil_r. apply rstrip_no_space.
      by apply to_upper_not_space.
  - assert (upper (d :: r) ≠ []) as Hne by (by apply uni_upper_nonempty).
    change (upper (c :: d :: r)) with (to_upper c ++ upper (d :: r)).
    by destruct (upper (d :: r)).
Qed.

Lemma uni_strip_upper s : strip (upper s) = upper (strip s).
Proof. unfold strip. by rewrite uni_lstrip_upper, uni_rstrip_upper. Qed.

Lemma uni_rstrip_tight s : tight_front s → tight_front (rstrip s).
Proof.
  destruct s as [|c s]; simpl; [done|]. intros E.
  destruct (rstrip s); simpl; [by rewrite E|done].
Qed.

Lemma uni_rstrip_idem s : rstrip (rstrip s) = rstrip s.
Proof.
  induction s as [|c s IH]; simpl; [done|].
  destruct (rstrip s) as [|d r] eqn:E.
  - destruct (is_space c) eqn:Ec; simpl; [done|]. by rewrite Ec.
  - remember (d :: r) as t. simpl. rewrite IH. by subst t.
Qed.

Lemma uni_strip_idem s : strip (strip s) = strip s.
Proof.
  unfold strip.
  rewrite (uni_lstrip_of_tight (rstrip (lstrip s))).
  - apply uni_rstrip_idem.
  - apply uni_rstrip_tight, uni_lstrip_tight.
Qed.

(** The token computed by [normalize_position] is a fixed point of
    stripping followed by upper-casing. *)
Lemma uni_token_fixed s : upper (strip (upper (strip s))) = upper (strip s).
Proof. by rewrite uni_strip_upper, uni_strip_idem, uni_upper_idem. Qed.

Lemma forallb_impl (p q : N → bool) s :
  (∀ c, p c = true → q c = true) → forallb p s = true → forallb q s = true.
Proof.
  intros Hpq. induction s as [|c s IH]; simpl; [done|].
  intros [? ?]%andb_true_iff. apply andb_true_iff. auto.
Qed.

Lemma uni_upper_plain s : forallb is_plain s = true → upper s = s.
Proof.
  induction s as [|c s IH]; simpl; [done|].
  intros [Hc Hs]%andb_true_iff. rewrite IH by done.
  apply orb_true_iff in Hc as [Hc|Hc];
    [by rewrite uni_to_upper_upper|by rewrite uni_to_upper_digit].
Qed.

Lemma uni_plain_not_space c : is_plain c = true → is_space c = false.
Proof.
  intros [?|?]%orb_true_iff; auto using uni_upper_not_space, uni_digit_not_space.
Qed.

Lemma uni_strip_plain s : forallb is_plain s = true → strip s = s.
Proof.
  intros H. unfold strip. rewrite uni_lstrip_of_tight.
  - apply rstrip_no_space. apply Forall_forall. intros d Hd.
    rewrite forallb_forall in H. by apply uni_plain_not_space, H, list_elem_of_In.
  - destruct s as [|c s]; simpl in *; [done|].
    apply andb_true_iff in H as [Hc _]. by apply uni_plain_not_space.
Qed.

Lemma uni_all_zeros n : forallb is_digit (replicate n 48) = true.
Proof. induction n; simpl; [done|]. by rewrite IHn. Qed.

(** On digits [zfill] only pads. *)
Lemma uni_zfill_digits w s :
  forallb is_digit s = true →
  zfill w s = replicate (w - length s) 48 ++ s.
Proof.
  intros Hs. unfold zfill.
  destruct (Nat.leb_spec w (length s)) as [Hle|Hlt].
  - by replace (w - length s)%nat with 0%nat by lia.
  - destruct s as [|c s]; simpl in *.
    + by rewrite Nat.sub_0_r, app_nil_r.
    + apply andb_true_iff in Hs as [Hc _]. by rewrite (uni_digit_not_sign c).
Qed.

(** *** The pattern match, in closed form *)

Lemma uni_first_match_whole {B} (p : N → bool) (g : ustring → B) s :
  Regex.first_match (λ '(a, b), if is_empty b then Some (g a) else None)
    (greedy_splits p s)
  = if forallb p s then Some (g s) else None.
Proof.
  revert g. induction s as [|c s IH]; intros g; [done|].
  cbn [greedy_splits forallb]. destruct (p c); [|done].
  rewrite RegexFacts.first_match_app, RegexFacts.first_match_fmap.
  rewrite (RegexFacts.first_match_ext _
    (λ '(a, b), if is_empty b then Some (g (c :: a)) else None))
    by (by intros [a b]).
  rewrite (IH (λ a, g (c :: a))). by destruct (forallb p s).
Qed.

Lemma uni_match_digits_spec s :
  match_digits s =
  if negb (is_empty s) && forallb is_digit s then Some s else None.
Proof.
  unfold match_digits. destruct s as [|c s]; [done|].
  cbn [greedy_splits forallb is_empty negb andb]. destruct (is_digit c); [|done].
  rewrite RegexFacts.first_match_app, RegexFacts.first_match_fmap.
  rewrite (RegexFacts.first_match_ext _
    (λ '(a, b), if is_empty b then Some (c :: a) else None))
    by (by intros [a b]).
  rewrite (uni_first_match_whole is_digit (cons c)). by destruct (forallb is_digit s).
Qed.

Lemma uni_norm_digits_zero c s :
  is_zero c = true → s ≠ [] → norm_digits (c :: s) = norm_digits s.
Proof. intros Hc _. unfold norm_digits. simpl. by rewrite Hc. Qed.

Lemma uni_norm_digits_nonzero c s :
  is_zero c = false → norm_digits (c :: s) = c :: s.
Proof. intros Hc. unfold norm_digits. simpl. by rewrite Hc. Qed.

Lemma uni_match_zeros_digits_spec s :
  match_zeros_digits s =
  if negb (is_empty s) && forallb is_digit s then Some (norm_digits s) else None.
Proof.
  unfold match_zeros_digits. induction s as [|c s IH]; [done|].
  cbn [greedy_splits forallb is_empty negb andb]. destruct (is_zero c) eqn:Hz.
  - rewrite RegexFacts.first_match_app, RegexFacts.first_match_fmap.
    rewrite (RegexFacts.first_match_ext _ (λ '(_, rest), match_digits rest))
      by (by intros [a b]).
    rewrite IH. cbn [Regex.first_match]. rewrite uni_match_digits_spec.
    cbn [is_empty negb andb forallb].
    rewrite (uni_zero_is_digit c Hz). cbn [andb].
    destruct s as [|d s]; cbn [is_empty negb andb forallb].
    + apply uni_is_zero_spec in Hz as ->. done.
    + destruct (is_digit d && forallb is_digit s) eqn:E; [|done].
      by rewrite (uni_norm_digits_zero c).
  - cbn [Regex.first_match]. rewrite uni_match_digits_spec.
    cbn [is_empty negb andb forallb].
    destruct (is_digit c && forallb is_digit s); [|done].
    by rewrite uni_norm_digits_nonzero.
Qed.

Lemma uni_match_zeros_digits_upper c s :
  is_upper c = true → match_zeros_digits (c :: s) = None.
Proof.
  intros Hc. rewrite uni_match_zeros_digits_spec. cbn [is_empty negb andb forallb].
  destruct (is_digit c) eqn:E; [|done].
  apply uni_digit_not_upper in E. congruence.
Qed.

Lemma uni_fullmatch_letters (g : ustring → ustring) s :
  Regex.first_match
    (λ '(letters, rest),
       if is_empty (g letters) then None
       else digits ← match_zeros_digits rest; Some (g letters, digits))
    (greedy_splits is_upper s)
  = if is_empty (g (span is_upper s).1) then None
    else digits ← match_zeros_digits (span is_upper s).2;
         Some (g (span is_upper s).1, digits).
Proof.
  revert g. induction s as [|c s IH]; intros g.
  - simpl. by destruct (is_empty (g [])).
  - cbn [greedy_splits span]. destruct (is_upper c) eqn:Hc.
    + rewrite RegexFacts.first_match_app, RegexFacts.first_match_fmap.
      rewrite (RegexFacts.first_match_ext _
        (λ '(letters, rest),
           if is_empty (g (c :: letters)) then None
           else digits ← match_zeros_digits rest;
                Some (g (c :: letters), digits)))
        by (by intros [a b]).
      rewrite (IH (λ a, g (c :: a))). clear IH.
      cbn [Regex.first_match fst snd]. rewrite (uni_match_zeros_digits_upper c s Hc).
      by destruct (is_empty (g (c :: (span is_upper s).1))),
           (match_zeros_digits (span is_upper s).2), (is_empty (g [])).
    + cbn [Regex.first_match fst snd].
      by destruct (is_empty (g [])), (match_zeros_digits (c :: s)).
Qed.

(** [re.fullmatch] on the pattern is [match_position]. *)
Lemma uni_fullmatch_position_spec token :
  fullmatch_position token = match_position token.
Proof.
  unfold fullmatch_position, match_position.
  rewrite (RegexFacts.first_match_ext _
    (λ '(letters, rest),
       if is_empty (id letters) then None
       else digits ← match_zeros_digits rest; Some (id letters, digits)))
    by (by intros [a b]).
  rewrite (uni_fullmatch_letters id). simpl.
  destruct (span is_upper token) as [letters rest]. simpl.
  destruct (is_empty letters); [done|].
  rewrite uni_match_zeros_digits_spec.
  by destruct (negb (is_empty rest) && forallb is_digit rest).
Qed.

(** *** Position normalizer *)

Lemma uni_span_all p s : forallb p (span p s).1 = true.
Proof.
  induction s as [|c s IH]; simpl; [done|].
  destruct (p c) eqn:E; simpl; [|done]. by rewrite E, IH.
Qed.

Lemma uni_span_app p a b :
  forallb p a = true →
  match b with [] => True | c :: _ => p c = false end →
  span p (a ++ b) = (a, b).
Proof.
  intros Ha Hb. induction a as [|c a IH].
  - destruct b as [|c b]; simpl; [done|]. by rewrite Hb.
  - simpl in *. apply andb_true_iff in Ha as [Hc Ha].
    rewrite Hc, IH by done. done.
Qed.

Lemma uni_drop_zeros_digits s :
  forallb is_digit s = true → forallb is_digit (drop_zeros s) = true.
Proof.
  induction s as [|c s IH]; simpl; [done|].
  intros [Hc Hs]%andb_true_iff. destruct (is_zero c); [auto|].
  simpl. by rewrite Hc, Hs.
Qed.

Lemma uni_drop_zeros_front s :
  match drop_zeros s with [] => True | c :: _ => is_zero c = false end.
Proof.
  induction s as [|c s IH]; simpl; [done|].
  destruct (is_zero c) eqn:E; [done|]. simpl. done.
Qed.

Lemma uni_norm_digits_normal s : normal (norm_digits s).
Proof.
  unfold norm_digits, normal. pose proof (uni_drop_zeros_front s) as H.
  destruct (drop_zeros s); [by left|by right].
Qed.

Lemma uni_norm_digits_all s :
  forallb is_digit s = true → forallb is_digit (norm_digits s) = true.
Proof.
  intros H%uni_drop_zeros_digits. unfold norm_digits.
  destruct (drop_zeros s); [by vm_compute|done].
Qed.

Lemma uni_norm_digits_nonempty s : norm_digits s ≠ [].
Proof. unfold norm_digits. by destruct (drop_zeros s). Qed.

Lemma uni_drop_zeros_pad n d : drop_zeros (replicate n 48 ++ d) = drop_zeros d.
Proof. induction n as [|n IH]; [done|]. simpl. exact IH. Qed.

Lemma uni_norm_digits_pad n d : normal d → norm_digits (replicate n 48 ++ d) = d.
Proof.
  intros Hd. unfold norm_digits. rewrite uni_drop_zeros_pad.
  destruct Hd as [->|Hd]; [done|].
  destruct d as [|c d]; [done|]. simpl. by rewrite Hd.
Qed.

Lemma uni_normalize_position_unfold raw :
  normalize_position raw =
  match match_position (upper (strip raw)) with
  | None => upper (strip raw)
  | Some (row_letters, column_digits) => row_letters ++ zfill 2 column_digits
  end.
Proof. unfold normalize_position. by rewrite uni_fullmatch_position_spec. Qed.

(** The groups of a match. *)
Lemma uni_match_position_Some token letters digits :
  match_position token = Some (letters, digits) →
  letters ≠ [] ∧ forallb is_upper letters = true ∧
  forallb is_digit digits = true ∧ digits ≠ [] ∧ normal digits.
Proof.
  unfold match_position.
  pose proof (uni_span_all is_upper token) as Hall.
  destruct (span is_upper token) as [l r]. simpl in Hall.
  destruct (is_empty l) eqn:El; [done|].
  destruct (negb (is_empty r) && forallb is_digit r) eqn:Er; [|done].
  intros [= <- <-]. apply andb_true_iff in Er as [_ Hr].
  split_and!; auto using uni_norm_digits_all, uni_norm_digits_nonempty, uni_norm_digits_normal.
  by apply uni_is_empty_false.
Qed.

Lemma padded_digits n digits :
  forallb is_digit digits = true → digits ≠ [] →
  forallb is_digit (replicate n 48 ++ digits) = true ∧
  replicate n 48 ++ digits ≠ [] ∧
  match replicate n 48 ++ digits with
  | [] => True
  | c :: _ => is_upper c = false
  end.
Proof.
  intros Hd Hne.
  assert (forallb is_digit (replicate n 48 ++ digits) = true) as Hpd
    by (by rewrite forallb_app, uni_all_zeros, Hd).
  split; [done|]. split; [by destruct n, digits|].
  destruct (replicate n 48 ++ digits) as [|c t]; [done|]. simpl in Hpd.
  apply andb_true_iff in Hpd as [Hc _]. by apply uni_digit_not_upper.
Qed.

Lemma uni_match_position_rebuilt letters digits :
  letters ≠ [] → forallb is_upper letters = true →
  forallb is_digit digits = true → digits ≠ [] → normal digits →
  match_position (letters ++ zfill 2 digits) = Some (letters, digits).
Proof.
  intros Hl Hup Hd Hne Hn. unfold match_position.
  rewrite uni_zfill_digits by done.
  destruct (padded_digits (2 - length digits) digits Hd Hne) as (Hpd & Hpne & Hfront).
  rewrite uni_span_app by done.
  apply uni_is_empty_false in Hl as ->. apply uni_is_empty_false in Hpne as ->.
  rewrite Hpd. simpl. by rewrite uni_norm_digits_pad.
Qed.

Lemma uni_rebuilt_plain letters digits :
  forallb is_upper letters = true → forallb is_digit digits = true →
  forallb is_plain (letters ++ zfill 2 digits) = true.
Proof.
  intros Hup Hd. rewrite uni_zfill_digits, !forallb_app by done.
  rewrite (forallb_impl is_upper is_plain letters),
    (forallb_impl is_digit is_plain digits),
    (forallb_impl is_digit is_plain (replicate _ 48)); auto using uni_all_zeros.
  all: intros c Hc; unfold is_plain; rewrite Hc; auto using orb_true_r.
Qed.

Lemma uni_normalize_fixed s : normalize_position (normalize_position s) = normalize_position s.
Proof.
  rewrite (uni_normalize_position_unfold s).
  destruct (match_position (upper (strip s))) as [[letters digits]|] eqn:Hm.
  - apply uni_match_position_Some in Hm as (Hl & Hup & Hd & Hne & Hn).
    rewrite uni_normalize_position_unfold.
    rewrite (uni_strip_plain _ (uni_rebuilt_plain _ _ Hup Hd)).
    rewrite (uni_upper_plain _ (uni_rebuilt_plain _ _ Hup Hd)).
    by rewrite uni_match_position_rebuilt.
  - rewrite uni_normalize_position_unfold. by rewrite uni_token_fixed, Hm.
Qed.

Lemma uni_normalize_clean s :
  strip (normalize_position s) = normalize_position s ∧
  upper (normalize_position s) = normalize_position s.
Proof.
  rewrite (uni_normalize_position_unfold s).
  destruct (match_position (upper (strip s))) as [[letters digits]|] eqn:Hm.
  - apply uni_match_position_Some in Hm as (Hl & Hup & Hd & Hne & Hn).
    split; [apply uni_strip_plain|apply uni_upper_plain]; by apply uni_rebuilt_plain.
  - split; [by rewrite uni_strip_upper, uni_strip_idem|apply uni_upper_idem].
Qed.

(** The groups can be read back from the normalized position. *)
Lemma uni_rebuilt_inj l1 d1 l2 d2 :
  forallb is_upper l1 = true → forallb is_digit d1 = true → d1 ≠ [] → normal d1 →
  forallb is_upper l2 = true → forallb is_digit d2 = true → d2 ≠ [] → normal d2 →
  l1 ++ zfill 2 d1 = l2 ++ zfill 2 d2 → l1 = l2 ∧ d1 = d2.
Proof.
  intros Hu1 Hd1 Hn1 Hnorm1 Hu2 Hd2 Hn2 Hnorm2 Heq.
  assert (∀ l d, forallb is_upper l = true → forallb is_digit d = true → d ≠ [] →
            span is_upper (l ++ zfill 2 d) = (l, zfill 2 d)) as Hspan.
  { intros l d Hu Hd Hn. apply uni_span_app; [done|].
    rewrite uni_zfill_digits by done.
    by destruct (padded_digits (2 - length d) d Hd Hn) as (_ & _ & ?). }
  pose proof (Hspan l1 d1 Hu1 Hd1 Hn1) as S1.
  pose proof (Hspan l2 d2 Hu2 Hd2 Hn2) as S2.
  rewrite Heq, S2 in S1. injection S1 as -> Hz. split; [done|].
  rewrite !uni_zfill_digits in Hz by done.
  rewrite <- (uni_norm_digits_pad (2 - length d1) d1 Hnorm1).
  rewrite <- (uni_norm_digits_pad (2 - length d2) d2 Hnorm2).
  by rewrite Hz.
Qed.

End UnicodeFacts.

(** ** The ASCII model and the Unicode model *)

Module AsciiFacts.
Import PyStr PyStrFacts NormalizeFacts.
Import Unicode (of_string).

Lemma is_upper_code c : Unicode.is_upper (code c) = is_upper c.
Proof. reflexivity. Qed.

Lemma is_zero_code c : Unicode.is_zero (code c) = is_zero c.
Proof. reflexivity. Qed.

Lemma is_sign_code c : Unicode.is_sign (code c) = is_sign c.
Proof. reflexivity. Qed.

Lemma is_digit_code c : Unicode.is_digit (code c) = is_digit c.
Proof. by_cases_on c. Qed.

Lemma is_space_code c :
  (code c <? 128)%N = true → Unicode.is_space (code c) = is_space c.
Proof. by_cases_on c. Qed.

Lemma to_upper_code c :
  (code c <? 128)%N = true → Unicode.to_upper (code c) = [code (to_upper c)].
Proof. by_cases_on c. Qed.

Lemma to_upper_low c :
  (code c <? 128)%N = true → (code (to_upper c) <? 128)%N = true.
Proof. by_cases_on c. Qed.

Lemma of_string_app s t : of_string (s +:+ t) = of_string s ++ of_string t.
Proof. induction s as [|c s IH]; [done|]. rewrite app_cons. simpl. by rewrite IH. Qed.

Lemma of_string_length s : length (of_string s) = String.length s.
Proof. induction s as [|c s IH]; simpl; [done|]. by rewrite IH. Qed.

Lemma of_string_zeros n : of_string (zeros n) = replicate n 48%N.
Proof. induction n as [|n IH]; simpl; [done|]. by rewrite IH. Qed.

Lemma is_empty_of_string s : Unicode.is_empty (of_string s) = is_empty s.
Proof. by destruct s. Qed.

Lemma all_of_string (p : ascii → bool) (q : N → bool) s :
  (∀ c, q (code c) = p c) → forallb q (of_string s) = all p s.
Proof. intros Hpq. induction s as [|c s IH]; simpl; [done|]. by rewrite Hpq, IH. Qed.

Lemma isascii_cons c s :
  isascii (String c s) = true ↔ (code c <? 128)%N = true ∧ isascii s = true.
Proof. unfold isascii. simpl. apply andb_true_iff. Qed.

Lemma lstrip_of_string s :
  isascii s = true →
  Unicode.lstrip (of_string s) = of_string (lstrip s) ∧ isascii (lstrip s) = true.
Proof.
  induction s as [|c s IH]; [done|]. intros Hs.
  pose proof Hs as [Hc Hs']%isascii_cons. simpl.
  rewrite (is_space_code c Hc). destruct (is_space c); [auto|done].
Qed.

Lemma rstrip_of_string s :
  isascii s = true →
  Unicode.rstrip (of_string s) = of_string (rstrip s) ∧ isascii (rstrip s) = true.
Proof.
  induction s as [|c s IH]; [done|]. intros [Hc Hs]%isascii_cons.
  destruct (IH Hs) as [IH1 IH2]. simpl. rewrite IH1, (is_space_code c Hc).
  destruct (rstrip s) as [|d r]; simpl.
  - destruct (is_space c); [done|]. split; [done|]. by apply isascii_cons.
  - split; [done|]. by apply isascii_cons.
Qed.

Lemma strip_of_string s :
  isascii s = true →
  Unicode.strip (of_string s) = of_string (strip s) ∧ isascii (strip s) = true.
Proof.
  intros Hs. unfold Unicode.strip, strip.
  destruct (lstrip_of_string s Hs) as [-> Hl]. by apply rstrip_of_string.
Qed.

Lemma upper_of_string s :
  isascii s = true →
  Unicode.upper (of_string s) = of_string (upper s) ∧ isascii (upper s) = true.
Proof.
  induction s as [|c s IH]; [done|]. intros [Hc Hs]%isascii_cons.
  destruct (IH Hs) as [IH1 IH2]. simpl. rewrite IH1, (to_upper_code c Hc).
  split; [done|]. apply isascii_cons. auto using to_upper_low.
Qed.

Lemma span_of_string s :
  UnicodeShape.span Unicode.is_upper (of_string s)
  = (of_string (Pattern.span is_upper s).1, of_string (Pattern.span is_upper s).2).
Proof.
  induction s as [|c s IH]; simpl; [done|].
  rewrite is_upper_code, IH. by destruct (is_upper c).
Qed.

Lemma drop_zeros_of_string s :
  UnicodeShape.drop_zeros (of_string s) = of_string (Pattern.drop_zeros s).
Proof.
  induction s as [|c s IH]; simpl; [done|].
  rewrite is_zero_code, IH. by destruct (is_zero c).
Qed.

Lemma norm_digits_of_string s :
  UnicodeShape.norm_digits (of_string s) = of_string (Pattern.norm_digits s).
Proof.
  unfold UnicodeShape.norm_digits, Pattern.norm_digits.
  rewrite drop_zeros_of_string. by destruct (Pattern.drop_zeros s).
Qed.

Lemma match_position_of_string token :
  UnicodeShape.match_position (of_string token)
  = prod_map of_string of_string <$> Pattern.match_position token.
Proof.
  unfold UnicodeShape.match_position, Pattern.match_position.
  rewrite span_of_string. destruct (Pattern.span is_upper token) as [letters rest].
  simpl. rewrite !is_empty_of_string.
  rewrite (all_of_string is_digit Unicode.is_digit) by apply is_digit_code.
  destruct (is_empty letters); [done|].
  destruct (negb (is_empty rest) && all is_digit rest); [|done].
  simpl. by rewrite norm_digits_of_string.
Qed.

Lemma zfill_of_string w s : Unicode.zfill w (of_string s) = of_string (zfill w s).
Proof.
  unfold Unicode.zfill, zfill. rewrite of_string_length.
  destruct (w <=? String.length s)%nat; [done|].
  destruct s as [|c s]; simpl.
  - by rewrite of_string_zeros.
  - rewrite is_sign_code. destruct (is_sign c); simpl.
    + by rewrite of_string_app, of_string_zeros.
    + by rewrite of_string_app, of_string_zeros.
Qed.

(** On ASCII text the normalizer of the ASCII model is the normalizer on
    Unicode text. *)
Lemma normalize_position_ascii s :
  isascii s = true →
  Unicode.normalize_position (of_string s) = of_string (normalize_position s).
Proof.
  intros Hs. rewrite UnicodeFacts.uni_normalize_position_unfold, normalize_position_unfold.
  destruct (strip_of_string s Hs) as [-> Hs'].
  destruct (upper_of_string _ Hs') as [-> _].
  rewrite match_position_of_string.
  destruct (Pattern.match_position (upper (strip s))) as [[letters digits]|];
    simpl; [|done].
  by rewrite zfill_of_string, of_string_app.
Qed.

Lemma normalize_position_isascii s :
  isascii s = true → isascii (normalize_position s) = true.
Proof.
  intros Hs. rewrite normalize_position_unfold.
  destruct (strip_of_string s Hs) as [_ Hs'].
  destruct (upper_of_string _ Hs') as [_ Htoken].
  destruct (Pattern.match_position (upper (strip s))) as [[letters digits]|] eqn:Hm;
    [|done].
  apply match_position_Some in Hm as (_ & Hup & Hd & _ & _).
  pose proof (rebuilt_plain _ _ Hup Hd) as Hplain.
  unfold isascii. revert Hplain. apply all_impl.
  intros c. unfold StrShape.is_plain. by_cases_on c.
Qed.

End AsciiFacts.

(** [normalize_position] when the argument may be [None]. *)
Definition normalize_position_call (raw : option string) : result string :=
  match raw with
  | None => raise_builtin (ValueError PositionIsNone)
  | Some s => Ok (normalize_position s)
  end.

(** C4.  [normalize_position] sends "A1", "a01" and "A01" to "A01" and "H12"
    to "H12"; when the stripped, upper-cased token does not match the pattern
    (letters, then digits), the call raises nothing and returns that token. *)
Theorem normalize_position_examples_and_passthrough :
  normalize_position "A1" = "A01" ∧
  normalize_position "a01" = "A01" ∧
  normalize_position "A01" = "A01" ∧
  normalize_position "H12" = "H12" ∧
  ∀ raw : string,
    Regex.fullmatch_position (PyStr.upper (PyStr.strip raw)) = None →
    normalize_position_call (Some raw) = Ok (PyStr.upper (PyStr.strip raw)).
Proof.
  split_and!; try reflexivity.
  intros raw Hno. unfold normalize_position_call, normalize_position.
  by rewrite Hno.
Qed.

Lemma normalize_position_passthrough_witness :
  Regex.fullmatch_position (PyStr.upper (PyStr.strip " a-1 ")) = None ∧
  normalize_position_call (Some " a-1 ") = Ok "A-1".
Proof.
  split; [reflexivity|].
  apply (proj2 (proj2 (proj2 (proj2 normalize_position_examples_and_passthrough)))
           " a-1 ").
  reflexivity.
Defined.

(** C10.  [normalize_position] is idempotent: for every [str] [s], whatever
    its characters, normalizing [normalize_position s] again gives
    [normalize_position s]. *)
Theorem normalize_position_idempotent (s : Unicode.ustring) :
  Unicode.normalize_position (Unicode.normalize_position s)
  = Unicode.normalize_position s.
Proof. apply UnicodeFacts.uni_normalize_fixed. Qed.

(** ** Layout loader *)

Module LayoutFacts.

(** When the loop ends normally, every row with two columns is recorded in
    [seen] under its normalized position, and nothing recorded before is
    lost. *)
Lemma layout_loop_seen rows : ∀ idx seen entries seen' entries',
  layout_loop idx rows seen entries = Ok (seen', entries') →
  (∀ k v, seen !! k = Some v → seen' !! k = Some v) ∧
  (∀ c0 c1 more, c0 :: c1 :: more ∈ rows →
     seen' !! normalize_position (PyStr.strip c0) = Some (PyStr.strip c1)).
Proof.
  induction rows as [|row rows IH]; intros idx seen entries seen' entries' Hrun.
  - injection Hrun as <- <-. split; [done|]. intros ??? H. by apply elem_of_nil in H.
  - cbn [layout_loop] in Hrun. destruct row as [|c0 [|c1 more]].
    + apply IH in Hrun as [Hkeep Hrows]. split; [done|].
      intros a b m [?|?]%elem_of_cons; [done|eauto].
    + done.
    + destruct (PyStr.is_empty (PyStr.strip c0)); [done|].
      set (normalized := normalize_position (PyStr.strip c0)) in *.
      set (sample_id := PyStr.strip c1) in *.
      assert (layout_loop (S idx) rows (<[normalized := sample_id]> seen)
                (entries ++ [(normalized, sample_id)]) = Ok (seen', entries')
              ∧ (∀ v, seen !! normalized = Some v → v = sample_id))
        as [Hrest Hold].
      { destruct (seen !! normalized) as [old|] eqn:Hs.
        - destruct (decide (old ≠ sample_id)) as [|Heq]; [done|].
          split; [done|]. intros v [= <-]. by apply dec_stable.
        - done. }
      apply IH in Hrest as [Hkeep Hrows]. split.
      * intros k v Hk. apply Hkeep.
        destruct (decide (normalized = k)) as [<-|Hne].
        -- rewrite (Hold _ Hk). apply lookup_insert_eq.
        -- by rewrite lookup_insert_ne.
      * intros a b m [Hhd|Htl]%elem_of_cons; [|eauto].
        injection Hhd as -> -> ->. apply Hkeep, lookup_insert_eq.
Qed.

Lemma read_layout_Ok rows broken entries :
  read_layout (CsvRows rows broken) = Ok entries →
  ∃ seen, layout_loop 1 rows ∅ [] = Ok (seen, entries).
Proof.
  unfold read_layout.
  destruct (layout_loop 1 rows ∅ []) as [e|[seen ents]]; simpl; [done|].
  destruct broken; [done|]. destruct ents; [done|].
  intros [= <-]. by exists seen.
Qed.

End LayoutFacts.

(** C2, as the code has it.  Loading the rows [("A1","S1"), ("A01","S1")]
    succeeds and keeps one entry per row, so the layout holds ("A01","S1")
    twice; when two rows have the same normalized position and their trimmed
    sample IDs differ, loading raises. *)
Theorem read_layout_duplicates :
  read_layout (CsvRows [["A1"; "S1"]; ["A01"; "S1"]] None)
    = Ok [("A01", "S1"); ("A01", "S1")] ∧
  ∀ rows broken p1 s1 more1 p2 s2 more2,
    p1 :: s1 :: more1 ∈ rows →
    p2 :: s2 :: more2 ∈ rows →
    normalize_position (PyStr.strip p1) = normalize_position (PyStr.strip p2) →
    PyStr.strip s1 ≠ PyStr.strip s2 →
    raised (read_layout (CsvRows rows broken)).
Proof.
  split; [reflexivity|].
  intros rows broken p1 s1 more1 p2 s2 more2 H1 H2 Hpos Hdiff.
  destruct (read_layout (CsvRows rows broken)) as [e|entries] eqn:Hrun;
    [by exists e|].
  apply LayoutFacts.read_layout_Ok in Hrun as [seen Hloop].
  apply LayoutFacts.layout_loop_seen in Hloop as [_ Hrows].
  pose proof (Hrows _ _ _ H1) as E1. pose proof (Hrows _ _ _ H2) as E2.
  rewrite Hpos in E1. congruence.
Qed.

Lemma read_layout_duplicates_witness :
  raised (read_layout (CsvRows [["A1"; "S1"]; ["A01"; "S2"]] None)).
Proof.
  apply (proj2 read_layout_duplicates
           [["A1"; "S1"]; ["A01"; "S2"]] None "A1" "S1" [] "A01" "S2" []).
  - apply list_elem_of_here.
  - apply list_elem_of_further, list_elem_of_here.
  - reflexivity.
  - vm_compute. congruence.
Defined.

(** The rows of C2 load as two entries, not one. *)
Lemma read_layout_not_collapsed :
  ∃ entries,
    read_layout (CsvRows [["A1"; "S1"]; ["A01"; "S1"]] None) = Ok entries ∧
    length entries = 2%nat.
Proof. eexists. split; reflexivity. Qed.

(** ** Payload tree walker *)

Module WalkerFacts.
Import Walk.

(** Induction on JSON values, with the hypothesis for every element of a
    list and every value of a dict. *)
Lemma json_nested_ind (P : json → Prop)
    (HNull : P JNull) (HBool : ∀ b, P (JBool b)) (HInt : ∀ n, P (JInt n))
    (HFloat : ∀ f, P (JFloat f)) (HStr : ∀ s, P (JStr s))
    (HList : ∀ items, Forall P items → P (JList items))
    (HDict : ∀ fields, Forall (λ kv, P kv.2) fields → P (JDict fields)) :
  ∀ v, P v.
Proof.
  fix rec 1. intros [|b|n|f|s|items|fields];
    [apply HNull|apply HBool|apply HInt|apply HFloat|apply HStr| |].
  - apply HList. induction items as [|x items IH]; constructor; [apply rec|apply IH].
  - apply HDict. induction fields as [|kv fields IH]; constructor; [apply rec|apply IH].
Qed.

Lemma yields_list items : yields (JList items) = reverse items ≫= yields.
Proof.
  simpl. induction items as [|x items IH]; [done|].
  rewrite reverse_cons, bind_app, IH. simpl. by rewrite app_nil_r.
Qed.

Lemma yields_dict fields :
  yields (JDict fields) =
  (if has_decode fields then [JDict fields] else [])
  ++ (reverse (dict_values fields) ≫= yields).
Proof.
  simpl. f_equal. unfold dict_values.
  induction fields as [|kv fields IH]; [done|].
  rewrite fmap_cons, reverse_cons, bind_app, IH. simpl. by rewrite app_nil_r.
Qed.

Lemma stack_size_push children rest :
  stack_size (reverse children ++ rest) = (stack_size children + stack_size rest)%nat.
Proof.
  unfold stack_size. by rewrite sum_list_with_app, sum_list_with_reverse.
Qed.

Lemma json_size_dict fields :
  json_size (JDict fields) = S (stack_size (dict_values fields)).
Proof.
  simpl. f_equal. unfold stack_size, dict_values.
  induction fields as [|kv fields IH]; simpl; [done|]. by rewrite IH.
Qed.

Lemma json_size_list items :
  json_size (JList items) = S (stack_size items).
Proof. done. Qed.

Lemma json_size_pos v : (0 < json_size v)%nat.
Proof. destruct v; simpl; lia. Qed.

(** With fuel for every node on the stack, the loop outputs what the stack
    entries yield, top entry first. *)
Lemma walk_yields fuel : ∀ stack,
  (stack_size stack ≤ fuel)%nat → walk fuel stack = stack ≫= yields.
Proof.
  induction fuel as [|fuel IH]; intros [|current rest] Hfuel; try done.
  - exfalso. pose proof (json_size_pos current).
    unfold stack_size in Hfuel. simpl in Hfuel. lia.
  - assert (stack_size (current :: rest) = (json_size current + stack_size rest)%nat)
      as Hsz by done.
    rewrite Hsz in Hfuel. cbn [walk]. rewrite bind_cons.
    destruct current as [| | | | |items|fields].
    1-5: simpl in Hfuel; rewrite IH by lia; done.
    + rewrite json_size_list in Hfuel.
      rewrite IH by (rewrite stack_size_push; lia).
      by rewrite bind_app, yields_list.
    + rewrite json_size_dict in Hfuel.
      rewrite IH by (rewrite stack_size_push; lia).
      rewrite bind_app, yields_dict. by destruct (has_decode fields).
Qed.

Lemma iter_decode_items_yields node : iter_decode_items node = yields node.
Proof.
  unfold iter_decode_items. rewrite walk_yields.
  - simpl. by rewrite app_nil_r.
  - unfold stack_size. simpl. lia.
Qed.

(** More fuel changes nothing. *)
Lemma walk_fuel_irrelevant fuel node :
  (json_size node ≤ fuel)%nat → walk fuel [node] = iter_decode_items node.
Proof.
  intros H. rewrite iter_decode_items_yields, walk_yields.
  - simpl. by rewrite app_nil_r.
  - unfold stack_size. simpl. lia.
Qed.

Lemma yields_sound v : ∀ x, x ∈ yields v → subnode x v ∧ is_decode_node x = true.
Proof.
  induction v as [| | | | |items IH|fields IH] using json_nested_ind;
    intros x Hx; try (by apply elem_of_nil in Hx).
  - rewrite yields_list in Hx.
    apply list_elem_of_bind in Hx as (y & Hxy & Hy).
    rewrite elem_of_reverse in Hy. rewrite Forall_forall in IH.
    destruct (IH y Hy x Hxy) as [Hsub Hdec]. split; [|done].
    by apply subnode_item with y.
  - rewrite yields_dict in Hx. apply elem_of_app in Hx as [Hx|Hx].
    + destruct (has_decode fields) eqn:E; [|by apply elem_of_nil in Hx].
      apply list_elem_of_singleton in Hx as ->. split; [constructor|done].
    + apply list_elem_of_bind in Hx as (y & Hxy & Hy).
      rewrite elem_of_reverse in Hy. unfold dict_values in Hy.
      apply list_elem_of_fmap in Hy as ([k y'] & -> & Hkv).
      rewrite Forall_forall in IH.
      destruct (IH _ Hkv x Hxy) as [Hsub Hdec]. split; [|done].
      by apply subnode_field with k y'.
Qed.

Lemma yields_complete x v :
  subnode x v → is_decode_node x = true → x ∈ yields v.
Proof.
  intros Hsub Hdec. induction Hsub as [|y items Hy _ IH|k y fields Hkv _ IH].
  - destruct x as [| | | | | |fields]; try done.
    rewrite yields_dict. simpl in Hdec. rewrite Hdec. set_solver.
  - rewrite yields_list. apply list_elem_of_bind. exists y.
    split; [done|]. by apply elem_of_reverse.
  - rewrite yields_dict. apply elem_of_app. right.
    apply list_elem_of_bind. exists y. split; [done|].
    apply elem_of_reverse. unfold dict_values. apply list_elem_of_fmap.
    by exists (k, y).
Qed.

(** Every yielded item is a decode node. *)
Lemma iter_decode_items_decode node :
  Forall (λ x, is_decode_node x = true) (iter_decode_items node).
Proof.
  apply Forall_forall. intros x Hx. rewrite iter_decode_items_yields in Hx.
  by apply yields_sound in Hx as [_ ?].
Qed.

End WalkerFacts.

(** C3.  The walker yields exactly the nodes of the value that are mappings
    with a "decode" key whose value is a mapping; the example document yields
    one node. *)
Theorem iter_decode_items_exact :
  (∀ node x,
     x ∈ iter_decode_items node ↔
     Walk.subnode x node ∧ Walk.is_decode_node x = true) ∧
  length
    (iter_decode_items
       (JDict [("a", JList [JDict [("decode", JDict [("result", JStr "X")]);
                                   ("itemType", JInt 1); ("id", JStr "B2")];
                            JDict [("foo", JInt 1)]])]))
  = 1%nat.
Proof.
  split; [|reflexivity].
  intros node x. rewrite WalkerFacts.iter_decode_items_yields. split.
  - apply WalkerFacts.yields_sound.
  - intros [Hsub Hdec]. by apply WalkerFacts.yields_complete.
Qed.


(** ** Scanner result extractor *)

Module ExtractFacts.
Import Walk Extract WalkerFacts.

Section WithRepr.
Variable repr : json → string.

#[local] Abbreviation result_text := (Extract.result_text repr).
#[local] Abbreviation position_raw_of := (Extract.position_raw_of repr).
#[local] Abbreviation well_node := (Extract.well_node repr).
#[local] Abbreviation well_key := (Extract.well_key repr).
#[local] Abbreviation well_value := (Extract.well_value repr).
#[local] Abbreviation rack_step := (Extract.rack_step repr).
#[local] Abbreviation wells_step := (Extract.wells_step repr).

Lemma float_eq_int_2_not_1 f : float_eq_int f 2 = true → float_eq_int f 1 = false.
Proof.
destruct f as [s| | |s m e]; simpl; try done.
destruct (0 <=? e) eqn:He; intros H%Z.eqb_eq; apply Z.eqb_neq; [lia|].
assert (0 < 2 ^ (- e)) by (apply Z.pow_pos_nonneg; lia). lia.
Qed.

Lemma py_eq_int_2_not_1 v : py_eq_int v 2 = true → py_eq_int v 1 = false.
Proof.
destruct v as [|[]|n|f| | |]; simpl; try done.
- intros H%Z.eqb_eq. apply Z.eqb_neq. lia.
- apply float_eq_int_2_not_1.
Qed.

Lemma decode_node_fields item :
  is_decode_node item = true →
  ∃ fields, item = JDict fields ∧
            py_or (py_get "decode" fields) (JDict []) = JDict (decode_of item).
Proof.
destruct item as [| | | | | |fields]; try done. simpl. unfold has_decode.
intros H. exists fields. split; [done|].
unfold py_get, py_get_default.
destruct (dict_get "decode" fields) as [[| | | | | |decode]|]; try done.
by destruct decode.
Qed.

(** On a decode node one iteration updates the two variables independently
    and raises nothing. *)
Lemma extract_step_decode rack_id wells item :
  is_decode_node item = true →
  extract_step repr (rack_id, wells) item
  = Ok (rack_step rack_id item, wells_step wells item).
Proof.
intros Hd. destruct (decode_node_fields item Hd) as (fields & -> & Hdec).
unfold rack_step, wells_step, rack_node, well_node, well_key, well_value,
  result_text, result_of.
cbn [extract_step position_raw_of item_type_of]. rewrite Hdec.
set (decode := decode_of (JDict fields)).
destruct (py_truthy (py_get "result" decode)); [|done]. cbn [negb andb].
destruct (py_eq_int (py_get "itemType" fields) 2) eqn:E2.
- rewrite (py_eq_int_2_not_1 _ E2). cbn [andb].
  by destruct (bool_decide (rack_id = None)).
- cbn [andb]. destruct (py_eq_int (py_get "itemType" fields) 1); [|done].
  cbn [andb]. by destruct (PyStr.is_empty _).
Qed.

Lemma extract_loop_decode items : ∀ rack_id wells,
  Forall (λ x, is_decode_node x = true) items →
  extract_loop repr items (rack_id, wells)
  = Ok (foldl rack_step rack_id items, foldl wells_step wells items).
Proof.
induction items as [|item items IH]; intros rack_id wells Hall; [done|].
apply Forall_cons in Hall as [Hd Hall].
cbn [extract_loop foldl]. rewrite extract_step_decode by done.
simpl. by apply IH.
Qed.

(** *** The rack ID is taken from the first rack node *)

Lemma rack_fold_Some r items : foldl rack_step (Some r) items = Some r.
Proof.
induction items as [|item items IH]; [done|].
simpl. unfold rack_step at 2. rewrite bool_decide_eq_false_2 by done.
by rewrite andb_false_r.
Qed.

Lemma rack_fold_None items :
  foldl rack_step None items
  = (λ found, result_text found.2) <$> list_find (λ x, rack_node x = true) items.
Proof.
induction items as [|item items IH]; [done|].
cbn [foldl list_find]. unfold rack_step at 2.
rewrite bool_decide_eq_true_2 by done. rewrite andb_true_r.
destruct (decide (rack_node item = true)) as [E|E].
- rewrite E. simpl. apply rack_fold_Some.
- apply not_true_is_false in E. rewrite E, IH.
  by destruct (list_find _ items) as [[i x]|].
Qed.

(** *** The wells map holds the last well node of every key *)

Lemma wells_fold_lookup items : ∀ wells k,
  foldl wells_step wells items !! k
  = match last (filter (λ x, well_node x = true ∧ well_key x = k) items) with
    | Some item => Some (well_value item)
    | None => wells !! k
    end.
Proof.
induction items as [|item items IH] using rev_ind; intros wells k; [done|].
rewrite foldl_snoc, filter_app. unfold wells_step at 1.
rewrite filter_cons, filter_nil.
destruct (well_node item) eqn:Hw.
- destruct (decide (well_key item = k)) as [<-|Hne].
  + rewrite lookup_insert_eq, decide_True by done. by rewrite last_snoc.
  + rewrite lookup_insert_ne by done.
    rewrite decide_False by (by intros [_ ?]). rewrite app_nil_r. apply IH.
- rewrite decide_False by (by intros [? _]). rewrite app_nil_r. apply IH.
Qed.

Lemma wells_fold_empty items wells :
  foldl wells_step wells items = ∅ ↔
  wells = ∅ ∧ Forall (λ x, well_node x = false) items.
Proof.
revert wells. induction items as [|item items IH]; intros wells; simpl.
- split; [by intros ->|by intros [-> _]].
- rewrite IH, Forall_cons. unfold wells_step.
  destruct (well_node item) eqn:Hw.
  + split; [intros [H _]|intros [_ [? _]]]; [|done].
    by apply insert_non_empty in H.
  + split; [intros [? ?]|intros [? [_ ?]]]; done.
Qed.

Lemma extract_scanner_results_unfold payload :
  extract_scanner_results repr payload =
  match foldl rack_step None (iter_decode_items payload) with
  | None => raise_builtin (ValueError NoRackId)
  | Some rack_id =>
      if decide (size (foldl wells_step ∅ (iter_decode_items payload)) = 0%nat)
      then raise_builtin (ValueError NoWellEntries)
      else Ok (rack_id, foldl wells_step ∅ (iter_decode_items payload))
  end.
Proof.
unfold extract_scanner_results.
rewrite extract_loop_decode by apply iter_decode_items_decode. done.
Qed.

Lemma extract_scanner_results_Ok payload rack_id wells :
  extract_scanner_results repr payload = Ok (rack_id, wells) →
  foldl rack_step None (iter_decode_items payload) = Some rack_id ∧
  foldl wells_step ∅ (iter_decode_items payload) = wells ∧
  wells ≠ ∅.
Proof.
rewrite extract_scanner_results_unfold.
destruct (foldl rack_step None _) as [r|]; [|done].
destruct (decide _) as [|Hsz]; [done|].
intros [= -> <-]. split_and!; [done..|].
intros Hempty. apply Hsz. rewrite Hempty. apply map_size_empty.
Qed.

End WithRepr.
End ExtractFacts.

Import Walk Extract WalkerFacts ExtractFacts.

(** C6.  [extract_scanner_results] raises exactly when the payload has no
    node that supplies a rack ID or no node that supplies a well; when it
    returns, the map of wells is not empty. *)
Theorem extract_scanner_results_fails_iff (repr : json → string) (payload : json) :
  (raised (extract_scanner_results repr payload) ↔
   (¬ ∃ item, item ∈ iter_decode_items payload ∧ rack_node item = true) ∨
   (¬ ∃ item, item ∈ iter_decode_items payload ∧ well_node repr item = true)) ∧
  (∀ rack_id wells,
     extract_scanner_results repr payload = Ok (rack_id, wells) → wells ≠ ∅).
Proof.
  split; [|by intros rack_id wells (_ & _ & ?)%extract_scanner_results_Ok].
  rewrite extract_scanner_results_unfold, rack_fold_None.
  set (items := iter_decode_items payload).
  destruct (list_find (λ x, rack_node x = true) items) as [[i node]|] eqn:Hfind;
    simpl.
  - apply list_find_Some in Hfind as (Hi & Hnode & _).
    apply list_elem_of_lookup_2 in Hi.
    destruct (decide _) as [Hsz|Hsz].
    + apply map_size_empty_iff, wells_fold_empty in Hsz as [_ Hnone].
      rewrite Forall_forall in Hnone. split; [|by eexists].
      intros _. right. intros (item & Hin & Hw).
      rewrite (Hnone item Hin) in Hw. done.
    + split; [by intros [e ?]|]. intros [Hno|Hno].
      * destruct Hno. by exists node.
      * destruct Hsz. apply map_size_empty_iff, wells_fold_empty.
        split; [done|]. apply Forall_forall. intros item Hin.
        apply not_true_is_false. intros Hw. apply Hno. by exists item.
  - split; [|by eexists]. intros _. left. intros (item & Hin & Hr).
    apply list_find_None in Hfind. rewrite Forall_forall in Hfind.
    by apply (Hfind item Hin).
Qed.

Lemma extract_scanner_results_fails_witness :
  raised (extract_scanner_results (λ _, "") (JList [scan_node 2 "" "RACK7"])).
Proof.
  apply (proj1 (extract_scanner_results_fails_iff (λ _, "")
                  (JList [scan_node 2 "" "RACK7"]))).
  right. intros (item & Hin & Hw). vm_compute in Hin.
  apply list_elem_of_singleton in Hin. subst item. vm_compute in Hw. congruence.
Defined.

(** C7, as the code has it.  When [extract_scanner_results] returns, the rack
    ID is the stripped text of the result of the first type-2 node with a
    truthy result that the walker yields (type-2 nodes with a falsy result
    before it are passed over, type-2 nodes after it change nothing), and
    the wells map holds, under every normalized id, the record of the last
    type-1 node with a truthy result and that id. *)
Theorem extract_scanner_results_rack_and_wells
    (repr : json → string) (payload : json) (rack_id : string) (wells : wells_t) :
  extract_scanner_results repr payload = Ok (rack_id, wells) →
  (∃ i node,
     iter_decode_items payload !! i = Some node ∧
     rack_node node = true ∧
     (∀ j other, iter_decode_items payload !! j = Some other → (j < i)%nat →
                 rack_node other = false) ∧
     rack_id = result_text repr node) ∧
  (∀ k,
     wells !! k =
     well_value repr <$>
       last (filter (λ item, well_node repr item = true ∧ well_key repr item = k)
               (iter_decode_items payload))).
Proof.
  intros (Hrack & Hwells & _)%extract_scanner_results_Ok. split.
  - rewrite rack_fold_None in Hrack.
    destruct (list_find _ _) as [[i node]|] eqn:Hfind; [|done].
    injection Hrack as <-. apply list_find_Some in Hfind as (Hi & Hnode & Hfirst).
    exists i, node. split_and!; try done.
    intros j other Hj Hlt. apply not_true_is_false. by apply (Hfirst j).
  - intros k. rewrite <- Hwells, wells_fold_lookup.
    by destruct (last _).
Qed.

Lemma extract_scanner_results_rack_and_wells_witness :
  ∃ i node,
    iter_decode_items skipped_rack_payload !! i = Some node ∧
    rack_node node = true ∧
    "RACK7" = result_text (λ _, "") node.
Proof.
  destruct (extract_scanner_results_rack_and_wells (λ _, "") skipped_rack_payload
              "RACK7" {["A01" := well_entry "T1" true true]} extract_example)
    as [(i & node & Hi & Hnode & _ & Htext) _].
  by exists i, node.
Defined.

(** The rack ID is not the result of the first type-2 node the walker meets
    when that node has an empty result. *)
Lemma first_rack_node_skipped :
  ∃ first rest rack_id wells,
    iter_decode_items skipped_rack_payload = first :: rest ∧
    py_eq_int (item_type_of first) 2 = true ∧
    result_of first = JStr "" ∧
    extract_scanner_results (λ _, "") skipped_rack_payload = Ok (rack_id, wells) ∧
    rack_id = "RACK7".
Proof.
  exists (scan_node 2 "" ""), [scan_node 1 "A1" "T1"; scan_node 2 "" "RACK7"],
    "RACK7", {["A01" := well_entry "T1" true true]}.
  split_and!; [reflexivity|reflexivity|reflexivity|exact extract_example|reflexivity].
Qed.

(** C9.  A decode node whose result is missing or falsy leaves both
    variables of the extractor unchanged.  Hence a position whose type-1
    nodes all have a falsy result is absent from the wells and reconciles as
    "no_scan", and a payload whose type-2 nodes all have a falsy result
    gives no rack ID. *)
Theorem extract_skips_falsy_result (repr : json → string) :
  (∀ st item,
     is_decode_node item = true → py_truthy (result_of item) = false →
     extract_step repr st item = Ok st) ∧
  (∀ payload rack_id wells position sample_id,
     extract_scanner_results repr payload = Ok (rack_id, wells) →
     (∀ item, item ∈ iter_decode_items payload →
              py_eq_int (item_type_of item) 1 = true →
              well_key repr item = position →
              py_truthy (result_of item) = false) →
     wells !! position = None ∧
     build_output_rows [(position, sample_id)] wells
     = [(position, sample_id, JStr "", "no_scan")]) ∧
  (∀ payload,
     (∀ item, item ∈ iter_decode_items payload →
              py_eq_int (item_type_of item) 2 = true →
              py_truthy (result_of item) = false) →
     extract_scanner_results repr payload = raise_builtin (ValueError NoRackId)).
Proof.
  split_and!.
  - intros [rack_id wells] item Hd Hfalsy. rewrite extract_step_decode by done.
    unfold rack_step, wells_step, rack_node, well_node. by rewrite Hfalsy.
  - intros payload rack_id wells position sample_id Hrun Hfalsy.
    apply extract_scanner_results_Ok in Hrun as (_ & Hwells & _).
    assert (wells !! position = None) as Hnone.
    { rewrite <- Hwells, wells_fold_lookup.
      destruct (last _) as [item|] eqn:Hlast; [|done].
      apply last_Some_elem_of, list_elem_of_filter in Hlast as [[Hw Hk] Hin].
      unfold well_node in Hw.
      apply andb_true_iff in Hw as [[Hres Hty]%andb_true_iff _].
      rewrite (Hfalsy item Hin Hty Hk) in Hres. done. }
    split; [done|]. unfold build_output_rows. simpl. by rewrite Hnone.
  - intros payload Hfalsy. rewrite extract_scanner_results_unfold, rack_fold_None.
    destruct (list_find _ _) as [[i node]|] eqn:Hfind; [|done].
    apply list_find_Some in Hfind as (Hi%list_elem_of_lookup_2 & Hnode & _).
    unfold rack_node in Hnode. apply andb_true_iff in Hnode as [Hres Hty].
    rewrite (Hfalsy node Hi Hty) in Hres. done.
Qed.

Lemma extract_skips_falsy_result_witness :
  extract_step (λ _, "") (Some "RACK7", ∅) (scan_node 1 "A1" "")
  = Ok (Some "RACK7", ∅).
Proof.
  apply (proj1 (extract_skips_falsy_result (λ _, ""))
           (Some "RACK7", ∅) (scan_node 1 "A1" "")); reflexivity.
Defined.

(** ** Reconciler *)

Module ReconcileFacts.

Lemma status_of_flags scanner_entry :
  match status_flags scanner_entry with
  | [] => "ok"
  | _ => join "," (status_flags scanner_entry)
  end = flag_status (entry_hasTube scanner_entry) (entry_passed scanner_entry).
Proof.
  unfold status_flags, entry_hasTube, entry_passed.
  by destruct (py_truthy (py_get_default "hasTube" _ _)),
       (py_truthy (py_get_default "passed" _ _)).
Qed.

Lemma flag_status_known hasTube passed : flag_status hasTube passed ∈ statuses.
Proof. destruct hasTube, passed; unfold statuses; set_solver. Qed.

(** The row built for one layout entry. *)
Lemma output_row_cases scanner_data position sample_id :
  ∃ scanner_result status,
    output_row scanner_data (position, sample_id)
    = (position, sample_id, scanner_result, status) ∧
    match scanner_data !! position with
    | None | Some [] => scanner_result = JStr "" ∧ status = "no_scan"
    | Some scanner_entry =>
        scanner_result = py_get_default "result" (JStr "") scanner_entry ∧
        status = flag_status (entry_hasTube scanner_entry)
                   (entry_passed scanner_entry)
    end.
Proof.
  unfold output_row.
  destruct (scanner_data !! position) as [[|field scanner_entry]|];
    [by eauto| |by eauto].
  do 2 eexists. split; [done|]. split; [done|]. apply status_of_flags.
Qed.

(** The entries stored by the extractor are never empty. *)
Lemma extracted_entries repr payload rack_id wells k scanner_entry :
  extract_scanner_results repr payload = Ok (rack_id, wells) →
  wells !! k = Some scanner_entry →
  ∃ result hasTube passed, scanner_entry = well_entry result hasTube passed.
Proof.
  intros (_ & Hwells & _)%extract_scanner_results_Ok Hlook.
  rewrite <- Hwells, wells_fold_lookup in Hlook.
  destruct (last _) as [item|]; [|by rewrite lookup_empty in Hlook].
  injection Hlook as <-. unfold well_value. eauto.
Qed.

End ReconcileFacts.

(** C1.  For every layout and every scan map (a map whose entries hold the
    fields of a scanned well, so that no entry is an empty mapping), the
    reconciler emits one row per layout entry, in order, and the status of
    the row of a position is: "no_scan" if the position is absent from the
    scan map; if it is present, the comma-join of "empty" (when hasTube is
    false) and "decode_failed" (when passed is false), and "ok" when both
    flags are true.  Every emitted status is one of the five labels. *)
Theorem build_output_rows_scan_status (layout : layout_t) (scanner_data : wells_t) :
  (∀ position scanner_entry,
     scanner_data !! position = Some scanner_entry → scanner_entry ≠ []) →
  length (build_output_rows layout scanner_data) = length layout ∧
  ∀ i position sample_id,
    layout !! i = Some (position, sample_id) →
    ∃ scanner_result status,
      build_output_rows layout scanner_data !! i
      = Some (position, sample_id, scanner_result, status) ∧
      (scanner_data !! position = None → status = "no_scan") ∧
      (∀ scanner_entry,
         scanner_data !! position = Some scanner_entry →
         status = flag_status (entry_hasTube scanner_entry)
                    (entry_passed scanner_entry)) ∧
      (∀ result hasTube passed,
         scanner_data !! position = Some (well_entry result hasTube passed) →
         status = flag_status hasTube passed) ∧
      status ∈ statuses.
Proof.
  intros Hentries. unfold build_output_rows. split; [apply length_fmap|].
  intros i position sample_id Hi.
  destruct (ReconcileFacts.output_row_cases scanner_data position sample_id)
    as (scanner_result & status & Hrow & Hcases).
  exists scanner_result, status. rewrite list_lookup_fmap, Hi.
  cbn [fmap option_fmap option_map]. rewrite Hrow. split; [done|].
  destruct (scanner_data !! position) as [[|field scanner_entry]|] eqn:Hlook.
  - by destruct (Hentries position [] Hlook).
  - destruct Hcases as [_ ->]. split_and!.
    + done.
    + by intros ? [= <-].
    + intros result hasTube passed Heq.
      assert (field :: scanner_entry = well_entry result hasTube passed) as ->
        by congruence.
      by destruct hasTube, passed.
    + apply ReconcileFacts.flag_status_known.
  - destruct Hcases as [_ ->]. split_and!; [done..|].
    unfold statuses. set_solver.
Qed.

Lemma build_output_rows_scan_status_witness :
  ∃ scanner_result status,
    build_output_rows [("A01", "S1"); ("A02", "S2")]
      {["A01" := well_entry "R1" false true]} !! 0%nat
    = Some ("A01", "S1", scanner_result, status) ∧
    status = "empty".
Proof.
  assert (∀ position scanner_entry,
            ({["A01" := well_entry "R1" false true]} : wells_t) !! position
            = Some scanner_entry → scanner_entry ≠ []) as Hentries.
  { intros position scanner_entry [_ <-]%lookup_singleton_Some. discriminate. }
  destruct (proj2 (build_output_rows_scan_status [("A01", "S1"); ("A02", "S2")]
                     {["A01" := well_entry "R1" false true]} Hentries)
              0%nat "A01" "S1" eq_refl)
    as (scanner_result & status & Hrow & _ & _ & Hstatus & _).
  exists scanner_result, status. split; [exact Hrow|].
  exact (Hstatus "R1" false true eq_refl).
Defined.

(** The same on any map of mappings: an entry that is an empty mapping is
    falsy for [if not scanner_entry] and gets "no_scan" as an absent position
    does; missing flags count as false. *)
Theorem build_output_rows_status (layout : layout_t) (scanner_data : wells_t) :
  length (build_output_rows layout scanner_data) = length layout ∧
  ∀ i position sample_id,
    layout !! i = Some (position, sample_id) →
    ∃ scanner_result status,
      build_output_rows layout scanner_data !! i
      = Some (position, sample_id, scanner_result, status) ∧
      match scanner_data !! position with
      | None | Some [] => status = "no_scan"
      | Some scanner_entry =>
          status = flag_status (entry_hasTube scanner_entry)
                     (entry_passed scanner_entry)
      end ∧
      status ∈ statuses.
Proof.
  unfold build_output_rows. split; [apply length_fmap|].
  intros i position sample_id Hi.
  destruct (ReconcileFacts.output_row_cases scanner_data position sample_id)
    as (scanner_result & status & Hrow & Hcases).
  exists scanner_result, status. rewrite list_lookup_fmap, Hi.
  cbn [fmap option_fmap option_map]. rewrite Hrow. split; [done|].
  destruct (scanner_data !! position) as [[|field scanner_entry]|].
  - destruct Hcases as [_ ->]. split; [done|]. unfold statuses. set_solver.
  - destruct Hcases as [_ ->]. split; [done|]. apply ReconcileFacts.flag_status_known.
  - destruct Hcases as [_ ->]. split; [done|]. unfold statuses. set_solver.
Qed.

Lemma build_output_rows_status_witness :
  ∃ scanner_result status,
    build_output_rows [("A01", "S1"); ("A02", "S2")]
      {["A01" := well_entry "R1" true true]} !! 1%nat
    = Some ("A02", "S2", scanner_result, status) ∧
    status = "no_scan".
Proof.
  destruct (proj2 (build_output_rows_status [("A01", "S1"); ("A02", "S2")]
                     {["A01" := well_entry "R1" true true]})
              1%nat "A02" "S2" eq_refl)
    as (scanner_result & status & Hrow & Hstatus & _).
  exists scanner_result, status. split; [exact Hrow|exact Hstatus].
Defined.

(** A position that is present in the scan map with an empty entry gets
    "no_scan". *)
Lemma empty_entry_no_scan :
  ({["A01" := []]} : wells_t) !! "A01" = Some [] ∧
  build_output_rows [("A01", "S1")] {["A01" := []]}
  = [("A01", "S1", JStr "", "no_scan")].
Proof. split; reflexivity. Qed.

(** On the scan map returned by the extractor every present position has its
    status from the two flags. *)
Lemma build_output_rows_after_extract repr payload rack_id wells position sample_id :
  extract_scanner_results repr payload = Ok (rack_id, wells) →
  is_Some (wells !! position) →
  ∃ result hasTube passed,
    wells !! position = Some (well_entry result hasTube passed) ∧
    build_output_rows [(position, sample_id)] wells
    = [(position, sample_id, JStr result, flag_status hasTube passed)].
Proof.
  intros Hrun [scanner_entry Hlook].
  destruct (ReconcileFacts.extracted_entries _ _ _ _ _ _ Hrun Hlook)
    as (result & hasTube & passed & ->).
  exists result, hasTube, passed. split; [done|].
  unfold build_output_rows. simpl. rewrite Hlook.
  by destruct hasTube, passed.
Qed.

(** The end-to-end example of the reconciler. *)
Example build_output_rows_example :
  build_output_rows [("A01", "S1"); ("A02", "S2")]
    {["A01" := well_entry "R1" true true]}
  = [("A01", "S1", JStr "R1", "ok"); ("A02", "S2", JStr "", "no_scan")].
Proof. reflexivity. Qed.

(** ** The run *)

Module RunFacts.

Lemma main_Parsed repr w a fs :
  command_line w = Parsed a →
  main repr w fs =
  match prepare repr w a with
  | inl e => (inl (Exn e), fs)
  | inr (rows, output_path, extra) =>
      match write_output w rows output_path fs with
      | (inl s, fs') => (inl s, fs')
      | (inr _, fs') =>
          match print_fault w extra with
          | Some e => (inl (Exn (Builtin e)), fs')
          | None => (inr 0, fs')
          end
      end
  end.
Proof.
  intros Hcli. unfold main, prepare, parse_args, prog_bind, lift, ret, throw, bind.
  rewrite Hcli.
  destruct (read_layout (open_csv w (csv_path a))) as [e|layout]; [done|].
  destruct (load_payload w a) as [e|payload]; [done|].
  destruct (extract_scanner_results repr payload) as [e|scan]; [done|].
  destruct (decide (scan.1 ≠ stem (csv_path a))); [done|].
  cbn [Ok]. unfold Ok.
  destruct (write_output w _ _ fs) as [[s|[]] fs']; [done|].
  unfold print_fault, print, throw, ret.
  destruct (extra_positions layout scan.2) as [|position extra].
  - by destruct (report_print w).
  - destruct (warning_print w); [done|]. by destruct (report_print w).
Qed.

(** A builtin exception of [write_output] is never a [RackMismatchError]. *)
Lemma write_output_signal w rows output_path fs s fs' :
  write_output w rows output_path fs = (inl s, fs') →
  ∃ e, s = Exn (Builtin e).
Proof.
  unfold write_output. destruct (output_fault w); intros [= <- <-]; eauto.
Qed.

(** Only the comparison of the rack IDs raises [RackMismatchError]. *)
Lemma layout_loop_builtin rows : ∀ idx seen entries e,
  layout_loop idx rows seen entries = inl e → ∃ b, e = Builtin b.
Proof.
  induction rows as [|row rows IH]; intros idx seen entries e; simpl; [done|].
  destruct row as [|c0 [|c1 more]]; [apply IH|intros [= <-]; eauto|].
  destruct (PyStr.is_empty _); [intros [= <-]; eauto|].
  destruct (seen !! _) as [old|]; [|apply IH].
  destruct (decide _); [intros [= <-]; eauto|apply IH].
Qed.

Lemma read_layout_builtin file e :
  read_layout file = inl e → ∃ b, e = Builtin b.
Proof.
  unfold read_layout, bind, raise_builtin.
  destruct file as [e0|rows broken]; [intros [= <-]; eauto|].
  destruct (layout_loop 1 rows ∅ []) as [e1|final] eqn:Hloop.
  - intros [= <-]. by apply layout_loop_builtin in Hloop.
  - destruct broken; [intros [= <-]; eauto|].
    destruct final.2; [intros [= <-]; eauto|done].
Qed.

Lemma fetch_loop_builtin w methods : ∀ errors e,
  fetch_loop w methods errors = inl e → ∃ b, e = Builtin b.
Proof.
  induction methods as [|method methods IH]; intros errors e; simpl.
  - unfold raise_builtin. destruct (last errors); intros [= <-]; eauto.
  - destruct (bool_decide _); [|apply IH].
    destruct (transport w method); [apply IH|done].
Qed.

Lemma load_payload_builtin w a e :
  load_payload w a = inl e → ∃ b, e = Builtin b.
Proof.
  unfold load_payload, fetch_payload, raise_builtin.
  destruct (json_file a) as [f|]; [|apply fetch_loop_builtin].
  destruct (load_json_file w f); [intros [= <-]; eauto|done].
Qed.

Lemma extract_scanner_results_builtin repr payload e :
  extract_scanner_results repr payload = inl e → ∃ b, e = Builtin b.
Proof.
  rewrite extract_scanner_results_unfold. unfold raise_builtin.
  destruct (foldl _ _ _); [|intros [= <-]; eauto].
  destruct (decide _); [intros [= <-]; eauto|done].
Qed.

Lemma prepare_mismatch repr w a :
  command_line w = Parsed a →
  (∃ scanned expected, prepare repr w a = inl (RackMismatchError scanned expected))
  ↔ rack_mismatch repr w.
Proof.
  intros Hcli. unfold prepare, rack_mismatch, bind. split.
  - intros (scanned & expected & Hrun). exists a.
    destruct (read_layout _) as [e|layout] eqn:Hl.
    { apply read_layout_builtin in Hl as [b ->]. done. }
    destruct (load_payload w a) as [e|payload] eqn:Hp.
    { apply load_payload_builtin in Hp as [b ->]. done. }
    destruct (extract_scanner_results repr payload) as [e|[rack_id wells]] eqn:He.
    { apply extract_scanner_results_builtin in He as [b ->]. done. }
    exists layout, payload, rack_id, wells. simpl in Hrun.
    by destruct (decide (rack_id ≠ stem (csv_path a))).
  - intros (a' & layout & payload & rack_id & wells & Ha & Hl & Hp & He & Hne).
    rewrite Hcli in Ha. injection Ha as <-.
    rewrite Hl. simpl. rewrite Hp. simpl. rewrite He. simpl.
    rewrite decide_True by done. eauto.
Qed.

(** The exit status after a parsed command line. *)
Lemma script_Parsed repr w a fs :
  command_line w = Parsed a →
  script repr w fs =
  match prepare repr w a with
  | inl (RackMismatchError _ _) => (2, fs)
  | inl (Builtin _) => (1, fs)
  | inr (rows, output_path, extra) =>
      match output_fault w with
      | NoFault =>
          (match print_fault w extra with None => 0 | Some _ => 1 end,
           <[output_path := csv_header :: (row_cells <$> rows)]> fs)
      | OpenFails _ => (1, fs)
      | WriteFails written _ =>
          (1, <[output_path := take written (csv_header :: (row_cells <$> rows))]> fs)
      end
  end.
Proof.
  intros Hcli. unfold script. rewrite (main_Parsed _ _ _ _ Hcli).
  destruct (prepare repr w a) as [[e|scanned expected]|[[rows output_path] extra]];
    [done..|].
  unfold write_output. destruct (output_fault w); [|done..].
  by destruct (print_fault w extra).
Qed.

End RunFacts.

(** C5, as the code has it.  When the argument parser accepts the command
    line: the exit status is 2 exactly when the run gets as far as comparing
    the rack ID of the payload with the stem of the CSV file name and they
    differ; every other failure exits with 1; a run without failure exits
    with 0. *)
Theorem exit_status_after_parsing
    (repr : json → string) (w : world) (fs : files) (a : args) :
  command_line w = Parsed a →
  ((script repr w fs).1 = 2 ↔ rack_mismatch repr w) ∧
  ((∃ s fs', main repr w fs = (inl s, fs')) → ¬ rack_mismatch repr w →
   (script repr w fs).1 = 1) ∧
  ((∃ code fs', main repr w fs = (inr code, fs')) → (script repr w fs).1 = 0).
Proof.
  intros Hcli.
  pose proof (RunFacts.prepare_mismatch repr w a Hcli) as Hmis.
  pose proof (RunFacts.main_Parsed repr w a fs Hcli) as Hmain.
  rewrite (RunFacts.script_Parsed repr w a fs Hcli).
  destruct (prepare repr w a)
    as [[e|scanned expected]|[[rows output_path] extra]].
  - split_and!; [|done|].
    + split; [done|]. intros (? & ? & [=])%Hmis.
    + intros (code & fs' & H). congruence.
  - split_and!.
    + split; [|done]. intros _. apply Hmis. eauto.
    + intros _ Hno. destruct Hno. apply Hmis. eauto.
    + intros (code & fs' & H). congruence.
  - unfold write_output in Hmain.
    assert (¬ rack_mismatch repr w) as Hno by (intros (? & ? & [=])%Hmis).
    destruct (output_fault w); [destruct (print_fault w extra)|..]; simpl;
      (split_and!; [split; [done|]; intros; by destruct Hno | try done | try done]);
      intros (code & fs' & H); congruence.
Qed.

Lemma exit_status_after_parsing_witness :
  (script (λ _, "") mismatch_world ∅).1 = 2 ↔ rack_mismatch (λ _, "") mismatch_world.
Proof.
  exact (proj1 (exit_status_after_parsing (λ _, "") mismatch_world ∅ _ eq_refl)).
Defined.

(** A rejected command line exits with status 2 although no rack ID was
    compared. *)
Lemma usage_error_exits_2 :
  (script (λ _, "") usage_error_world ∅).1 = 2 ∧
  ¬ rack_mismatch (λ _, "") usage_error_world.
Proof.
  split; [reflexivity|].
  intros (a & layout & payload & rack_id & wells & Hcli & _). discriminate Hcli.
Qed.

(** C8, as the code has it.  A run that fails for one of the reasons the
    claim lists (the CSV does not load: malformed row, conflicting
    duplicates, no usable row; the payload cannot be obtained; the payload
    has no rack ID or no wells; the rack IDs differ) exits with a status
    other than 0 and leaves every file as it was: all of these are met before
    [write_output]. *)
Theorem failed_run_writes_nothing (repr : json → string) (w : world) (fs : files) :
  fails_before_writing repr w →
  (script repr w fs).1 ≠ 0 ∧ (script repr w fs).2 = fs.
Proof.
  intros (a & Hcli & Hfail).
  rewrite (RunFacts.script_Parsed repr w a fs Hcli).
  destruct (prepare repr w a) as [[e|scanned expected]|[[rows output_path] extra]]
    eqn:Hprep; [done..|].
  exfalso. unfold prepare, bind in Hprep.
  destruct Hfail as [[e He]|[[e He]|[(payload & Hp & [e He])|Hmis]]].
  - by rewrite He in Hprep.
  - destruct (read_layout _); [done|]. by rewrite He in Hprep.
  - destruct (read_layout _); [done|]. rewrite Hp in Hprep. simpl in Hprep.
    by rewrite He in Hprep.
  - destruct Hmis as (a' & layout & payload & rack_id & wells
                      & Ha & Hl & Hp & He & Hne).
    rewrite Hcli in Ha. injection Ha as <-.
    rewrite Hl in Hprep. simpl in Hprep. rewrite Hp in Hprep. simpl in Hprep.
    rewrite He in Hprep. simpl in Hprep.
    by rewrite decide_True in Hprep.
Qed.

Lemma failed_run_writes_nothing_witness :
  (script (λ _, "") mismatch_world ∅).1 ≠ 0 ∧
  (script (λ _, "") mismatch_world ∅).2 = ∅.
Proof.
  apply (failed_run_writes_nothing (λ _, "") mismatch_world ∅).
  eexists. split; [reflexivity|]. do 3 right.
  eexists _, [("A01", "S1")], skipped_rack_payload, "RACK7",
    {["A01" := well_entry "T1" true true]}.
  split_and!; [reflexivity|reflexivity|reflexivity|exact extract_example|].
  vm_compute. congruence.
Defined.

(** Not every failure is met before writing: when the report cannot be
    printed the run exits with status 1 and the output file has been written
    in full. *)
Lemma failed_run_after_writing :
  (script (λ _, "") unprintable_report_world ∅).1 = 1 ∧
  (script (λ _, "") unprintable_report_world ∅).2
  = {[ Path "racks" "RACK7_paired" ".csv" :=
         [csv_header;
          [JStr "A01"; JStr "S1"; JStr "T1"; JStr "ok"];
          [JStr "A02"; JStr "S2"; JStr ""; JStr "no_scan"]] ]} ∧
  (script (λ _, "") unprintable_report_world ∅).2 ≠ ∅.
Proof.
  split_and!; [reflexivity|reflexivity|].
  intros H. apply (f_equal (λ fs : files, fs !! Path "racks" "RACK7_paired" ".csv")) in H.
  vm_compute in H. discriminate H.
Qed.

(** The failing runs that change a file are those two: an error in the
    middle of writing, which leaves the rows written so far, and a [print]
    call that raises after the file was written. *)
Lemma failed_run_changes_files repr w fs :
  (script repr w fs).1 ≠ 0 →
  (script repr w fs).2 = fs ∨
  (∃ written e, output_fault w = WriteFails written e) ∨
  (output_fault w = NoFault ∧ (warning_print w ≠ None ∨ report_print w ≠ None)).
Proof.
  destruct (command_line w) as [a| |] eqn:Hcli.
  - rewrite (RunFacts.script_Parsed repr w a fs Hcli).
    destruct (prepare repr w a) as [[e|scanned expected]|[[rows output_path] extra]];
      [by left..|].
    destruct (output_fault w); [|by left|right; left; eauto].
    unfold print_fault.
    destruct extra as [|position extra]; simpl.
    + destruct (report_print w); [|done]. intros _. right; right. eauto.
    + destruct (warning_print w); [intros _; right; right; eauto|].
      destruct (report_print w); [|done]. intros _. right; right. eauto.
  - intros _. left. unfold script, main, parse_args, prog_bind, throw.
    by rewrite Hcli.
  - intros _. left. unfold script, main, parse_args, prog_bind, throw.
    by rewrite Hcli.
Qed.

(** The end-to-end run on a matching rack. *)
Example script_example :
  script (λ _, "")
    {| command_line :=
         Parsed {| csv_path := Path "racks" "RACK7" ".csv"; output := None;
                   url := ""; json_file := Some (Path "" "scan" ".json");
                   trust_env_proxies := false; backend := "auto" |};
       open_csv := λ _, CsvRows [["A1"; "S1"]; []; ["a02"; "S2"]] None;
       load_json_file := λ _, inr skipped_rack_payload;
       transport := λ _, inl (ConnectionError "unreachable");
       output_fault := NoFault;
       warning_print := None; report_print := None |} ∅
  = (0, {[ Path "racks" "RACK7_paired" ".csv" :=
             [csv_header;
              [JStr "A01"; JStr "S1"; JStr "T1"; JStr "ok"];
              [JStr "A02"; JStr "S2"; JStr ""; JStr "no_scan"]] ]}).
Proof. reflexivity. Qed.


(** * Further properties of the script *)

(** ** Position normalizer *)

Module NormalizeMore.
Import PyStr StrShape Pattern PyStrFacts RegexFacts NormalizeFacts.

Lemma length_app s t : String.length (s +:+ t) = (String.length s + String.length t)%nat.
Proof. induction s as [|c s IH]; [done|]. rewrite app_cons. simpl. by rewrite IH. Qed.

Lemma length_zeros n : String.length (zeros n) = n.
Proof. induction n as [|n IH]; simpl; [done|]. by rewrite IH. Qed.

Lemma normalize_fixed s : normalize_position (normalize_position s) = normalize_position s.
Proof.
  rewrite (normalize_position_unfold s).
  destruct (match_position (upper (strip s))) as [[letters digits]|] eqn:Hm.
  - apply match_position_Some in Hm as (Hl & Hup & Hd & Hne & Hn).
    rewrite normalize_position_unfold.
    rewrite (strip_plain _ (rebuilt_plain _ _ Hup Hd)).
    rewrite (upper_plain _ (rebuilt_plain _ _ Hup Hd)).
    by rewrite match_position_rebuilt.
  - rewrite normalize_position_unfold. by rewrite token_fixed, Hm.
Qed.

Lemma normalize_clean s :
  strip (normalize_position s) = normalize_position s ∧
  upper (normalize_position s) = normalize_position s.
Proof.
  rewrite (normalize_position_unfold s).
  destruct (match_position (upper (strip s))) as [[letters digits]|] eqn:Hm.
  - apply match_position_Some in Hm as (Hl & Hup & Hd & Hne & Hn).
    split; [apply strip_plain|apply upper_plain]; by apply rebuilt_plain.
  - split; [by rewrite strip_upper, strip_idem|apply upper_idem].
Qed.

Lemma plain_letters_digits letters digits :
  all is_upper letters = true → all is_digit digits = true →
  all is_plain (letters +:+ digits) = true.
Proof.
  intros Hl Hd. rewrite all_app.
  rewrite (all_impl is_upper is_plain letters), (all_impl is_digit is_plain digits);
    try done.
  all: intros c Hc; unfold is_plain; rewrite Hc; auto using orb_true_r.
Qed.

(** The groups of a token made of letters, any number of zeros and
    digits. *)
Lemma match_position_padded letters n digits :
  letters ≠ "" → all is_upper letters = true →
  digits ≠ "" → all is_digit digits = true →
  match_position (letters +:+ zeros n +:+ digits)
  = Some (letters, norm_digits digits).
Proof.
  intros Hl Hup Hne Hd. unfold match_position.
  assert (all is_digit (zeros n +:+ digits) = true) as Hpd
    by (by rewrite all_app, all_zeros, Hd).
  assert (zeros n +:+ digits ≠ "") as Hpne.
  { destruct n; [by rewrite app_empty_l|by simpl]. }
  rewrite span_app; [|done|].
  - apply is_empty_false in Hl as ->. apply is_empty_false in Hpne as ->.
    rewrite Hpd. simpl. unfold norm_digits. by rewrite drop_zeros_pad.
  - destruct (zeros n +:+ digits) as [|c t]; [done|]. simpl in Hpd.
    apply andb_true_iff in Hpd as [Hc _]. by apply digit_not_upper.
Qed.

Lemma normalize_padded letters n digits :
  letters ≠ "" → all is_upper letters = true →
  digits ≠ "" → all is_digit digits = true →
  normalize_position (letters +:+ zeros n +:+ digits)
  = letters +:+ zfill 2 (norm_digits digits).
Proof.
  intros Hl Hup Hne Hd. rewrite normalize_position_unfold.
  assert (all is_plain (letters +:+ zeros n +:+ digits) = true) as Hplain.
  { apply plain_letters_digits; [done|]. by rewrite all_app, all_zeros, Hd. }
  rewrite (strip_plain _ Hplain), (upper_plain _ Hplain).
  by rewrite match_position_padded.
Qed.

(** The groups can be read back from the normalized position. *)
Lemma rebuilt_inj l1 d1 l2 d2 :
  all is_upper l1 = true → all is_digit d1 = true → d1 ≠ "" → normal d1 →
  all is_upper l2 = true → all is_digit d2 = true → d2 ≠ "" → normal d2 →
  l1 +:+ zfill 2 d1 = l2 +:+ zfill 2 d2 → l1 = l2 ∧ d1 = d2.
Proof.
  intros Hu1 Hd1 Hn1 Hnorm1 Hu2 Hd2 Hn2 Hnorm2 Heq.
  assert (∀ l d, all is_upper l = true → all is_digit d = true → d ≠ "" →
            span is_upper (l +:+ zfill 2 d) = (l, zfill 2 d)) as Hspan.
  { intros l d Hu Hd Hn. apply span_app; [done|].
    rewrite zfill_digits by done.
    assert (all is_digit (zeros (2 - String.length d) +:+ d) = true) as Hall
      by (by rewrite all_app, all_zeros, Hd).
    destruct (zeros (2 - String.length d) +:+ d) as [|c t] eqn:E.
    - destruct (zeros _); [by rewrite app_empty_l in E|by rewrite app_cons in E].
    - simpl in Hall. apply andb_true_iff in Hall as [Hc _].
      by apply digit_not_upper. }
  pose proof (Hspan l1 d1 Hu1 Hd1 Hn1) as S1.
  pose proof (Hspan l2 d2 Hu2 Hd2 Hn2) as S2.
  rewrite Heq, S2 in S1. injection S1 as -> Hz. split; [done|].
  rewrite !zfill_digits in Hz by done.
  rewrite <- (norm_digits_pad (2 - String.length d1) d1 Hnorm1).
  rewrite <- (norm_digits_pad (2 - String.length d2) d2 Hnorm2).
  by rewrite Hz.
Qed.

End NormalizeMore.

(** X1.  A normalized position has no white space around it and no
    character that [str.upper] changes: stripping it or upper-casing it
    again changes nothing. *)
Theorem normalize_position_clean (raw : Unicode.ustring) :
  Unicode.strip (Unicode.normalize_position raw) = Unicode.normalize_position raw ∧
  Unicode.upper (Unicode.normalize_position raw) = Unicode.normalize_position raw.
Proof. apply UnicodeFacts.uni_normalize_clean. Qed.

(** X2.  [normalize_position] does not see the case of the letters or the
    white space around the token. *)
Theorem normalize_position_case_and_space (raw : Unicode.ustring) :
  Unicode.normalize_position (Unicode.upper raw) = Unicode.normalize_position raw ∧
  Unicode.normalize_position (Unicode.strip raw) = Unicode.normalize_position raw.
Proof.
  unfold Unicode.normalize_position. split.
  - by rewrite UnicodeFacts.uni_strip_upper, UnicodeFacts.uni_upper_idem.
  - by rewrite UnicodeFacts.uni_strip_idem.
Qed.

(** X3.  Zeros between the row letters and the column digits do not count:
    letters, any number of zeros and digits normalize like the letters and
    the digits alone. *)
Theorem normalize_position_leading_zeros (letters digits : string) (n : nat) :
  letters ≠ "" → PyStr.all PyStr.is_upper letters = true →
  digits ≠ "" → PyStr.all PyStr.is_digit digits = true →
  normalize_position (letters +:+ PyStr.zeros n +:+ digits)
  = normalize_position (letters +:+ digits).
Proof.
  intros Hl Hup Hne Hd.
  rewrite (NormalizeMore.normalize_padded letters n digits) by done.
  by rewrite <- (NormalizeMore.normalize_padded letters 0 digits).
Qed.

Lemma normalize_position_leading_zeros_witness :
  normalize_position ("H" +:+ PyStr.zeros 3 +:+ "7") = normalize_position ("H" +:+ "7").
Proof.
  apply (normalize_position_leading_zeros "H" "7" 3); (reflexivity || discriminate).
Defined.

(** X4.  When the token matches the pattern, the normalized position is the
    row letters (in [[A-Z]], at least one) followed by a column of digits
    that is at least two characters long. *)
Theorem normalize_position_matched_shape (raw letters digits : Unicode.ustring) :
  Unicode.fullmatch_position (Unicode.upper (Unicode.strip raw))
  = Some (letters, digits) →
  Unicode.normalize_position raw = letters ++ Unicode.zfill 2 digits ∧
  letters ≠ [] ∧ forallb Unicode.is_upper letters = true ∧
  forallb Unicode.is_digit (Unicode.zfill 2 digits) = true ∧
  (2 ≤ length (Unicode.zfill 2 digits))%nat.
Proof.
  intros Hm. unfold Unicode.normalize_position. rewrite Hm.
  rewrite UnicodeFacts.uni_fullmatch_position_spec in Hm.
  apply UnicodeFacts.uni_match_position_Some in Hm as (Hl & Hup & Hd & Hne & Hn).
  split_and!; try done.
  - rewrite UnicodeFacts.uni_zfill_digits, forallb_app by done.
    by rewrite UnicodeFacts.uni_all_zeros, Hd.
  - rewrite UnicodeFacts.uni_zfill_digits by done.
    rewrite length_app, length_replicate. lia.
Qed.

Lemma normalize_position_matched_shape_witness :
  Unicode.normalize_position [32; 223; 1639]%N
  = [83; 83]%N ++ Unicode.zfill 2 [1639]%N.
Proof.
  assert (Unicode.fullmatch_position (Unicode.upper (Unicode.strip [32; 223; 1639]%N))
          = Some ([83; 83]%N, [1639]%N)) as Hm by (by vm_compute).
  exact (proj1 (normalize_position_matched_shape _ _ _ Hm)).
Defined.

(** X5.  Two tokens that match the pattern normalize to the same position
    only if they have the same row letters and the same column digits once
    the zeros in front are dropped. *)
Theorem normalize_position_no_collision
    (raw1 raw2 : Unicode.ustring) (groups1 groups2 : Unicode.ustring * Unicode.ustring) :
  Unicode.fullmatch_position (Unicode.upper (Unicode.strip raw1)) = Some groups1 →
  Unicode.fullmatch_position (Unicode.upper (Unicode.strip raw2)) = Some groups2 →
  Unicode.normalize_position raw1 = Unicode.normalize_position raw2 →
  groups1 = groups2.
Proof.
  intros H1 H2. unfold Unicode.normalize_position. rewrite H1, H2.
  destruct groups1 as [l1 d1], groups2 as [l2 d2].
  rewrite UnicodeFacts.uni_fullmatch_position_spec in H1, H2.
  apply UnicodeFacts.uni_match_position_Some in H1 as (_ & Hu1 & Hd1 & Hn1 & Hnorm1).
  apply UnicodeFacts.uni_match_position_Some in H2 as (_ & Hu2 & Hd2 & Hn2 & Hnorm2).
  intros Heq.
  destruct (UnicodeFacts.uni_rebuilt_inj l1 d1 l2 d2) as [-> ->]; done.
Qed.

Lemma normalize_position_no_collision_witness :
  (Unicode.of_string "A", [1633]%N) = (Unicode.of_string "A", [1633]%N).
Proof.
  assert (Unicode.fullmatch_position
            (Unicode.upper (Unicode.strip (Unicode.of_string "a" ++ [1633]%N)))
          = Some (Unicode.of_string "A", [1633]%N)) as H1 by (by vm_compute).
  assert (Unicode.fullmatch_position
            (Unicode.upper (Unicode.strip ([160; 65; 48; 48]%N ++ [1633]%N)))
          = Some (Unicode.of_string "A", [1633]%N)) as H2 by (by vm_compute).
  assert (Unicode.normalize_position (Unicode.of_string "a" ++ [1633]%N)
          = Unicode.normalize_position ([160; 65; 48; 48]%N ++ [1633]%N)) as Heq
    by (by vm_compute).
  exact (normalize_position_no_collision _ _ _ _ H1 H2 Heq).
Defined.

(** ** Layout loader *)

Module LayoutMore.
Import PyStr PyStrFacts NormalizeFacts.

(** A row the loop accepts: blank, or two columns with a position. *)
Definition usable (row : list string) : Prop :=
  row = [] ∨ ∃ c0 c1 more, row = c0 :: c1 :: more ∧ strip c0 ≠ "".

Lemma layout_loop_entries rows : ∀ idx seen entries seen' entries',
  layout_loop idx rows seen entries = Ok (seen', entries') →
  entries' = entries ++ (row_entry <$> filter nonblank rows) ∧
  Forall usable rows.
Proof.
  induction rows as [|row rows IH]; intros idx seen entries seen' entries' Hrun.
  - injection Hrun as <- <-. by rewrite app_nil_r.
  - cbn [layout_loop] in Hrun. destruct row as [|c0 [|c1 more]].
    + apply IH in Hrun as [-> Hall]. split; [|constructor; [by left|done]].
      by rewrite filter_cons_False by (by intros []).
    + done.
    + destruct (is_empty (strip c0)) eqn:Hpos; [done|].
      apply is_empty_false in Hpos.
      assert (layout_loop (S idx) rows
                (<[normalize_position (strip c0) := strip c1]> seen)
                (entries ++ [(normalize_position (strip c0), strip c1)])
              = Ok (seen', entries')) as Hrest.
      { destruct (seen !! _); [|done]. by destruct (decide _). }
      apply IH in Hrest as [-> Hall]. split.
      * rewrite filter_cons_True by done. by rewrite <- app_assoc.
      * constructor; [|done]. right. by exists c0, c1, more.
Qed.

Lemma upper_nonempty s : s ≠ "" → upper s ≠ "".
Proof. by destruct s. Qed.

Lemma normalize_nonempty s : strip s ≠ "" → normalize_position s ≠ "".
Proof.
  intros Hs. rewrite normalize_position_unfold.
  destruct (Pattern.match_position _) as [[letters digits]|] eqn:Hm.
  - apply match_position_Some in Hm as (Hl & _). by destruct letters.
  - by apply upper_nonempty.
Qed.

(** Where the loop raises, and why. *)
Lemma layout_loop_raises rows : ∀ idx seen entries e,
  layout_loop idx rows seen entries = inl e →
  ∃ i row, rows !! i = Some row ∧ Forall usable (take i rows) ∧
    ((e = Builtin (ValueError (FewerThanTwoColumns (idx + i) row)) ∧ length row = 1%nat)
     ∨ (e = Builtin (ValueError (MissingPosition (idx + i))) ∧
        ∃ c0 c1 more, row = c0 :: c1 :: more ∧ strip c0 = "")
     ∨ (∃ position old new,
          e = Builtin (ValueError (DuplicatePosition position old new)) ∧
          old ≠ new ∧ row_entry row = (position, new) ∧ (2 ≤ length row)%nat)).
Proof.
  induction rows as [|row rows IH]; intros idx seen entries e Hrun; [done|].
  cbn [layout_loop] in Hrun.
  assert (∀ seen0 entries0,
            layout_loop (S idx) rows seen0 entries0 = inl e → usable row →
            ∃ i row0, (row :: rows) !! i = Some row0 ∧
              Forall usable (take i (row :: rows)) ∧
              ((e = Builtin (ValueError (FewerThanTwoColumns (idx + i) row0))
                ∧ length row0 = 1%nat)
               ∨ (e = Builtin (ValueError (MissingPosition (idx + i))) ∧
                  ∃ c0 c1 more, row0 = c0 :: c1 :: more ∧ strip c0 = "")
               ∨ (∃ position old new,
                    e = Builtin (ValueError (DuplicatePosition position old new)) ∧
                    old ≠ new ∧ row_entry row0 = (position, new)
                    ∧ (2 ≤ length row0)%nat))) as Hlater.
  { intros seen0 entries0 Hrest Hrow.
    apply IH in Hrest as (i & row0 & Hi & Hok & Hwhy).
    exists (S i), row0. split; [done|]. split; [by constructor|].
    by replace (idx + S i)%nat with (S idx + i)%nat by lia. }
  destruct row as [|c0 [|c1 more]].
  - eapply Hlater; [done|by left].
  - injection Hrun as <-. exists 0%nat, [c0]. split_and!; [done|constructor|].
    left. by rewrite Nat.add_0_r.
  - destruct (is_empty (strip c0)) eqn:Hpos.
    + injection Hrun as <-. apply is_empty_true in Hpos.
      exists 0%nat, (c0 :: c1 :: more). split_and!; [done|constructor|].
      right; left. rewrite Nat.add_0_r. split; [done|]. by exists c0, c1, more.
    + apply is_empty_false in Hpos.
      assert (usable (c0 :: c1 :: more)) as Hrow by (right; by exists c0, c1, more).
      destruct (seen !! _) as [old|] eqn:Hseen; [|by eapply Hlater].
      destruct (decide (old ≠ strip c1)) as [Hne|]; [|by eapply Hlater].
      injection Hrun as <-.
      exists 0%nat, (c0 :: c1 :: more). split_and!; [done|constructor|].
      do 2 right. exists (normalize_position (strip c0)), old, (strip c1).
      split_and!; try done. simpl. lia.
Qed.

(** What [seen] holds comes from a row met before. *)
Lemma layout_loop_duplicate rows : ∀ before idx seen entries position old new,
  (∀ k v, seen !! k = Some v →
          ∃ row, row ∈ before ∧ (2 ≤ length row)%nat ∧ row_entry row = (k, v)) →
  layout_loop idx rows seen entries
  = inl (Builtin (ValueError (DuplicatePosition position old new))) →
  ∃ row1 row2,
    row1 ∈ before ++ rows ∧ row2 ∈ rows ∧
    (2 ≤ length row1)%nat ∧ (2 ≤ length row2)%nat ∧
    row_entry row1 = (position, old) ∧ row_entry row2 = (position, new).
Proof.
  induction rows as [|row rows IH];
    intros before idx seen entries position old new Hseen Hrun; [done|].
  cbn [layout_loop] in Hrun.
  assert (∀ seen0 entries0,
            (∀ k v, seen0 !! k = Some v →
               ∃ r, r ∈ before ++ [row] ∧ (2 ≤ length r)%nat ∧ row_entry r = (k, v)) →
            layout_loop (S idx) rows seen0 entries0
            = inl (Builtin (ValueError (DuplicatePosition position old new))) →
            ∃ row1 row2,
              row1 ∈ before ++ row :: rows ∧ row2 ∈ row :: rows ∧
              (2 ≤ length row1)%nat ∧ (2 ≤ length row2)%nat ∧
              row_entry row1 = (position, old) ∧ row_entry row2 = (position, new))
    as Hlater.
  { intros seen0 entries0 Hseen0 Hrest.
    destruct (IH (before ++ [row]) _ _ _ _ _ _ Hseen0 Hrest)
      as (row1 & row2 & H1 & H2 & Hrest').
    exists row1, row2. rewrite <- app_assoc in H1.
    split; [done|]. split; [by apply list_elem_of_further|done]. }
  assert (∀ k v, seen !! k = Some v →
            ∃ r, r ∈ before ++ [row] ∧ (2 ≤ length r)%nat ∧ row_entry r = (k, v))
    as Hseen_keep.
  { intros k v Hk. destruct (Hseen k v Hk) as (r & Hr & Hlen & Hent).
    exists r. split; [|done]. apply elem_of_app. by left. }
  destruct row as [|c0 [|c1 more]]; [by eapply Hlater|done|].
  destruct (is_empty (strip c0)); [done|].
  assert (∀ k v, <[normalize_position (strip c0) := strip c1]> seen !! k = Some v →
            ∃ r, r ∈ before ++ [c0 :: c1 :: more] ∧ (2 ≤ length r)%nat
                 ∧ row_entry r = (k, v)) as Hseen_new.
  { intros k v Hk. destruct (decide (normalize_position (strip c0) = k)) as [<-|Hne].
    - rewrite lookup_insert_eq in Hk. injection Hk as <-.
      exists (c0 :: c1 :: more). split_and!; [|simpl; lia|done].
      apply elem_of_app. right. apply list_elem_of_here.
    - rewrite lookup_insert_ne in Hk by done. by apply Hseen_keep. }
  destruct (seen !! _) as [old0|] eqn:Hlook; [|by eapply Hlater].
  destruct (decide (old0 ≠ strip c1)) as [Hne|]; [|by eapply Hlater].
  injection Hrun as <- <- <-.
  destruct (Hseen _ _ Hlook) as (r & Hr & Hlen & Hent).
  exists r, (c0 :: c1 :: more). split_and!; try done.
  - apply elem_of_app. by left.
  - apply list_elem_of_here.
  - simpl. lia.
Qed.

Lemma read_layout_raise_loop rows broken why :
  read_layout (CsvRows rows broken) = raise_builtin (ValueError why) →
  why ≠ NoUsableData → broken ≠ Some (ValueError why) →
  layout_loop 1 rows ∅ [] = inl (Builtin (ValueError why)).
Proof.
  unfold read_layout, bind, raise_builtin.
  destruct (layout_loop 1 rows ∅ []) as [e|final]; [by intros [= ->]|].
  destruct broken as [b|]; [intros [= ->]; done|].
  destruct final.2; [intros [= <-]; done|done].
Qed.

End LayoutMore.

(** X6.  When the layout loads, it has one entry per non-blank row, in the
    order of the rows: the normalized first column with the stripped second
    column; it is not empty and the reader met no error. *)
Theorem read_layout_entries (rows : list (list string)) (broken : option builtin_exn)
    (entries : layout_t) :
  read_layout (CsvRows rows broken) = Ok entries →
  entries = row_entry <$> filter nonblank rows ∧ entries ≠ [] ∧ broken = None.
Proof.
  unfold read_layout, bind.
  destruct (layout_loop 1 rows ∅ []) as [e|[seen ents]] eqn:Hloop; [done|].
  apply LayoutMore.layout_loop_entries in Hloop as [-> _]. simpl.
  destruct broken; [done|].
  destruct (row_entry <$> filter nonblank rows) eqn:E; [done|].
  intros [= <-]. done.
Qed.

Lemma read_layout_entries_witness :
  [("A01", "S1"); ("B12", "S2")]
  = row_entry <$> filter nonblank [["a1"; " S1 "]; []; ["B012"; "S2"; "note"]].
Proof.
  exact (proj1 (read_layout_entries
                  [["a1"; " S1 "]; []; ["B012"; "S2"; "note"]] None _ eq_refl)).
Defined.

(** X7.  In a loaded layout two entries with the same position have the
    same sample ID.  When the cells of the file are ASCII text, every
    position of the layout is normalized and not empty, and every sample ID
    is stripped. *)
Theorem read_layout_invariant
    (rows : list (list string)) (broken : option builtin_exn) (entries : layout_t) :
  read_layout (CsvRows rows broken) = Ok entries →
  (∀ position sample1 sample2,
     (position, sample1) ∈ entries → (position, sample2) ∈ entries →
     sample1 = sample2) ∧
  (Forall (Forall (λ cell, PyStr.isascii cell = true)) rows →
   ∀ position sample_id, (position, sample_id) ∈ entries →
     normalize_position position = position ∧ position ≠ "" ∧
     PyStr.strip sample_id = sample_id ∧
     Unicode.normalize_position (Unicode.of_string position)
     = Unicode.of_string position).
Proof.
  intros Hrun.
  destruct (LayoutFacts.read_layout_Ok _ _ _ Hrun) as [seen Hloop].
  destruct (LayoutMore.layout_loop_entries _ _ _ _ _ _ Hloop) as [Hents Hall].
  apply LayoutFacts.layout_loop_seen in Hloop as [_ Hseen].
  simpl in Hents. rewrite Forall_forall in Hall.
  assert (∀ position sample_id, (position, sample_id) ∈ entries →
            ∃ c0 c1 more, c0 :: c1 :: more ∈ rows ∧ PyStr.strip c0 ≠ "" ∧
              position = normalize_position (PyStr.strip c0) ∧
              sample_id = PyStr.strip c1) as Horigin.
  { intros position sample_id Hin. rewrite Hents in Hin.
    apply list_elem_of_fmap in Hin as (row & Hrow & Hin).
    apply list_elem_of_filter in Hin as [Hnb Hin].
    destruct (Hall row Hin) as [->|(c0 & c1 & more & -> & Hpos)]; [done|].
    injection Hrow as -> ->. by exists c0, c1, more. }
  split.
  - intros position sample1 sample2
      (c0 & c1 & more & Hin & _ & -> & ->)%Horigin
      (d0 & d1 & more' & Hin' & _ & Hsame & ->)%Horigin.
    pose proof (Hseen _ _ _ Hin) as E1. pose proof (Hseen _ _ _ Hin') as E2.
    rewrite <- Hsame in E2. congruence.
  - intros Hascii position sample_id
      (c0 & c1 & more & Hrow & Hpos & -> & ->)%Horigin.
    split_and!.
    + apply NormalizeMore.normalize_fixed.
    + apply LayoutMore.normalize_nonempty. by rewrite PyStrFacts.strip_idem.
    + apply PyStrFacts.strip_idem.
    + rewrite Forall_forall in Hascii. apply Hascii in Hrow.
      apply Forall_cons in Hrow as [Hc0 _].
      apply AsciiFacts.strip_of_string in Hc0 as [_ Hc0].
      rewrite AsciiFacts.normalize_position_ascii
        by (by apply AsciiFacts.normalize_position_isascii).
      by rewrite NormalizeMore.normalize_fixed.
Qed.

Lemma read_layout_invariant_witness :
  normalize_position "A01" = "A01" ∧ "A01" ≠ "" ∧ PyStr.strip "S1" = "S1" ∧
  Unicode.normalize_position (Unicode.of_string "A01") = Unicode.of_string "A01".
Proof.
  assert (Forall (Forall (λ cell, PyStr.isascii cell = true))
            [["a1"; " S1 "]; ["A001"; "S1"]]) as Hascii
    by (repeat constructor).
  apply (proj2 (read_layout_invariant [["a1"; " S1 "]; ["A001"; "S1"]] None
                  [("A01", "S1"); ("A01", "S1")] eq_refl) Hascii "A01" "S1").
  apply list_elem_of_here.
Defined.

(** X8.  A "fewer than two columns" or "missing position" error names the
    1-based number of the first row that the loader cannot use: that row has
    one column, respectively a blank first column, and every row before it is
    blank or usable. *)
Theorem read_layout_error_row (rows : list (list string)) (idx : nat) :
  (∀ row,
     read_layout (CsvRows rows None)
     = raise_builtin (ValueError (FewerThanTwoColumns idx row)) →
     (1 ≤ idx)%nat ∧ rows !! (idx - 1)%nat = Some row ∧ length row = 1%nat ∧
     Forall LayoutMore.usable (take (idx - 1) rows)) ∧
  (read_layout (CsvRows rows None) = raise_builtin (ValueError (MissingPosition idx)) →
   (1 ≤ idx)%nat ∧
   (∃ c0 c1 more, rows !! (idx - 1)%nat = Some (c0 :: c1 :: more) ∧ PyStr.strip c0 = "") ∧
   Forall LayoutMore.usable (take (idx - 1) rows)).
Proof.
  split.
  - intros row Hrun. apply LayoutMore.read_layout_raise_loop in Hrun; [|done..].
    apply LayoutMore.layout_loop_raises in Hrun
      as (i & row0 & Hi & Hok & [[[= -> ->] Hlen]|[[[=] _]|(? & ? & ? & [=] & _)]]).
    cbn [Nat.add]. replace (S i - 1)%nat with i by lia. split_and!; [lia|done..].
  - intros Hrun. apply LayoutMore.read_layout_raise_loop in Hrun; [|done..].
    apply LayoutMore.layout_loop_raises in Hrun
      as (i & row0 & Hi & Hok & [[[=] _]|[[[= ->] Hrow]|(? & ? & ? & [=] & _)]]).
    cbn [Nat.add]. replace (S i - 1)%nat with i by lia.
    destruct Hrow as (c0 & c1 & more & -> & Hpos).
    split_and!; [lia| |done]. by exists c0, c1, more.
Qed.

Lemma read_layout_error_row_witness :
  [["a1"; "S1"]; []; ["b2"]] !! (3 - 1)%nat = Some ["b2"].
Proof.
  exact (proj1 (proj2 (proj1 (read_layout_error_row [["a1"; "S1"]; []; ["b2"]] 3)
                         ["b2"] eq_refl))).
Defined.

(** X9.  A "duplicate position" error is raised only for a real conflict:
    the two sample IDs it names differ and belong to two rows of the file
    with that normalized position. *)
Theorem read_layout_duplicate_error (rows : list (list string))
    (position old new : string) :
  read_layout (CsvRows rows None)
  = raise_builtin (ValueError (DuplicatePosition position old new)) →
  old ≠ new ∧
  ∃ row1 row2,
    row1 ∈ rows ∧ row2 ∈ rows ∧
    (2 ≤ length row1)%nat ∧ (2 ≤ length row2)%nat ∧
    row_entry row1 = (position, old) ∧ row_entry row2 = (position, new).
Proof.
  intros Hrun. apply LayoutMore.read_layout_raise_loop in Hrun; [|done..].
  split.
  - apply LayoutMore.layout_loop_raises in Hrun
      as (i & row0 & _ & _ & [[[=] _]|[[[=] _]|(p & o & n & [= -> -> ->] & Hne & _)]]).
    done.
  - apply (LayoutMore.layout_loop_duplicate rows []) in Hrun; [done|].
    intros k v Hk. by rewrite lookup_empty in Hk.
Qed.

Lemma read_layout_duplicate_error_witness : "S1" ≠ "S2".
Proof.
  exact (proj1 (read_layout_duplicate_error [["A1"; "S1"]; ["a01"; "S2"]]
                  "A01" "S1" "S2" eq_refl)).
Defined.

(** X10.  A file without any non-blank row does not load: the loader raises
    the error of the reader when there is one, and "no usable data"
    otherwise. *)
Theorem read_layout_blank_file (rows : list (list string)) (broken : option builtin_exn) :
  Forall (λ row, row = []) rows →
  read_layout (CsvRows rows broken)
  = raise_builtin (default (ValueError NoUsableData) broken).
Proof.
  intros Hblank. unfold read_layout, bind.
  assert (∀ idx, layout_loop idx rows ∅ [] = Ok (∅, [])) as ->.
  { induction Hblank as [|row rows -> _ IH]; intros idx; [done|]. apply IH. }
  simpl. by destruct broken.
Qed.

Lemma read_layout_blank_file_witness :
  read_layout (CsvRows [[]; []] None) = raise_builtin (ValueError NoUsableData).
Proof.
  apply (read_layout_blank_file [[]; []] None). repeat constructor.
Defined.

(** ** Payload tree walker *)

Module WalkerMore.
Import Walk WalkerFacts.

Lemma nodes_list items : nodes (JList items) = JList items :: (items ≫= nodes).
Proof. reflexivity. Qed.

Lemma nodes_dict fields :
  nodes (JDict fields) = JDict fields :: (dict_values fields ≫= nodes).
Proof.
  simpl. f_equal. unfold dict_values.
  induction fields as [|kv fields IH]; [done|].
  rewrite fmap_cons, bind_cons. by rewrite <- IH.
Qed.

Lemma filter_bind {A B} (P : B → Prop) `{∀ y, Decision (P y)} (f : A → list B) l :
  filter P (l ≫= f) = l ≫= (λ x, filter P (f x)).
Proof.
  induction l as [|x l IH]; [done|].
  by rewrite !bind_cons, filter_app, IH.
Qed.

Lemma bind_Permutation_pointwise {A B} (f g : A → list B) l :
  Forall (λ x, f x ≡ₚ g x) l → l ≫= f ≡ₚ l ≫= g.
Proof.
  induction 1 as [|x l Hx _ IH]; [done|].
  rewrite !bind_cons. by rewrite Hx, IH.
Qed.

Lemma bind_reverse_Permutation {A B} (f : A → list B) l :
  reverse l ≫= f ≡ₚ l ≫= f.
Proof.
  induction l as [|x l IH]; [done|].
  rewrite reverse_cons, bind_app, bind_cons, IH. simpl.
  rewrite app_nil_r. apply Permutation_app_comm.
Qed.

Lemma yields_Permutation v :
  yields v ≡ₚ filter (λ x, is_decode_node x = true) (nodes v).
Proof.
  induction v as [| | | | |items IH|fields IH] using json_nested_ind;
    try (by vm_compute).
  - rewrite yields_list, nodes_list, filter_cons_False by done.
    rewrite bind_reverse_Permutation, filter_bind.
    by apply bind_Permutation_pointwise.
  - rewrite yields_dict, nodes_dict, bind_reverse_Permutation.
    assert (dict_values fields ≫= yields
            ≡ₚ filter (λ y, is_decode_node y = true)
                 (dict_values fields ≫= nodes)) as Hkids.
    { rewrite filter_bind. apply bind_Permutation_pointwise. unfold dict_values.
      by apply Forall_fmap. }
    destruct (has_decode fields) eqn:Hd.
    + rewrite filter_cons_True by done. simpl. by rewrite Hkids.
    + rewrite filter_cons_False by (simpl; congruence). done.
Qed.

End WalkerMore.

(** X11.  The walker yields every decode node of the payload once per
    occurrence: its output is a permutation of the decode nodes among all
    nodes of the value in document order. *)
Theorem iter_decode_items_each_once (node : json) :
  iter_decode_items node
  ≡ₚ filter (λ x, Walk.is_decode_node x = true) (nodes node).
Proof.
  rewrite WalkerFacts.iter_decode_items_yields.
  apply WalkerMore.yields_Permutation.
Qed.

(** X12.  The order of the walk: a value that is neither list nor mapping
    yields nothing; a list yields what its elements yield, last element
    first; a mapping yields itself when it is a decode node and then what its
    values yield, last value first. *)
Theorem iter_decode_items_order :
  (∀ items,
     iter_decode_items (JList items) = reverse items ≫= iter_decode_items) ∧
  (∀ fields,
     iter_decode_items (JDict fields)
     = (if has_decode fields then [JDict fields] else [])
       ++ (reverse (dict_values fields) ≫= iter_decode_items)) ∧
  (∀ v, (∀ items, v ≠ JList items) → (∀ fields, v ≠ JDict fields) →
        iter_decode_items v = []).
Proof.
  assert (∀ l : list json, l ≫= iter_decode_items = l ≫= Walk.yields) as Hbind.
  { intros l. induction l as [|x l IH]; [done|].
    by rewrite !bind_cons, IH, WalkerFacts.iter_decode_items_yields. }
  split_and!.
  - intros items. by rewrite Hbind, WalkerFacts.iter_decode_items_yields,
      WalkerFacts.yields_list.
  - intros fields. by rewrite Hbind, WalkerFacts.iter_decode_items_yields,
      WalkerFacts.yields_dict.
  - intros v Hl Hd. destruct v; try done; [by destruct (Hl items)|by destruct (Hd fields)].
Qed.

Lemma iter_decode_items_order_witness : iter_decode_items (JStr "scan") = [].
Proof.
  apply (proj2 (proj2 iter_decode_items_order) (JStr "scan")); discriminate.
Defined.

(** ** Scanner result extractor *)

Module ExtractMore.
Import Walk Extract WalkerFacts ExtractFacts PyStrFacts.

(** An entry of the wells comes from a well node with that key. *)
Lemma wells_fold_origin repr items k scanner_entry :
  foldl (wells_step repr) ∅ items !! k = Some scanner_entry →
  ∃ item, item ∈ items ∧ well_node repr item = true ∧
          well_key repr item = k ∧ scanner_entry = well_value repr item.
Proof.
  rewrite wells_fold_lookup.
  destruct (last _) as [item|] eqn:Hlast; [|by rewrite lookup_empty].
  intros [= <-]. apply last_Some_elem_of, list_elem_of_filter in Hlast
    as [[Hw Hk] Hin].
  by exists item.
Qed.

Lemma rack_fold_origin repr items rack_id :
  foldl (rack_step repr) None items = Some rack_id →
  ∃ item, item ∈ items ∧ rack_node item = true ∧ rack_id = result_text repr item.
Proof.
  rewrite rack_fold_None.
  destruct (list_find _ items) as [[i item]|] eqn:Hfind; [|done].
  intros [= <-]. apply list_find_Some in Hfind as (Hi & Hnode & _).
  exists item. split; [by eapply list_elem_of_lookup_2|done].
Qed.

Lemma position_raw_stripped repr item :
  PyStr.strip (position_raw_of repr item) = position_raw_of repr item.
Proof.
  unfold position_raw_of. destruct item; try done. apply strip_idem.
Qed.

End ExtractMore.

Import Extract.

(** X13.  The extractor raises nothing but its two errors, whatever the
    JSON value: "no rack ID" exactly when no yielded node is a type-2 node
    with a truthy result, and "no well entries" exactly when there is such a
    node but no type-1 node with a truthy result and a non-blank id. *)
Theorem extract_scanner_results_errors (repr : json → string) (payload : json) :
  (extract_scanner_results repr payload = raise_builtin (ValueError NoRackId) ↔
   ∀ item, item ∈ iter_decode_items payload → rack_node item = false) ∧
  (extract_scanner_results repr payload = raise_builtin (ValueError NoWellEntries) ↔
   (∃ item, item ∈ iter_decode_items payload ∧ rack_node item = true) ∧
   ∀ item, item ∈ iter_decode_items payload → well_node repr item = false) ∧
  (∀ e, extract_scanner_results repr payload = inl e →
        e = Builtin (ValueError NoRackId) ∨ e = Builtin (ValueError NoWellEntries)).
Proof.
  rewrite ExtractFacts.extract_scanner_results_unfold, ExtractFacts.rack_fold_None.
  set (items := iter_decode_items payload).
  destruct (list_find (λ x, rack_node x = true) items) as [[i node]|] eqn:Hfind;
    simpl.
  - apply list_find_Some in Hfind as (Hi%list_elem_of_lookup_2 & Hnode & _).
    destruct (decide _) as [Hsz|Hsz].
    + apply map_size_empty_iff, ExtractFacts.wells_fold_empty in Hsz as [_ Hnone].
      rewrite Forall_forall in Hnone. split_and!.
      * split; [done|]. intros Hno. by rewrite (Hno node Hi) in Hnode.
      * split; [|done]. intros _. split; [by exists node|done].
      * intros e [= <-]. by right.
    + split_and!.
      * split; [done|]. intros Hno. by rewrite (Hno node Hi) in Hnode.
      * split; [done|]. intros [_ Hnone]. destruct Hsz.
        apply map_size_empty_iff, ExtractFacts.wells_fold_empty.
        split; [done|]. by apply Forall_forall.
      * done.
  - apply list_find_None in Hfind. rewrite Forall_forall in Hfind. split_and!.
    + split; [|done]. intros _ item Hin. apply not_true_is_false. by apply Hfind.
    + split; [done|]. intros [(item & Hin & Hr) _]. by destruct (Hfind item Hin).
    + intros e [= <-]. by left.
Qed.

Lemma extract_scanner_results_errors_witness :
  Builtin (ValueError NoWellEntries) = Builtin (ValueError NoRackId) ∨
  Builtin (ValueError NoWellEntries) = Builtin (ValueError NoWellEntries).
Proof.
  exact (proj2 (proj2 (extract_scanner_results_errors (λ _, "")
                         (JList [scan_node 2 "" "RACK7"])))
           (Builtin (ValueError NoWellEntries)) eq_refl).
Defined.

(** ** Reconciler *)

(** X15.  On the wells returned by the extractor, a layout position that was
    scanned gets the scanned result string in its row, and its status is
    decided by the two booleans of the record alone: "ok", "empty",
    "decode_failed" or "empty,decode_failed". *)
Theorem build_output_rows_on_extracted
    (repr : json → string) (payload : json) (rack_id : string) (wells : wells_t)
    (layout : layout_t) (i : nat) (position sample_id : string) :
  extract_scanner_results repr payload = Ok (rack_id, wells) →
  layout !! i = Some (position, sample_id) →
  is_Some (wells !! position) →
  ∃ result hasTube passed,
    wells !! position = Some (well_entry result hasTube passed) ∧
    build_output_rows layout wells !! i
    = Some (position, sample_id, JStr result, flag_status hasTube passed).
Proof.
  intros Hrun Hi [scanner_entry Hlook].
  destruct (ReconcileFacts.extracted_entries _ _ _ _ _ _ Hrun Hlook)
    as (result & hasTube & passed & ->).
  exists result, hasTube, passed. split; [done|].
  unfold build_output_rows. rewrite list_lookup_fmap, Hi.
  cbn [fmap option_fmap option_map]. unfold output_row. rewrite Hlook.
  by destruct hasTube, passed.
Qed.

Lemma build_output_rows_on_extracted_witness :
  ∃ result hasTube passed,
    ({["A01" := well_entry "T1" true true]} : wells_t) !! "A01"
    = Some (well_entry result hasTube passed) ∧
    build_output_rows [("B02", "S0"); ("A01", "S1")]
      {["A01" := well_entry "T1" true true]} !! 1%nat
    = Some ("A01", "S1", JStr result, flag_status hasTube passed).
Proof.
  apply (build_output_rows_on_extracted (λ _, "") skipped_rack_payload "RACK7"
           {["A01" := well_entry "T1" true true]} [("B02", "S0"); ("A01", "S1")]
           1 "A01" "S1"); [reflexivity|reflexivity|].
  by eexists.
Defined.

(** X16.  The rows keep the layout: position and sample ID of the i-th row
    are those of the i-th layout entry, and a row with the status "no_scan"
    has an empty scanner result. *)
Theorem build_output_rows_keeps_layout (layout : layout_t) (scanner_data : wells_t) :
  (λ r : row_t, (r.1.1.1, r.1.1.2)) <$> build_output_rows layout scanner_data = layout ∧
  ∀ position sample_id scanner_result,
    (position, sample_id, scanner_result, "no_scan")
      ∈ build_output_rows layout scanner_data →
    scanner_result = JStr "".
Proof.
  unfold build_output_rows. split.
  - rewrite <- list_fmap_compose. rewrite <- (list_fmap_id layout) at 2.
    apply list_fmap_ext. intros _ [position sample_id] _. simpl.
    by destruct (scanner_data !! position) as [[|field scanner_entry]|].
  - intros position sample_id scanner_result Hin.
    apply list_elem_of_fmap in Hin as ([p s] & Hrow & _).
    destruct (ReconcileFacts.output_row_cases scanner_data p s)
      as (r & st & Heq & Hcases).
    rewrite Heq in Hrow. injection Hrow as Hp Hs Hr Hst. subst.
    destruct (scanner_data !! p) as [[|field scanner_entry]|];
      [by destruct Hcases| |by destruct Hcases].
    destruct Hcases as [_ Hst]. exfalso.
    by destruct (entry_hasTube (field :: scanner_entry)),
         (entry_passed (field :: scanner_entry)).
Qed.

Lemma build_output_rows_keeps_layout_witness :
  JStr "" = JStr "".
Proof.
  apply (proj2 (build_output_rows_keeps_layout [("A02", "S2")] ∅) "A02" "S2" (JStr "")).
  apply list_elem_of_here.
Defined.

(** ** The warning about extra positions *)

(** X17.  The warning of [main] lists exactly the scanned positions that
    are not in the layout, each once, in increasing order. *)
Theorem extra_positions_exact (layout : layout_t) (scanner_wells : wells_t) :
  StronglySorted String.le (extra_positions layout scanner_wells) ∧
  NoDup (extra_positions layout scanner_wells) ∧
  ∀ position,
    position ∈ extra_positions layout scanner_wells ↔
    is_Some (scanner_wells !! position) ∧ position ∉ layout.*1.
Proof.
  unfold extra_positions. split_and!.
  - apply StronglySorted_merge_sort; apply _.
  - rewrite merge_sort_Permutation. apply NoDup_elements.
  - intros position. rewrite merge_sort_Permutation, elem_of_elements.
    rewrite elem_of_difference, elem_of_dom, elem_of_list_to_set. done.
Qed.

Example extra_positions_example :
  extra_positions [("A01", "S1")]
    {["B02" := well_entry "T2" true true; "A01" := well_entry "T1" true true;
      "A10" := well_entry "T3" true false]}
  = ["A10"; "B02"].
Proof. reflexivity. Qed.

(** ** Fetching the payload *)

Module FetchMore.

(** A backend name that [fetch_payload] knows. *)
Definition known (method : string) : Prop :=
  method = "requests" ∨ method = "urllib" ∨ method = "curl".

Lemma fetch_loop_known w method rest errors :
  known method →
  fetch_loop w (method :: rest) errors =
  match transport w method with
  | inr payload => Ok payload
  | inl e => fetch_loop w rest (errors ++ [e])
  end.
Proof. intros Hk. simpl. by rewrite bool_decide_eq_true_2. Qed.

(** The first backend that answers decides. *)
Lemma fetch_loop_first w methods : ∀ errors i method payload,
  Forall known methods →
  methods !! i = Some method →
  transport w method = inr payload →
  (∀ j earlier, (j < i)%nat → methods !! j = Some earlier →
                ∃ e, transport w earlier = inl e) →
  fetch_loop w methods errors = Ok payload.
Proof.
  induction methods as [|m methods IH];
    intros errors i method payload Hknown Hi Hok Hbefore; [done|].
  apply Forall_cons in Hknown as [Hm Hknown]. rewrite fetch_loop_known by done.
  destruct i as [|i].
  - injection Hi as ->. by rewrite Hok.
  - destruct (Hbefore 0%nat m) as [e He]; [lia|done|]. rewrite He.
    apply (IH _ i method); try done.
    intros j earlier Hj Hlook. apply (Hbefore (S j)); [lia|done].
Qed.

(** When every backend fails, the error of the last one is raised. *)
Lemma fetch_loop_all_fail w methods : ∀ errors,
  Forall known methods →
  Forall (λ m, ∃ e, transport w m = inl e) methods →
  fetch_loop w methods errors =
  match last (errors ++ omap (λ m, match transport w m with
                                   | inl e => Some e
                                   | inr _ => None
                                   end) methods) with
  | Some e => raise_builtin e
  | None => raise_builtin (RuntimeError "No HTTP backend is configured")
  end.
Proof.
  induction methods as [|m methods IH]; intros errors Hknown Hfail.
  - simpl. by rewrite app_nil_r.
  - apply Forall_cons in Hknown as [Hm Hknown].
    apply Forall_cons in Hfail as [[e He] Hfail].
    rewrite fetch_loop_known by done. rewrite He.
    rewrite IH by done. simpl. rewrite He. by rewrite <- app_assoc.
Qed.

Lemma resolve_known backend :
  backend = "auto" ∨ known backend → Forall known (_resolve_backends backend).
Proof.
  assert (Forall known ["requests"; "urllib"; "curl"]) as Hall.
  { unfold known. apply Forall_cons. split; [by left|].
    apply Forall_cons. split; [by right; left|].
    apply Forall_cons. split; [by right; right|]. apply Forall_nil_2. }
  unfold _resolve_backends. intros [->|Hk]; [done|].
  destruct (decide (backend = "auto")); [done|].
  apply Forall_cons. split; [done|]. apply Forall_nil_2.
Qed.

End FetchMore.

(** X18.  With the backend "auto", "requests", "urllib" or "curl",
    [fetch_payload] returns the payload of the first backend of its list
    that answers (for "auto": requests, then urllib, then curl); when every
    backend of the list fails it raises the error of the last one, never the
    "no backend configured" error. *)
Theorem fetch_payload_priority (w : world) (backend : string) :
  backend = "auto" ∨ FetchMore.known backend →
  (∀ i method payload,
     _resolve_backends backend !! i = Some method →
     transport w method = inr payload →
     (∀ j earlier, (j < i)%nat → _resolve_backends backend !! j = Some earlier →
                   ∃ e, transport w earlier = inl e) →
     fetch_payload w backend = Ok payload) ∧
  ((∀ method, method ∈ _resolve_backends backend → ∃ e, transport w method = inl e) →
   ∃ method e,
     last (_resolve_backends backend) = Some method ∧
     transport w method = inl e ∧
     fetch_payload w backend = raise_builtin e) ∧
  _resolve_backends "auto" = ["requests"; "urllib"; "curl"].
Proof.
  intros Hb. pose proof (FetchMore.resolve_known backend Hb) as Hknown.
  unfold fetch_payload. split_and!; [| |done].
  - intros i method payload Hi Hok Hbefore.
    by apply (FetchMore.fetch_loop_first w _ [] i method).
  - intros Hfail. rewrite FetchMore.fetch_loop_all_fail;
      [|done|by apply Forall_forall]. simpl.
    destruct (last (_resolve_backends backend)) as [method|] eqn:Hlast.
    + destruct (Hfail method) as [e He]; [by eapply last_Some_elem_of|].
      exists method, e. split_and!; [done..|].
      apply last_Some in Hlast as [l' ->].
      rewrite omap_app. simpl. rewrite He. simpl. by rewrite last_snoc.
    + apply last_None in Hlast. unfold _resolve_backends in Hlast.
      by destruct (decide (backend = "auto")).
Qed.

(** A reader that only curl reaches. *)
Definition curl_only_world : world :=
  {| command_line := HelpRequested;
     open_csv := λ _, CsvRows [] None;
     load_json_file := λ _, inr JNull;
     transport := λ method,
       if decide (method = "curl") then inr skipped_rack_payload
       else inl (ConnectionError "refused");
     output_fault := NoFault;
     warning_print := None; report_print := None |}.

Lemma fetch_payload_priority_witness :
  fetch_payload curl_only_world "auto" = Ok skipped_rack_payload.
Proof.
  apply (proj1 (fetch_payload_priority curl_only_world "auto" (or_introl eq_refl))
           2%nat "curl" skipped_rack_payload); [reflexivity|reflexivity|].
  intros [|[|j]] earlier Hj Hlook; [| |lia];
    injection Hlook as <-; by eexists.
Defined.

(** X19.  The curl backend returns a payload only when curl printed a
    response that parses as JSON, and the message of the [ConnectionError]
    it raises for a failed curl is never empty: it is the stripped standard
    error of curl unless that is blank, in which case it is the message with
    the exit code of curl. *)
Theorem fetch_via_curl_outcomes (json_loads : string → option json) (run : curl_run) :
  (∀ payload,
     _fetch_via_curl json_loads run = inr payload ↔
     ∃ stdout, run = CurlOutput stdout ∧ json_loads stdout = Some payload) ∧
  (∀ message,
     _fetch_via_curl json_loads run = inl (ConnectionError message) →
     message ≠ "" ∧
     ∃ returncode stderr,
       run = CurlExit returncode stderr ∧
       (PyStr.strip stderr ≠ "" → message = PyStr.strip stderr) ∧
       (PyStr.strip stderr = "" →
        message = "curl failed with exit code " +:+ pretty returncode)).
Proof.
  split.
  - intros payload. destruct run as [|class|returncode stderr|stdout]; simpl;
      try (split; [done|by intros (? & [=] & _)]).
    destruct (json_loads stdout) as [p|] eqn:Hp.
    + split; [intros [= <-]; by exists stdout|].
      intros (s & [= <-] & Hs). congruence.
    + split; [done|]. intros (s & [= <-] & Hs). congruence.
  - intros message. destruct run as [|class|returncode stderr|stdout]; simpl;
      try done; [|by destruct (json_loads stdout)].
    intros [= <-]. split.
    + destruct (PyStr.is_empty (PyStr.strip stderr)) eqn:E; [done|].
      by apply PyStrFacts.is_empty_false.
    + exists returncode, stderr. split_and!; [done| |].
      * intros Hne. apply PyStrFacts.is_empty_false in Hne. by rewrite Hne.
      * by intros ->.
Qed.

Lemma fetch_via_curl_outcomes_witness :
  "curl failed with exit code 7" ≠ "".
Proof.
  exact (proj1 (proj2 (fetch_via_curl_outcomes (λ _, None) (CurlExit 7 "  "))
                  "curl failed with exit code 7" eq_refl)).
Defined.

(** ** The run *)

Module RunMore.

Lemma paired_path_differs p : paired_path p ≠ p.
Proof.
  destruct p as [dir name ext]. unfold paired_path. simpl. intros [= Hstem _].
  apply (f_equal String.length) in Hstem.
  rewrite NormalizeMore.length_app in Hstem. simpl in Hstem. lia.
Qed.

Lemma load_payload_with_transport w a f t :
  json_file a = Some f → load_payload (with_transport w t) a = load_payload w a.
Proof. intros Hf. unfold load_payload. by rewrite Hf. Qed.

Lemma prepare_Ok repr w a rows output_path extra :
  prepare repr w a = Ok (rows, output_path, extra) ↔
  ∃ layout payload wells,
    read_layout (open_csv w (csv_path a)) = Ok layout ∧
    load_payload w a = Ok payload ∧
    extract_scanner_results repr payload = Ok (stem (csv_path a), wells) ∧
    rows = build_output_rows layout wells ∧
    output_path = output_path_of a ∧
    extra = extra_positions layout wells.
Proof.
  unfold prepare, bind, output_path_of. split.
  - destruct (read_layout _) as [e|layout]; [done|].
    destruct (load_payload w a) as [e|payload]; [done|].
    destruct (extract_scanner_results repr payload) as [e|[rack_id wells]] eqn:He;
      [done|].
    simpl. destruct (decide (rack_id ≠ stem (csv_path a))) as [|Heq]; [done|].
    apply dec_stable in Heq. subst rack_id. intros [= <- <- <-].
    by exists layout, payload, wells.
  - intros (layout & payload & wells & Hl & Hp & He & -> & -> & ->).
    rewrite Hl. simpl. rewrite Hp. simpl. rewrite He. simpl.
    by rewrite decide_False by (by intros []).
Qed.

End RunMore.

(** X20.  After a parsed command line the run exits with 0 exactly when the
    layout loads, the payload is obtained, the extractor returns the rack ID
    that is the stem of the CSV file name, the output is written, and the
    [print] calls that follow (the warning when there are extra positions,
    then the report) do not raise; the output file then holds the header
    followed by the rows of the reconciler. *)
Theorem script_succeeds_iff
    (repr : json → string) (w : world) (fs : files) (a : args) :
  command_line w = Parsed a →
  ((script repr w fs).1 = 0 ↔
   ∃ layout payload wells,
     read_layout (open_csv w (csv_path a)) = Ok layout ∧
     load_payload w a = Ok payload ∧
     extract_scanner_results repr payload = Ok (stem (csv_path a), wells) ∧
     output_fault w = NoFault ∧
     print_fault w (extra_positions layout wells) = None ∧
     (script repr w fs).2
     = <[output_path_of a :=
           csv_header :: (row_cells <$> build_output_rows layout wells)]> fs).
Proof.
  intros Hcli. rewrite (RunFacts.script_Parsed repr w a fs Hcli).
  destruct (prepare repr w a)
    as [[e|scanned expected]|[[rows output_path] extra]] eqn:Hprep.
  - split; [done|]. intros (layout & payload & wells & Hl & Hp & He & _).
    assert (prepare repr w a
            = Ok (build_output_rows layout wells, output_path_of a,
                  extra_positions layout wells))
      as Hok by (apply RunMore.prepare_Ok; by exists layout, payload, wells).
    rewrite Hok in Hprep. discriminate Hprep.
  - split; [done|]. intros (layout & payload & wells & Hl & Hp & He & _).
    assert (prepare repr w a
            = Ok (build_output_rows layout wells, output_path_of a,
                  extra_positions layout wells))
      as Hok by (apply RunMore.prepare_Ok; by exists layout, payload, wells).
    rewrite Hok in Hprep. discriminate Hprep.
  - apply RunMore.prepare_Ok in Hprep
      as (layout & payload & wells & Hl & Hp & He & -> & -> & ->).
    destruct (output_fault w) eqn:Hfault; simpl.
    + destruct (print_fault w (extra_positions layout wells)) eqn:Hprint.
      * split; [done|].
        intros (layout' & payload' & wells' & Hl' & Hp' & He' & _ & Hprint' & _).
        rewrite Hl in Hl'. injection Hl' as <-.
        rewrite Hp in Hp'. injection Hp' as <-.
        rewrite He in He'. injection He' as <-.
        rewrite Hprint in Hprint'. discriminate Hprint'.
      * split; [|done]. intros _. by exists layout, payload, wells.
    + split; [done|]. by intros (? & ? & ? & _ & _ & _ & [=] & _).
    + split; [done|]. by intros (? & ? & ? & _ & _ & _ & [=] & _).
Qed.

(** A world in which the scanned rack is the rack of the CSV file. *)
Definition matching_world : world :=
  {| command_line :=
       Parsed {| csv_path := Path "racks" "RACK7" ".csv"; output := None;
                 url := ""; json_file := Some (Path "" "scan" ".json");
                 trust_env_proxies := false; backend := "auto" |};
     open_csv := λ _, CsvRows [["A1"; "S1"]; []; ["a02"; "S2"]] None;
     load_json_file := λ _, inr skipped_rack_payload;
     transport := λ _, inl (ConnectionError "unreachable");
     output_fault := NoFault;
     warning_print := None; report_print := None |}.

Lemma script_succeeds_iff_witness :
  (script (λ _, "") matching_world ∅).1 = 0 ↔
  ∃ layout payload wells,
    read_layout (CsvRows [["A1"; "S1"]; []; ["a02"; "S2"]] None) = Ok layout ∧
    Ok skipped_rack_payload = Ok payload ∧
    extract_scanner_results (λ _, "") payload = Ok ("RACK7", wells) ∧
    NoFault = NoFault ∧
    print_fault matching_world (extra_positions layout wells) = None ∧
    (script (λ _, "") matching_world ∅).2
    = <[Path "racks" "RACK7_paired" ".csv" :=
          csv_header :: (row_cells <$> build_output_rows layout wells)]> ∅.
Proof.
  exact (script_succeeds_iff (λ _, "") matching_world ∅ _ eq_refl).
Defined.

(** X21.  With [--json-file] the reader is never asked: whatever the HTTP
    backends would answer, the exit status and the files are the same. *)
Theorem json_file_bypasses_transport
    (repr : json → string) (w : world) (fs : files) (a : args) (f : path)
    (t : string → builtin_exn + json) :
  command_line w = Parsed a →
  json_file a = Some f →
  script repr (with_transport w t) fs = script repr w fs.
Proof.
  intros Hcli Hf.
  rewrite (RunFacts.script_Parsed repr w a fs Hcli).
  rewrite (RunFacts.script_Parsed repr (with_transport w t) a fs Hcli).
  unfold prepare.
  by rewrite (RunMore.load_payload_with_transport w a f t Hf).
Qed.

Lemma json_file_bypasses_transport_witness :
  script (λ _, "") (with_transport matching_world (λ _, inr JNull)) ∅
  = script (λ _, "") matching_world ∅.
Proof.
  exact (json_file_bypasses_transport (λ _, "") matching_world ∅ _ _
           (λ _, inr JNull) eq_refl eq_refl).
Defined.
